(** * Empathize360 front end: session, turn pipeline, playback, push-to-talk
      and the feedback-report adapter

    A shallow embedding of
      - [features/interview/InterviewScreen.jsx]  (controller logic), and
      - [adapters/feedback.js]                    ([normalizeReport]),
    followed by the properties established about them.

    Conventions.
      - A JavaScript string is the list of its UTF-16 code units.
      - Asynchronous calls are run to completion one after the other (the
        component is single threaded and every call is awaited); the outside
        world is an abstract value [W] threaded through the calls, so that
        any deterministic back end and browser is an instance.
      - A thrown value or rejected promise is the [Throw] completion of the
        controller monad; [try_catch] and [try_finally] are the JavaScript
        constructs of the same name. *)

From Stdlib Require Import PrimFloat.
From Stdlib Require Import List ZArith NArith String Ascii Bool Lia.
Import ListNotations.

Set Implicit Arguments.
Set Warnings "-register-all".

(* ================================================================== *)
(** ** JavaScript strings and truthiness                                *)
(* ================================================================== *)

Module JS.

(** UTF-16 code units. *)
Definition jsstring : Type := list N.

(** A source literal (ASCII only in the sources embedded here). *)
Definition lit (s : string) : jsstring :=
  List.map N_of_ascii (list_ascii_of_string s).

Fixpoint str_eqb (a b : jsstring) : bool :=
  match a, b with
  | [], [] => true
  | x :: a', y :: b' => N.eqb x y && str_eqb a' b'
  | _, _ => false
  end.

(** [!!s] for a string: only the empty string is falsy. *)
Definition truthy_str (s : jsstring) : bool :=
  match s with [] => false | _ :: _ => true end.

(** [!!v] where [v] is a string, [null] or [undefined] ([None]). *)
Definition truthy_ostr (v : option jsstring) : bool :=
  match v with Some s => truthy_str s | None => false end.

(** [v || ''] where [v] is a string, [null] or [undefined]. *)
Definition or_empty (v : option jsstring) : jsstring :=
  match v with Some s => if truthy_str s then s else [] | None => [] end.

(** [s || null]. *)
Definition or_null (s : jsstring) : option jsstring :=
  if truthy_str s then Some s else None.

(** ECMA-262 WhiteSpace and LineTerminator code points, the ones
    [String.prototype.trim] strips. *)
Definition isWhiteSpace (c : N) : bool :=
  (N.eqb c 9 || N.eqb c 10 || N.eqb c 11 || N.eqb c 12 || N.eqb c 13
   || N.eqb c 32 || N.eqb c 160 || N.eqb c 5760
   || (N.leb 8192 c && N.leb c 8202)
   || N.eqb c 8232 || N.eqb c 8233 || N.eqb c 8239 || N.eqb c 8287
   || N.eqb c 12288 || N.eqb c 65279)%bool.

Fixpoint trimStart (s : jsstring) : jsstring :=
  match s with
  | [] => []
  | c :: s' => if isWhiteSpace c then trimStart s' else s
  end.

Definition trimEnd (s : jsstring) : jsstring :=
  rev (trimStart (rev s)).

(** [s.trim()]. *)
Definition trim (s : jsstring) : jsstring := trimEnd (trimStart s).

(** A string made of white space only (the empty string included). *)
Definition whitespace_only (s : jsstring) : bool := forallb isWhiteSpace s.

Definition isUpperAZ (c : N) : bool := N.leb 65 c && N.leb c 90.
Definition isLowerAZ (c : N) : bool := N.leb 97 c && N.leb c 122.
Definition isDigit (c : N) : bool := N.leb 48 c && N.leb c 57.

(** [\w] of a regular expression without the [u] and [i] flags. *)
Definition isWordChar (c : N) : bool :=
  isUpperAZ c || isLowerAZ c || isDigit c || N.eqb c 95.

(** [toLowerCase] restricted to its action on ASCII.  The only use in the
    embedded code compares the result with ['input'] and ['textarea']; no
    code point outside ASCII lower-cases to a one-unit string made of the
    letters of these two words, so the comparison is decided alike. *)
Definition toLowerCaseASCII (s : jsstring) : jsstring :=
  List.map (fun c => if isUpperAZ c then (c + 32)%N else c) s.

(** [c.toUpperCase()] for a single [\w] character. *)
Definition upperWordChar (c : N) : N :=
  if isLowerAZ c then (c - 32)%N else c.

(** A thrown value or rejection reason.  The embedded code never
    inspects it beyond logging. *)
Inductive Exn : Type :=
| NetworkError (msg : jsstring)
| TypeError (msg : jsstring)
| DOMException (name : jsstring).

End JS.

Import JS.

(* ================================================================== *)
(** ** Push-to-talk key handlers (InterviewScreen.jsx, lines 54-83)     *)
(* ================================================================== *)

Module PushToTalk.

(** [e.target]: the fields that [targetIsEditable] reads. *)
Record Element : Type := {
  tagName : option jsstring;
  isContentEditable : bool
}.

Record KeyboardEvent : Type := {
  code : jsstring;
  key : jsstring;
  keyCode : Z;
  target : option Element
}.

(** The refs read and written by the handlers. *)
Record Refs : Type := {
  spaceIsDownRef : bool;
  processingRef : bool;
  sessionActiveRef : bool;
  isRecordingRef : bool
}.

(** What a handler asks the recorder to do. *)
Inductive Transition : Type := StartRecording | StopRecording.

Definition targetIsEditable (el : option Element) : bool :=
  let tag := toLowerCaseASCII
               (or_empty (match el with Some x => tagName x | None => None end)) in
  str_eqb tag (lit "input") || str_eqb tag (lit "textarea")
  || match el with Some x => isContentEditable x | None => false end.

Definition isSpace (e : KeyboardEvent) : bool :=
  str_eqb (code e) (lit "Space") || str_eqb (key e) (lit " ")
  || str_eqb (key e) (lit "Spacebar") || Z.eqb (keyCode e) 32.

Definition set_spaceIsDown (b : bool) (r : Refs) : Refs :=
  {| spaceIsDownRef := b;
     processingRef := processingRef r;
     sessionActiveRef := sessionActiveRef r;
     isRecordingRef := isRecordingRef r |}.

(** [onKeyDown]: the new refs and the call made to the recorder, if any
    ([stopRecording()] or [startRecording()]). *)
Definition onKeyDown (e : KeyboardEvent) (r : Refs) : Refs * option Transition :=
  if negb (isSpace e) || targetIsEditable (target e) then (r, None)
  else if spaceIsDownRef r then (r, None)
  else
    let r' := set_spaceIsDown true r in
    if processingRef r' || negb (sessionActiveRef r') then (r', None)
    else (r', Some (if isRecordingRef r' then StopRecording else StartRecording)).

Definition onKeyUp (e : KeyboardEvent) (r : Refs) : Refs * option Transition :=
  if negb (isSpace e) then (r, None)
  else (set_spaceIsDown false r, None).

(** What can happen to the refs: the two window listeners, and a render
    whose effects copy the current [isRecording], [processing] and
    [sessionActive] state into their refs (lines 36-38); the values copied
    are whatever the rest of the component made them. *)
Inductive Input : Type :=
| KeyDown (e : KeyboardEvent)
| KeyUp (e : KeyboardEvent)
| Mirror (isRecording processing sessionActive : bool).

Definition step (i : Input) (r : Refs) : Refs * option Transition :=
  match i with
  | KeyDown e => onKeyDown e r
  | KeyUp e => onKeyUp e r
  | Mirror rec proc act =>
      ({| spaceIsDownRef := spaceIsDownRef r;
          processingRef := proc;
          sessionActiveRef := act;
          isRecordingRef := rec |}, None)
  end.

(** Running a sequence of inputs: the final refs and, input by input, the
    transition emitted. *)
Fixpoint run (ins : list Input) (r : Refs) : Refs * list (option Transition) :=
  match ins with
  | [] => (r, [])
  | i :: ins' =>
      let (r1, o) := step i r in
      let (r2, os) := run ins' r1 in
      (r2, o :: os)
  end.

(** The number of transitions emitted. *)
Fixpoint emitted (os : list (option Transition)) : nat :=
  match os with
  | [] => 0
  | Some _ :: os' => S (emitted os')
  | None :: os' => emitted os'
  end.

(** A key-up of the push-to-talk key. *)
Definition isSpaceKeyUp (i : Input) : bool :=
  match i with KeyUp e => isSpace e | _ => false end.

(** A key-down of the push-to-talk key. *)
Definition isSpaceKeyDown (i : Input) : bool :=
  match i with KeyDown e => isSpace e | _ => false end.

(** The transition emitted by the [n]-th input of a run, if any. *)
Definition output_at (ins : list Input) (r : Refs) (n : nat) : option Transition :=
  nth n (snd (run ins r)) None.

(** Scenario: the key is pressed and held through two key repeats,
    released, the recording state reaches its ref, and the key is pressed
    again. *)
Definition spaceEvent : KeyboardEvent :=
  {| code := lit "Space"; key := lit " "; keyCode := 32; target := None |}.

Definition readyRefs : Refs :=
  {| spaceIsDownRef := false; processingRef := false;
     sessionActiveRef := true; isRecordingRef := false |}.

Definition holdReleasePress : list Input :=
  [KeyDown spaceEvent; KeyDown spaceEvent; KeyDown spaceEvent;
   KeyUp spaceEvent; Mirror true false true; KeyDown spaceEvent].

(** The inputs a handler acts on: a key-down of the push-to-talk key
    outside an editable element, a key-up of that key, a change of the
    mirrored state. *)
Definition relevant (i : Input) : bool :=
  match i with
  | KeyDown e => isSpace e && negb (targetIsEditable (target e))
  | KeyUp e => isSpace e
  | Mirror _ _ _ => true
  end.

(** The transitions emitted, in order. *)
Fixpoint transitions (os : list (option Transition)) : list Transition :=
  match os with
  | [] => []
  | Some t :: os' => t :: transitions os'
  | None :: os' => transitions os'
  end.

End PushToTalk.

(* ================================================================== *)
(** ** The interview controller (InterviewScreen.jsx)                   *)
(* ================================================================== *)

Module Interview.

(** Settlement of an awaited promise. *)
Inductive Outcome (A : Type) : Type :=
| Resolved (a : A)
| Rejected (e : Exn).
Arguments Rejected {A} e.

Record Blob : Type := {
  blob_bytes : list N;
  blob_type : jsstring
}.

(** One element of [interviewTurns].  [turn_number] is absent ([None])
    until the turn is patched. *)
Record Turn : Type := {
  id : jsstring;
  student_question : jsstring;
  student_audio_url : option jsstring;
  persona_response : jsstring;
  persona_audio_url : option jsstring;
  timestamp : jsstring;
  turn_number : option Z
}.

(** The fields read from the resolved value of [getPersonaReply]
    ([None]: the field is missing). *)
Record ReplyResult : Type := {
  reply : option jsstring;
  reply_turn_number : option Z
}.

(** The fields read from the resolved value of [generateTTS]. *)
Record TTSResult : Type := {
  audio_base64 : option jsstring;
  audio_url : option jsstring
}.

(** An [Audio] element, as far as the controller drives it. *)
Record Audio : Type := {
  src : jsstring;
  currentTime : N;
  paused : bool
}.

(** Calls made to [apiService], with how each one settled, in order. *)
Inductive ApiEvent : Type :=
| EvStartSession (persona : jsstring) (r : Outcome (option jsstring))
| EvCheckSessionStatus (sid : jsstring) (r : Outcome bool)
| EvEndSession (sid : jsstring) (r : Outcome unit)
| EvUploadAudio (b : Blob) (r : Outcome (option jsstring))
| EvGetPersonaReply (persona text sid : jsstring) (r : Outcome ReplyResult)
| EvGenerateTTS (text persona : jsstring) (r : Outcome TTSResult).

Definition isStartSession (e : ApiEvent) : bool :=
  match e with EvStartSession _ _ => true | _ => false end.

(** The calls that [ensureSession] makes. *)
Definition isSessionEvent (e : ApiEvent) : bool :=
  match e with
  | EvStartSession _ _ | EvCheckSessionStatus _ _ => true
  | _ => false
  end.

(** What was done to audio elements, in order. *)
Inductive AudioOp : Type :=
| OpPause (url : jsstring)
| OpSeekZero (url : jsstring)
| OpNew (url : jsstring)
| OpPlay (url : jsstring) (ok : bool).

Definition isResolved {A} (o : Outcome A) : bool :=
  match o with Resolved _ => true | Rejected _ => false end.

Definition isOpNew (o : AudioOp) : bool :=
  match o with OpNew _ => true | _ => false end.

(** Completion of a piece of code: normally with a value, or abruptly
    with a thrown one. *)
Inductive Completion (A : Type) : Type :=
| Normal (a : A)
| Throw (e : Exn).
Arguments Throw {A} e.

Section World.

Variable W : Type.

(** The external collaborators: [apiService] (not part of the embedded
    sources: an HTTP client) and the browser built-ins the controller
    calls.  Each takes the world and returns the next one.  A resolved
    value from which the destructuring or the property read of the caller
    would throw counts as [Rejected]: both land in the same [catch]. *)
Record Env : Type := {
  startSession : jsstring -> W -> Outcome (option jsstring) * W;
  checkSessionStatus : jsstring -> W -> Outcome bool * W;
  endSession : jsstring -> W -> Outcome unit * W;
  uploadAudio : Blob -> W -> Outcome (option jsstring) * W;
  getPersonaReply : jsstring -> jsstring -> jsstring -> W -> Outcome ReplyResult * W;
  generateTTS : jsstring -> jsstring -> W -> Outcome TTSResult * W;
  (** [atob]: [None] when it throws on its argument. *)
  atob : jsstring -> option jsstring;
  createObjectURL : Blob -> W -> jsstring * W;
  (** [HTMLMediaElement.play()], which the browser may refuse. *)
  audio_play : Audio -> W -> Outcome unit * W;
  (** [Date.now()] and [Math.random()] as used by [makeTurnId]. *)
  makeTurnId_raw : W -> jsstring * W;
  (** [new Date().toISOString()]. *)
  nowISOString : W -> jsstring * W
}.

(** Component state, refs, the [interviewTurns] and [error] state owned
    by the parent, the world, and two ghost logs. *)
Record St : Type := {
  processing : bool;
  personaTyping : bool;
  sessionId : option jsstring;
  sessionActive : bool;
  playingKey : jsstring;
  interviewTurns : list Turn;
  error : jsstring;
  currentAudioRef : option Audio;
  currentAudioUrlRef : jsstring;
  userBlobUrlsRef : list jsstring;
  sessionIdRef : option jsstring;
  world : W;
  apiLog : list ApiEvent;
  audioLog : list AudioOp
}.

Definition setProcessing (v : bool) (s : St) : St :=
  {| processing := v; personaTyping := personaTyping s; sessionId := sessionId s;
     sessionActive := sessionActive s; playingKey := playingKey s;
     interviewTurns := interviewTurns s; error := error s;
     currentAudioRef := currentAudioRef s; currentAudioUrlRef := currentAudioUrlRef s;
     userBlobUrlsRef := userBlobUrlsRef s; sessionIdRef := sessionIdRef s;
     world := world s; apiLog := apiLog s; audioLog := audioLog s |}.

Definition setPersonaTyping (v : bool) (s : St) : St :=
  {| processing := processing s; personaTyping := v; sessionId := sessionId s;
     sessionActive := sessionActive s; playingKey := playingKey s;
     interviewTurns := interviewTurns s; error := error s;
     currentAudioRef := currentAudioRef s; currentAudioUrlRef := currentAudioUrlRef s;
     userBlobUrlsRef := userBlobUrlsRef s; sessionIdRef := sessionIdRef s;
     world := world s; apiLog := apiLog s; audioLog := audioLog s |}.

Definition setSessionId (v : option jsstring) (s : St) : St :=
  {| processing := processing s; personaTyping := personaTyping s; sessionId := v;
     sessionActive := sessionActive s; playingKey := playingKey s;
     interviewTurns := interviewTurns s; error := error s;
     currentAudioRef := currentAudioRef s; currentAudioUrlRef := currentAudioUrlRef s;
     userBlobUrlsRef := userBlobUrlsRef s; sessionIdRef := sessionIdRef s;
     world := world s; apiLog := apiLog s; audioLog := audioLog s |}.

Definition setSessionActive (v : bool) (s : St) : St :=
  {| processing := processing s; personaTyping := personaTyping s; sessionId := sessionId s;
     sessionActive := v; playingKey := playingKey s;
     interviewTurns := interviewTurns s; error := error s;
     currentAudioRef := currentAudioRef s; currentAudioUrlRef := currentAudioUrlRef s;
     userBlobUrlsRef := userBlobUrlsRef s; sessionIdRef := sessionIdRef s;
     world := world s; apiLog := apiLog s; audioLog := audioLog s |}.

Definition setPlayingKey (v : jsstring) (s : St) : St :=
  {| processing := processing s; personaTyping := personaTyping s; sessionId := sessionId s;
     sessionActive := sessionActive s; playingKey := v;
     interviewTurns := interviewTurns s; error := error s;
     currentAudioRef := currentAudioRef s; currentAudioUrlRef := currentAudioUrlRef s;
     userBlobUrlsRef := userBlobUrlsRef s; sessionIdRef := sessionIdRef s;
     world := world s; apiLog := apiLog s; audioLog := audioLog s |}.

(** [setInterviewTurns] with a functional updater. *)
Definition setInterviewTurns (f : list Turn -> list Turn) (s : St) : St :=
  {| processing := processing s; personaTyping := personaTyping s; sessionId := sessionId s;
     sessionActive := sessionActive s; playingKey := playingKey s;
     interviewTurns := f (interviewTurns s); error := error s;
     currentAudioRef := currentAudioRef s; currentAudioUrlRef := currentAudioUrlRef s;
     userBlobUrlsRef := userBlobUrlsRef s; sessionIdRef := sessionIdRef s;
     world := world s; apiLog := apiLog s; audioLog := audioLog s |}.

Definition setError (v : jsstring) (s : St) : St :=
  {| processing := processing s; personaTyping := personaTyping s; sessionId := sessionId s;
     sessionActive := sessionActive s; playingKey := playingKey s;
     interviewTurns := interviewTurns s; error := v;
     currentAudioRef := currentAudioRef s; currentAudioUrlRef := currentAudioUrlRef s;
     userBlobUrlsRef := userBlobUrlsRef s; sessionIdRef := sessionIdRef s;
     world := world s; apiLog := apiLog s; audioLog := audioLog s |}.

Definition set_currentAudioRef (v : option Audio) (s : St) : St :=
  {| processing := processing s; personaTyping := personaTyping s; sessionId := sessionId s;
     sessionActive := sessionActive s; playingKey := playingKey s;
     interviewTurns := interviewTurns s; error := error s;
     currentAudioRef := v; currentAudioUrlRef := currentAudioUrlRef s;
     userBlobUrlsRef := userBlobUrlsRef s; sessionIdRef := sessionIdRef s;
     world := world s; apiLog := apiLog s; audioLog := audioLog s |}.

Definition set_currentAudioUrlRef (v : jsstring) (s : St) : St :=
  {| processing := processing s; personaTyping := personaTyping s; sessionId := sessionId s;
     sessionActive := sessionActive s; playingKey := playingKey s;
     interviewTurns := interviewTurns s; error := error s;
     currentAudioRef := currentAudioRef s; currentAudioUrlRef := v;
     userBlobUrlsRef := userBlobUrlsRef s; sessionIdRef := sessionIdRef s;
     world := world s; apiLog := apiLog s; audioLog := audioLog s |}.

Definition push_userBlobUrl (v : jsstring) (s : St) : St :=
  {| processing := processing s; personaTyping := personaTyping s; sessionId := sessionId s;
     sessionActive := sessionActive s; playingKey := playingKey s;
     interviewTurns := interviewTurns s; error := error s;
     currentAudioRef := currentAudioRef s; currentAudioUrlRef := currentAudioUrlRef s;
     userBlobUrlsRef := userBlobUrlsRef s ++ [v]; sessionIdRef := sessionIdRef s;
     world := world s; apiLog := apiLog s; audioLog := audioLog s |}.

Definition set_sessionIdRef (v : option jsstring) (s : St) : St :=
  {| processing := processing s; personaTyping := personaTyping s; sessionId := sessionId s;
     sessionActive := sessionActive s; playingKey := playingKey s;
     interviewTurns := interviewTurns s; error := error s;
     currentAudioRef := currentAudioRef s; currentAudioUrlRef := currentAudioUrlRef s;
     userBlobUrlsRef := userBlobUrlsRef s; sessionIdRef := v;
     world := world s; apiLog := apiLog s; audioLog := audioLog s |}.

Definition set_world (v : W) (s : St) : St :=
  {| processing := processing s; personaTyping := personaTyping s; sessionId := sessionId s;
     sessionActive := sessionActive s; playingKey := playingKey s;
     interviewTurns := interviewTurns s; error := error s;
     currentAudioRef := currentAudioRef s; currentAudioUrlRef := currentAudioUrlRef s;
     userBlobUrlsRef := userBlobUrlsRef s; sessionIdRef := sessionIdRef s;
     world := v; apiLog := apiLog s; audioLog := audioLog s |}.

Definition log_api (e : ApiEvent) (s : St) : St :=
  {| processing := processing s; personaTyping := personaTyping s; sessionId := sessionId s;
     sessionActive := sessionActive s; playingKey := playingKey s;
     interviewTurns := interviewTurns s; error := error s;
     currentAudioRef := currentAudioRef s; currentAudioUrlRef := currentAudioUrlRef s;
     userBlobUrlsRef := userBlobUrlsRef s; sessionIdRef := sessionIdRef s;
     world := world s; apiLog := apiLog s ++ [e]; audioLog := audioLog s |}.

Definition log_audio (o : AudioOp) (s : St) : St :=
  {| processing := processing s; personaTyping := personaTyping s; sessionId := sessionId s;
     sessionActive := sessionActive s; playingKey := playingKey s;
     interviewTurns := interviewTurns s; error := error s;
     currentAudioRef := currentAudioRef s; currentAudioUrlRef := currentAudioUrlRef s;
     userBlobUrlsRef := userBlobUrlsRef s; sessionIdRef := sessionIdRef s;
     world := world s; apiLog := apiLog s; audioLog := audioLog s ++ [o] |}.

(** *** The controller monad: state, and completion by value or throw *)

Definition M (A : Type) : Type := St -> Completion A * St.

Definition ret {A} (a : A) : M A := fun s => (Normal a, s).

Definition bind {A B} (m : M A) (k : A -> M B) : M B :=
  fun s =>
    match m s with
    | (Normal a, s1) => k a s1
    | (Throw e, s1) => (Throw e, s1)
    end.

Definition throw {A} (e : Exn) : M A := fun s => (Throw e, s).

(** [try { body } catch (err) { handler }]. *)
Definition try_catch {A} (body : M A) (handler : Exn -> M A) : M A :=
  fun s =>
    match body s with
    | (Normal a, s1) => (Normal a, s1)
    | (Throw e, s1) => handler e s1
    end.

(** [try { body } finally { fin }]. *)
Definition try_finally {A} (body : M A) (fin : M unit) : M A :=
  fun s =>
    match body s with
    | (c, s1) =>
        match fin s1 with
        | (Normal _, s2) => (c, s2)
        | (Throw e, s2) => (Throw e, s2)
        end
    end.

(** A state update that cannot throw. *)
Definition upd (f : St -> St) : M unit := fun s => (Normal tt, f s).

Definition read {A} (f : St -> A) : M A := fun s => (Normal (f s), s).

(** [await p]: the promise's settlement becomes the completion. *)
Definition await {A} (o : Outcome A) : M A :=
  match o with
  | Resolved a => ret a
  | Rejected e => throw e
  end.

Notation "x <- m ;; k" := (bind m (fun x => k))
  (at level 61, m at next level, right associativity).
Notation "m ;; k" := (bind m (fun _ => k))
  (at level 61, right associativity).

(** *** The component *)

Variable env : Env.
(** [persona.id], a prop of the component. *)
Variable personaId : jsstring.

(** [console.error] and [console.warn] leave the state alone. *)
Definition console_log : M unit := ret tt.

(** Awaited [apiService] calls: the world advances and the call is logged
    with its settlement. *)
Definition call_startSession (pid : jsstring) : M (option jsstring) :=
  fun s =>
    let (o, w) := startSession env pid (world s) in
    await o (log_api (EvStartSession pid o) (set_world w s)).

Definition call_checkSessionStatus (sid : jsstring) : M bool :=
  fun s =>
    let (o, w) := checkSessionStatus env sid (world s) in
    await o (log_api (EvCheckSessionStatus sid o) (set_world w s)).

Definition call_endSession (sid : jsstring) : M unit :=
  fun s =>
    let (o, w) := endSession env sid (world s) in
    await o (log_api (EvEndSession sid o) (set_world w s)).

Definition call_uploadAudio (b : Blob) : M (option jsstring) :=
  fun s =>
    let (o, w) := uploadAudio env b (world s) in
    await o (log_api (EvUploadAudio b o) (set_world w s)).

Definition call_getPersonaReply (pid text sid : jsstring) : M ReplyResult :=
  fun s =>
    let (o, w) := getPersonaReply env pid text sid (world s) in
    await o (log_api (EvGetPersonaReply pid text sid o) (set_world w s)).

Definition call_generateTTS (text pid : jsstring) : M TTSResult :=
  fun s =>
    let (o, w) := generateTTS env text pid (world s) in
    await o (log_api (EvGenerateTTS text pid o) (set_world w s)).

Definition call_createObjectURL (b : Blob) : M jsstring :=
  fun s =>
    let (u, w) := createObjectURL env b (world s) in
    (Normal u, set_world w s).

(** [base64ToBlob] (lines 85-95): [atob] may throw; each character code
    is stored in a [Uint8Array]. *)
Definition base64ToBlob (base64 mimeType : jsstring) : M Blob :=
  match atob env base64 with
  | None => throw (DOMException (lit "InvalidCharacterError"))
  | Some byteCharacters =>
      ret {| blob_bytes := List.map (fun c => N.modulo c 256) byteCharacters;
             blob_type := mimeType |}
  end.

(** *** Audio helpers (lines 98-131) *)

(** [currentAudioRef.current.pause()]. *)
Definition pause_current : M unit :=
  cur <- read currentAudioRef ;;
  match cur with
  | Some a =>
      upd (set_currentAudioRef
             (Some {| src := src a; currentTime := currentTime a; paused := true |})) ;;
      upd (log_audio (OpPause (src a)))
  | None => throw (TypeError (lit "null has no properties"))
  end.

(** [currentAudioRef.current.currentTime = 0]. *)
Definition seekZero_current : M unit :=
  cur <- read currentAudioRef ;;
  match cur with
  | Some a =>
      upd (set_currentAudioRef
             (Some {| src := src a; currentTime := 0%N; paused := paused a |})) ;;
      upd (log_audio (OpSeekZero (src a)))
  | None => throw (TypeError (lit "null has no properties"))
  end.

(** [await a.play()] on the element held by [currentAudioRef]. *)
Definition play_current : M unit :=
  fun s =>
    match currentAudioRef s with
    | Some a =>
        let (o, w) := audio_play env a (world s) in
        match o with
        | Resolved _ =>
            (Normal tt,
             log_audio (OpPlay (src a) true)
               (set_currentAudioRef
                  (Some {| src := src a; currentTime := currentTime a; paused := false |})
                  (set_world w s)))
        | Rejected e =>
            (Throw e, log_audio (OpPlay (src a) false) (set_world w s))
        end
    | None => (Throw (TypeError (lit "null has no properties")), s)
    end.

Definition hasCurrentAudio (s : St) : bool :=
  match currentAudioRef s with Some _ => true | None => false end.

Definition stopCurrentAudio : M unit :=
  try_catch
    (has <- read hasCurrentAudio ;;
     if has then pause_current ;; seekZero_current else ret tt)
    (fun _ => ret tt) ;;
  upd (setPlayingKey []) ;;
  upd (set_currentAudioUrlRef []).

(** The operations [stopCurrentAudio] performs on the element held, if
    there is one. *)
Definition stopOps (s : St) : list AudioOp :=
  match currentAudioRef s with
  | Some a => [OpPause (src a); OpSeekZero (src a)]
  | None => []
  end.

(** The [onended] handler installed on every element that [playAudio]
    creates (lines 120-123). *)
Definition onended : M unit :=
  upd (setPlayingKey []) ;;
  upd (set_currentAudioUrlRef []).

(** [new Audio(url)]. *)
Definition newAudio (url : jsstring) : Audio :=
  {| src := url; currentTime := 0%N; paused := true |}.

Definition playAudio (url bubbleKey : jsstring) : M unit :=
  try_catch
    (if negb (truthy_str url) then ret tt
     else
       has <- read hasCurrentAudio ;;
       curUrl <- read currentAudioUrlRef ;;
       if has && str_eqb curUrl url then
         seekZero_current ;;
         play_current ;;
         upd (setPlayingKey (or_empty (Some bubbleKey)))
       else
         stopCurrentAudio ;;
         upd (log_audio (OpNew url)) ;;
         upd (set_currentAudioRef (Some (newAudio url))) ;;
         upd (set_currentAudioUrlRef url) ;;
         upd (setPlayingKey (or_empty (Some bubbleKey))) ;;
         play_current)
    (fun err => console_log).

(** *** Session helpers (lines 134-170) *)

Definition initializeSession : M (option jsstring) :=
  try_catch
    (session_id <- call_startSession personaId ;;
     upd (setSessionId session_id) ;;
     upd (set_sessionIdRef session_id) ;;
     upd (setSessionActive true) ;;
     ret session_id)
    (fun err =>
       console_log ;;
       upd (setError (lit "Failed to initialize interview session")) ;;
       ret None).

Definition ensureSession : M (option jsstring) :=
  sid <- read sessionIdRef ;;
  if negb (truthy_ostr sid) then initializeSession
  else
    try_catch
      (active <- call_checkSessionStatus (or_empty sid) ;;
       if negb active then initializeSession else ret sid)
      (fun _ => initializeSession).

Definition endSessionCleanup : M unit :=
  sid <- read sessionIdRef ;;
  if negb (truthy_ostr sid) then ret tt
  else
    try_catch (call_endSession (or_empty sid)) (fun _ => ret tt) ;;
    upd (setSessionActive false) ;;
    upd (setSessionId None) ;;
    upd (set_sessionIdRef None).

(** *** The turn pipeline (lines 211-297) *)

Definition makeTurnId : M jsstring :=
  fun s =>
    let (t, w) := makeTurnId_raw env (world s) in
    (Normal t, set_world w s).

Definition newDateISO : M jsstring :=
  fun s =>
    let (t, w) := nowISOString env (world s) in
    (Normal t, set_world w s).

(** [next.findIndex((t) => t.id === turnId)]; [None] stands for [-1]. *)
Fixpoint findIndex (turnId : jsstring) (l : list Turn) : option nat :=
  match l with
  | [] => None
  | t :: l' =>
      if str_eqb (id t) turnId then Some 0
      else match findIndex turnId l' with
           | Some i => Some (S i)
           | None => None
           end
  end.

(** [next[idx] = v] for an index inside the array. *)
Fixpoint assign (idx : nat) (v : Turn) (l : list Turn) : list Turn :=
  match l, idx with
  | [], _ => []
  | _ :: l', 0 => v :: l'
  | t :: l', S i => t :: assign i v l'
  end.

(** [n || d] on turn numbers: a missing number and zero are falsy. *)
Definition or_num (n : option Z) (d : Z) : Z :=
  match n with
  | Some z => if Z.eqb z 0 then d else z
  | None => d
  end.

(** The updater of step 6 (lines 274-286). *)
Definition patchTurn (turnId reply : jsstring) (personaAudioUrl : option jsstring)
           (server_turn_number : option Z) (prev : list Turn) : list Turn :=
  let next := prev in
  match findIndex turnId next with
  | Some idx =>
      match nth_error next idx with
      | Some t =>
          assign idx
            {| id := id t;
               student_question := student_question t;
               student_audio_url := student_audio_url t;
               persona_response := reply;
               persona_audio_url := personaAudioUrl;
               timestamp := timestamp t;
               turn_number := Some (or_num server_turn_number (Z.of_nat idx + 1)) |}
            next
      | None => next
      end
  | None => next
  end.

Definition baseTurn (turnId text userAudioUrl ts : jsstring) : Turn :=
  {| id := turnId;
     student_question := text;
     student_audio_url := or_null userAudioUrl;
     persona_response := [];
     persona_audio_url := None;
     timestamp := ts;
     turn_number := None |}.

(** Step 5: text to speech, either representation. *)
Definition synthesize (reply : jsstring) : M (option jsstring) :=
  if truthy_str reply then
    ttsResult <- call_generateTTS reply personaId ;;
    if truthy_ostr (audio_base64 ttsResult) then
      audioBlob <- base64ToBlob (or_empty (audio_base64 ttsResult)) (lit "audio/mpeg") ;;
      url <- call_createObjectURL audioBlob ;;
      upd (push_userBlobUrl url) ;;
      ret (Some url)
    else if truthy_ostr (audio_url ttsResult) then ret (audio_url ttsResult)
    else ret None
  else ret None.

Definition processAudio (audioBlob : Blob) (userAudioUrl : jsstring) : M unit :=
  try_finally
    (try_catch
       (upd (setProcessing true) ;;
        sid <- ensureSession ;;
        if negb (truthy_ostr sid) then
          upd (setError (lit "Could not start interview session.")) ;;
          upd (setProcessing false)
        else
          transcript <- call_uploadAudio audioBlob ;;
          let text := trim (or_empty transcript) in
          if negb (truthy_str text) then
            upd (setError (lit "No speech detected. Please try again.")) ;;
            upd (setProcessing false)
          else
            turnId <- makeTurnId ;;
            ts <- newDateISO ;;
            upd (setInterviewTurns
                   (fun prev => prev ++ [baseTurn turnId text userAudioUrl ts])) ;;
            upd (setPersonaTyping true) ;;
            replyResult <- call_getPersonaReply personaId text (or_empty sid) ;;
            let reply := trim (or_empty (reply replyResult)) in
            personaAudioUrl <- synthesize reply ;;
            upd (setInterviewTurns
                   (patchTurn turnId reply personaAudioUrl
                      (reply_turn_number replyResult))) ;;
            if truthy_ostr personaAudioUrl
            then playAudio (or_empty personaAudioUrl) (lit "p-" ++ turnId)
            else ret tt)
       (fun err =>
          console_log ;;
          upd (setError (lit "Failed to process audio"))))
    (upd (setPersonaTyping false) ;;
     upd (setProcessing false)).

(** The playback refs agree: a loaded reference names the source of
    the element held, and something is marked as playing only while a
    reference is loaded. *)
Definition audioConsistent (s : St) : Prop :=
  (truthy_str (currentAudioUrlRef s) = true ->
   exists a, currentAudioRef s = Some a /\ src a = currentAudioUrlRef s)
  /\ (truthy_str (playingKey s) = true ->
      truthy_str (currentAudioUrlRef s) = true).

(** *** End of the interview (lines 300-307) *)

(** [handleEndInterview].  The value returned tells whether the
    parent's [onEndInterview] callback was called. *)
Definition handleEndInterview : M bool :=
  turns <- read interviewTurns ;;
  if Nat.eqb (List.length turns) 0 then
    upd (setError (lit "No interview data to analyze")) ;;
    ret false
  else
    endSessionCleanup ;;
    ret true.

End World.

End Interview.

(* ================================================================== *)
(** ** The feedback adapter (adapters/feedback.js)                      *)
(* ================================================================== *)

Module Feedback.

(** The values a report is made of: what [JSON.parse] produces, plus
    [undefined] for a missing property.  The properties of an object are
    listed in enumeration order, each name once. *)
Inductive jsval : Type :=
| VUndefined
| VNull
| VBool (b : bool)
| VNum (f : float)
| VStr (s : jsstring)
| VArr (elems : list jsval)
| VObj (props : list (jsstring * jsval)).

(** Completion of an expression: a value, or a thrown exception. *)
Inductive Res (A : Type) : Type :=
| Val (a : A)
| Raise (e : Exn).
Arguments Raise {A} e.

Definition rbind {A B} (m : Res A) (k : A -> Res B) : Res B :=
  match m with
  | Val a => k a
  | Raise e => Raise e
  end.

Notation "x <- m ;; k" := (rbind m (fun x => k))
  (at level 61, m at next level, right associativity).

(** [arr.map(f)] for a callback that may throw: left to right, stopping
    at the first exception. *)
Fixpoint mapM {A B} (f : A -> Res B) (l : list A) : Res (list B) :=
  match l with
  | [] => Val []
  | x :: l' =>
      y <- f x ;;
      ys <- mapM f l' ;;
      Val (y :: ys)
  end.

(** [!!v]. *)
Definition truthy (v : jsval) : bool :=
  match v with
  | VUndefined | VNull => false
  | VBool b => b
  | VNum f => negb (PrimFloat.eqb f 0%float || PrimFloat.is_nan f)
  | VStr s => truthy_str s
  | VArr _ | VObj _ => true
  end.

(** [a || b]. *)
Definition or_else (a b : jsval) : jsval := if truthy a then a else b.

Fixpoint lookup (k : jsstring) (props : list (jsstring * jsval)) : option jsval :=
  match props with
  | [] => None
  | (k', v) :: props' => if str_eqb k' k then Some v else lookup k props'
  end.

Definition hasOwn (k : jsstring) (props : list (jsstring * jsval)) : bool :=
  match lookup k props with Some _ => true | None => false end.

(** [v.k] for the property names [normalizeReport] reads.  None of them
    is an index, ['length'] or a member of a built-in prototype, so on a
    boolean, number, string or array the read gives [undefined]; on [null]
    and [undefined] it throws. *)
Definition getprop (v : jsval) (k : string) : Res jsval :=
  match v with
  | VUndefined | VNull => Raise (TypeError (lit "Cannot read properties of null or undefined"))
  | VObj props =>
      match lookup (lit k) props with
      | Some x => Val x
      | None => Val VUndefined
      end
  | _ => Val VUndefined
  end.

(** [Object.values(v)]. *)
Definition objectValues (v : jsval) : Res (list jsval) :=
  match v with
  | VUndefined | VNull => Raise (TypeError (lit "Cannot convert undefined or null to object"))
  | VBool _ | VNum _ => Val []
  | VStr s => Val (List.map (fun c => VStr [c]) s)
  | VArr elems => Val elems
  | VObj props => Val (List.map snd props)
  end.

Definition isArray (v : jsval) : bool :=
  match v with VArr _ => true | _ => false end.

(** The regular-expression pass [/\b\w/g -> toUpperCase]: a word
    character is replaced when the character before it is not one. *)
Fixpoint capitalizeWords (prevWord : bool) (s : jsstring) : jsstring :=
  match s with
  | [] => []
  | c :: s' =>
      (if isWordChar c && negb prevWord then upperWordChar c else c)
        :: capitalizeWords (isWordChar c) s'
  end.

(** [titleCase] (line 3).  Only a string has a [replace] method. *)
Definition titleCase (v : jsval) : Res jsstring :=
  match v with
  | VStr s =>
      Val (capitalizeWords false
             (List.map (fun c => if N.eqb c 95 then 32%N else c) s))
  | _ => Raise (TypeError (lit "s.replace is not a function"))
  end.

Section Numbers.

(** The two number conversions of the language, left abstract:
    StringToNumber and Number::toString of ECMA-262. *)
Variable stringToNumber : jsstring -> float.
Variable numberToString : float -> jsstring.

(** [String(v)] (ToString).  An array joins the strings of its elements
    with commas, [null] and [undefined] giving the empty string.  An
    object goes through OrdinaryToPrimitive: the inherited [toString]
    gives ['[object Object]']; an own property named [toString] shadows
    it with a value that is not callable, the inherited [valueOf] returns
    the object itself, and the conversion throws. *)
Fixpoint toString (v : jsval) : Res jsstring :=
  match v with
  | VUndefined => Val (lit "undefined")
  | VNull => Val (lit "null")
  | VBool true => Val (lit "true")
  | VBool false => Val (lit "false")
  | VNum f => Val (numberToString f)
  | VStr s => Val s
  | VArr elems =>
      (fix join (l : list jsval) : Res jsstring :=
         match l with
         | [] => Val []
         | x :: rest =>
             sx <- match x with
                   | VUndefined | VNull => Val []
                   | _ => toString x
                   end ;;
             match rest with
             | [] => Val sx
             | _ :: _ =>
                 sr <- join rest ;;
                 Val (sx ++ lit "," ++ sr)
             end
         end) elems
  | VObj props =>
      if hasOwn (lit "toString") props
      then Raise (TypeError (lit "Cannot convert object to primitive value"))
      else Val (lit "[object Object]")
  end.

(** [Number(v)] (ToNumber). *)
Definition toNumber (v : jsval) : Res float :=
  match v with
  | VUndefined => Val nan
  | VNull => Val 0%float
  | VBool true => Val 1%float
  | VBool false => Val 0%float
  | VNum f => Val f
  | VStr s => Val (stringToNumber s)
  | VArr _ | VObj _ =>
      s <- toString v ;;
      Val (stringToNumber s)
  end.

(** The callback of [map] (lines 8-17). *)
Definition category (s : jsval) : Res jsval :=
  cid <- getprop s "category_id" ;;
  name <- titleCase cid ;;
  sc <- getprop s "score" ;;
  score <- toNumber (or_else sc (VNum 0%float)) ;;
  level <- getprop s "level" ;;
  weight <- getprop s "weight" ;;
  description <- getprop s "description" ;;
  evidence <- getprop s "evidence" ;;
  suggestions <- getprop s "suggestions" ;;
  Val (VObj [ (lit "id", cid);
              (lit "name", VStr name);
              (lit "score", VNum score);
              (lit "level", level);
              (lit "weight", weight);
              (lit "description", description);
              (lit "evidence", or_else evidence (VArr []));
              (lit "suggestions", or_else suggestions (VArr [])) ]).

(** [Object.values(report.scores || {})] for a truthy report. *)
Definition scoreEntries (report : jsval) : Res (list jsval) :=
  scores <- getprop report "scores" ;;
  objectValues (or_else scores (VObj [])).

Definition emptyReport : jsval :=
  VObj [ (lit "categories", VArr []);
         (lit "strengths", VArr []);
         (lit "improvements", VArr []);
         (lit "quotes", VArr []);
         (lit "overall", VObj []) ].

(** [Array.isArray(v) ? v : []]. *)
Definition arrayOrEmpty (v : jsval) : jsval :=
  if isArray v then v else VArr [].

Definition normalizeReport (report : jsval) : Res jsval :=
  if negb (truthy report) then Val emptyReport
  else
    entries <- scoreEntries report ;;
    categories <- mapM category entries ;;
    strengths <- getprop report "strengths" ;;
    improvements <- getprop report "improvements" ;;
    quote_highlights <- getprop report "quote_highlights" ;;
    overall_score <- getprop report "overall_score" ;;
    overall_level <- getprop report "overall_level" ;;
    overall_summary <- getprop report "overall_summary" ;;
    total_turns <- getprop report "total_turns" ;;
    duration_seconds <- getprop report "duration_seconds" ;;
    Val (VObj [ (lit "categories", VArr categories);
                (lit "strengths", arrayOrEmpty strengths);
                (lit "improvements", arrayOrEmpty improvements);
                (lit "quotes", arrayOrEmpty quote_highlights);
                (lit "overall",
                  VObj [ (lit "score", overall_score);
                         (lit "level", overall_level);
                         (lit "summary", overall_summary);
                         (lit "totalTurns", total_turns);
                         (lit "durationSeconds", duration_seconds) ]) ]).

(** A scores entry that carries a string [category_id]. *)
Definition hasStringCategoryId (s : jsval) : bool :=
  match getprop s "category_id" with
  | Val (VStr _) => true
  | _ => false
  end.

(** [Number] does not throw on the value. *)
Definition convertible (v : jsval) : bool :=
  match toNumber v with Val _ => true | Raise _ => false end.

(** The [score] property of a scores entry ([undefined] when the entry
    has none, or is not an object). *)
Definition scoreOf (s : jsval) : jsval :=
  match getprop s "score" with Val v => v | Raise _ => VUndefined end.

(** The entries of a report, none when there is no [scores] object. *)
Definition entriesOf (report : jsval) : list jsval :=
  if truthy report then
    match scoreEntries report with Val l => l | Raise _ => [] end
  else [].

(** A property of a result object. *)
Definition field (k : string) (v : jsval) : jsval :=
  match getprop v k with Val x => x | Raise _ => VUndefined end.

(** How the category [c] built from the entry [e] reports its score: as
    a number, which is zero when the entry's score is missing or falsy. *)
Definition scoreOk (e c : jsval) : Prop :=
  exists f, field "score" c = VNum f
            /\ (truthy (scoreOf e) = false -> f = 0%float).

End Numbers.

(** *** Concrete reports *)

(** Stand-ins for the two number conversions where their value plays no
    part. *)
Definition noParse : jsstring -> float := fun _ => nan.
Definition noPrint : float -> jsstring := fun _ => lit "NaN".

(** [{ scores: { listening: { category_id: 'active_listening', score: 3.5,
    level: 'Proficient' }, rapport: { category_id: 'rapport' } },
    strengths: ['Warm opening'], improvements: 'none' }] *)
Definition sampleReport : jsval :=
  VObj [ (lit "scores",
           VObj [ (lit "listening",
                    VObj [ (lit "category_id", VStr (lit "active_listening"));
                           (lit "score", VNum 3.5%float);
                           (lit "level", VStr (lit "Proficient")) ]);
                  (lit "rapport",
                    VObj [ (lit "category_id", VStr (lit "rapport")) ]) ]);
         (lit "strengths", VArr [VStr (lit "Warm opening")]);
         (lit "improvements", VStr (lit "none")) ].

(** [{ scores: { rapport: { category_id: 'rapport',
                            score: { toString: 1 } } } }] *)
Definition shadowedToStringReport : jsval :=
  VObj [ (lit "scores",
           VObj [ (lit "rapport",
                    VObj [ (lit "category_id", VStr (lit "rapport"));
                           (lit "score",
                             VObj [ (lit "toString", VNum 1%float) ]) ]) ]) ].

End Feedback.


(* ================================================================== *)
(** ** Concrete back ends and states                                    *)
(* ================================================================== *)

Module Scenario.
Import Interview.

(** A scripted world: every operation settles as the script says, and
    the world counts the calls made. *)
Record Script : Type := {
  on_start : Outcome (option jsstring);
  on_status : Outcome bool;
  on_end : Outcome unit;
  on_upload : Outcome (option jsstring);
  on_reply : Outcome ReplyResult;
  on_tts : Outcome TTSResult;
  on_play : Outcome unit
}.

Definition scripted (k : Script) : Env nat :=
  {| startSession := fun _ w => (on_start k, S w);
     checkSessionStatus := fun _ w => (on_status k, S w);
     endSession := fun _ w => (on_end k, S w);
     uploadAudio := fun _ w => (on_upload k, S w);
     getPersonaReply := fun _ _ _ w => (on_reply k, S w);
     generateTTS := fun _ _ w => (on_tts k, S w);
     atob := fun s => Some s;
     createObjectURL := fun _ w => (lit "blob:persona-audio", S w);
     audio_play := fun _ w => (on_play k, S w);
     makeTurnId_raw := fun w => (lit "lq1z8k-4f9a2c", S w);
     nowISOString := fun w => (lit "2024-05-01T10:00:00.000Z", S w) |}.

(** The state of a freshly mounted screen (the initial values of the
    [useState] and [useRef] calls, lines 16-34). *)
Definition mounted : St nat :=
  {| processing := false; personaTyping := false; sessionId := None;
     sessionActive := false; playingKey := []; interviewTurns := [];
     error := []; currentAudioRef := None; currentAudioUrlRef := [];
     userBlobUrlsRef := []; sessionIdRef := None;
     world := 0; apiLog := []; audioLog := [] |}.

(** The same screen once session ["s1"] is held. *)
Definition inSession : St nat :=
  set_sessionIdRef (Some (lit "s1"))
    (setSessionId (Some (lit "s1")) (setSessionActive true mounted)).

Definition failure : Exn := NetworkError (lit "Failed to fetch").

(** [persona.id]. *)
Definition p42 : jsstring := lit "p42".

(** Everything succeeds: the reply is ["Good question"], turn 1, and
    synthesis returns a URL. *)
Definition allGood : Script :=
  {| on_start := Resolved (Some (lit "s1"));
     on_status := Resolved true;
     on_end := Resolved tt;
     on_upload := Resolved (Some (lit "Hello"));
     on_reply := Resolved {| reply := Some (lit "Good question");
                             reply_turn_number := Some 1%Z |};
     on_tts := Resolved {| audio_base64 := None;
                           audio_url := Some (lit "https://cdn/a.mp3") |};
     on_play := Resolved tt |}.

(** As [allGood], but the synthesis request is rejected. *)
Definition ttsFails : Script :=
  {| on_start := on_start allGood; on_status := on_status allGood;
     on_end := on_end allGood; on_upload := on_upload allGood;
     on_reply := on_reply allGood;
     on_tts := Rejected failure;
     on_play := on_play allGood |}.

(** As [allGood], but the persona-reply request is rejected. *)
Definition replyFails : Script :=
  {| on_start := on_start allGood; on_status := on_status allGood;
     on_end := on_end allGood; on_upload := on_upload allGood;
     on_reply := Rejected failure;
     on_tts := on_tts allGood;
     on_play := on_play allGood |}.

(** As [allGood], but transcription returns blanks. *)
Definition noSpeech : Script :=
  {| on_start := on_start allGood; on_status := on_status allGood;
     on_end := on_end allGood;
     on_upload := Resolved (Some (lit "   "));
     on_reply := on_reply allGood; on_tts := on_tts allGood;
     on_play := on_play allGood |}.

(** As [allGood], but the remote end-session call is rejected. *)
Definition endFails : Script :=
  {| on_start := on_start allGood; on_status := on_status allGood;
     on_end := Rejected failure;
     on_upload := on_upload allGood;
     on_reply := on_reply allGood; on_tts := on_tts allGood;
     on_play := on_play allGood |}.

(** As [allGood], but the browser refuses to play. *)
Definition playBlocked : Script :=
  {| on_start := on_start allGood; on_status := on_status allGood;
     on_end := on_end allGood; on_upload := on_upload allGood;
     on_reply := on_reply allGood; on_tts := on_tts allGood;
     on_play := Rejected (DOMException (lit "NotAllowedError")) |}.

Definition recording : Blob :=
  {| blob_bytes := [82; 73; 70; 70]%N; blob_type := lit "audio/wav" |}.

(** A screen on which ["a.mp3"] is loaded and playing for bubble
    ["p-7"], five units into the clip. *)
Definition playingP7 : St nat :=
  setPlayingKey (lit "p-7")
    (set_currentAudioUrlRef (lit "a.mp3")
       (set_currentAudioRef
          (Some {| src := lit "a.mp3"; currentTime := 5%N; paused := false |})
          inSession)).

(** The final state of a run. *)
Definition after {A} (m : M nat A) (s : St nat) : St nat := snd (m s).

(** One run of the pipeline on [recording] from a screen in session. *)
Definition pipelineRun (k : Script) : Completion unit * St nat :=
  processAudio (scripted k) p42 recording (lit "blob:user-1") inSession.

(** A screen on which bubble ["p-7"] was played to its end, then asked
    to play again. *)
Definition playedP7 : St nat :=
  after (playAudio (scripted allGood) (lit "a.mp3") (lit "p-7")) inSession.
Definition endedP7 : St nat := after (@onended nat) playedP7.
Definition replayedP7 : St nat :=
  after (playAudio (scripted allGood) (lit "a.mp3") (lit "p-7")) endedP7.

(** As [allGood], but the start-session request is rejected. *)
Definition startFails : Script :=
  {| on_start := Rejected failure; on_status := on_status allGood;
     on_end := on_end allGood; on_upload := on_upload allGood;
     on_reply := on_reply allGood; on_tts := on_tts allGood;
     on_play := on_play allGood |}.

(** The session held has expired on the server; a new one, ["s2"], can
    be started. *)
Definition sessionExpired : Script :=
  {| on_start := Resolved (Some (lit "s2")); on_status := Resolved false;
     on_end := on_end allGood; on_upload := on_upload allGood;
     on_reply := on_reply allGood; on_tts := on_tts allGood;
     on_play := on_play allGood |}.

(** The turns after one complete run. *)
Definition oneTurn : list Turn := interviewTurns (snd (pipelineRun allGood)).

(** Two turns, the second still waiting for its reply. *)
Definition twoTurns : list Turn :=
  oneTurn
  ++ [ {| id := lit "lq1z9m-77c0de";
          student_question := lit "What motivates you?";
          student_audio_url := Some (lit "blob:user-2");
          persona_response := [];
          persona_audio_url := None;
          timestamp := lit "2024-05-01T10:01:00.000Z";
          turn_number := None |} ].

(** The refs while a turn is processing. *)
Definition busyRefs : PushToTalk.Refs :=
  {| PushToTalk.spaceIsDownRef := false; PushToTalk.processingRef := true;
     PushToTalk.sessionActiveRef := true; PushToTalk.isRecordingRef := false |}.

(** The key stays down while processing ends. *)
Definition heldThroughProcessing : list PushToTalk.Input :=
  [ PushToTalk.KeyDown PushToTalk.spaceEvent;
    PushToTalk.Mirror false false true;
    PushToTalk.KeyDown PushToTalk.spaceEvent ].

End Scenario.

(* ================================================================== *)
(** ** The transcript bubbles (InterviewScreen.jsx, lines 310-332)      *)
(* ================================================================== *)

Module Transcript.
Import Interview.

(** One chat bubble. *)
Record Message : Type := {
  key : jsstring;
  role : jsstring;
  name : jsstring;
  text : jsstring;
  audioUrl : option jsstring
}.

Fixpoint uintCodes (d : Decimal.uint) : jsstring :=
  match d with
  | Decimal.Nil => []
  | Decimal.D0 d' => 48%N :: uintCodes d'
  | Decimal.D1 d' => 49%N :: uintCodes d'
  | Decimal.D2 d' => 50%N :: uintCodes d'
  | Decimal.D3 d' => 51%N :: uintCodes d'
  | Decimal.D4 d' => 52%N :: uintCodes d'
  | Decimal.D5 d' => 53%N :: uintCodes d'
  | Decimal.D6 d' => 54%N :: uintCodes d'
  | Decimal.D7 d' => 55%N :: uintCodes d'
  | Decimal.D8 d' => 56%N :: uintCodes d'
  | Decimal.D9 d' => 57%N :: uintCodes d'
  end.

(** [String(n)] for an array index plus one: its decimal digits. *)
Definition stringOfNat (n : nat) : jsstring := uintCodes (Nat.to_uint n).

(** [t.id || String(idx + 1)]. *)
Definition idKey (t : Turn) (idx : nat) : jsstring :=
  if truthy_str (id t) then id t else stringOfNat (idx + 1).

Definition studentMessage (t : Turn) (idx : nat) : Message :=
  {| key := lit "u-" ++ idKey t idx;
     role := lit "student";
     name := lit "You";
     text := student_question t;
     audioUrl := student_audio_url t |}.

Definition personaMessage (personaName : jsstring) (t : Turn) (idx : nat) : Message :=
  {| key := lit "p-" ++ idKey t idx;
     role := lit "persona";
     name := personaName;
     text := persona_response t;
     audioUrl := persona_audio_url t |}.

(** The body of the [forEach], from index [idx] on. *)
Fixpoint messagesFrom (personaName : jsstring) (idx : nat) (turns : list Turn)
  : list Message :=
  match turns with
  | [] => []
  | t :: rest =>
      studentMessage t idx
        :: (if truthy_str (persona_response t)
            then [personaMessage personaName t idx]
            else [])
        ++ messagesFrom personaName (S idx) rest
  end.

Definition messages (personaName : jsstring) (interviewTurns : list Turn)
  : list Message :=
  messagesFrom personaName 0 interviewTurns.

Definition isStudent (m : Message) : bool := str_eqb (role m) (lit "student").

(** The turns that have a persona reply to show. *)
Definition answered (turns : list Turn) : list Turn :=
  List.filter (fun t => truthy_str (persona_response t)) turns.

End Transcript.

(* ================================================================== *)
(** ** The turns sent for scoring (App.jsx, [endInterview])             *)
(* ================================================================== *)

Module AppShell.
Import Interview.

(** An element of the array given to [generateFeedback]. *)
Record ScoredTurn : Type := {
  speaker : jsstring;
  text : jsstring;
  turn_number : Z
}.

(** [normalizeTurns], with the counter [tn] as it stands when the loop
    reaches [pairs].  [p.student_question?.trim()] is a string here, the
    fields of a [Turn] being strings. *)
Fixpoint normalizeTurnsFrom (tn : Z) (pairs : list Turn) : list ScoredTurn :=
  match pairs with
  | [] => []
  | p :: rest =>
      let q := trim (student_question p) in
      let r := trim (persona_response p) in
      let tn1 := if truthy_str q then (tn + 1)%Z else tn in
      let tn2 := if truthy_str r then (tn1 + 1)%Z else tn1 in
      (if truthy_str q
       then [{| speaker := lit "STUDENT"; text := q; turn_number := tn |}]
       else [])
      ++ (if truthy_str r
          then [{| speaker := lit "PERSONA"; text := r; turn_number := tn1 |}]
          else [])
      ++ normalizeTurnsFrom tn2 rest
  end.

Definition normalizeTurns (pairs : list Turn) : list ScoredTurn :=
  normalizeTurnsFrom 1 pairs.

(** A turn whose student text is what the pipeline stores: trimmed and
    not empty. *)
Definition hasQuestion (t : Turn) : Prop :=
  truthy_str (student_question t) = true
  /\ trim (student_question t) = student_question t.


(** [1, 2, ..., n]. *)
Definition countingFromOne (n : nat) : list Z :=
  List.map (fun k => Z.of_nat k) (List.seq 1 n).

End AppShell.

(* ================================================================== *)
(** ** Persona selection (components/PersonaSelection.jsx)              *)
(* ================================================================== *)

Module PersonaSelection.

(** A persona record, as far as the screen reads it. *)
Record Persona : Type := {
  pid : jsstring;
  pname : jsstring;
  role : jsstring;
  location : jsstring;
  gender : jsstring
}.

Record Filters : Type := {
  f_profession : jsstring;
  f_location : jsstring;
  f_gender : jsstring
}.

Definition PAGE_SIZE : Z := 9.

(** The predicate of [personas.filter] (lines 26-34). *)
Definition matches (filters : Filters) (p : Persona) : bool :=
  (negb (truthy_str (f_profession filters)) || str_eqb (role p) (f_profession filters))
  && (negb (truthy_str (f_location filters)) || str_eqb (location p) (f_location filters))
  && (negb (truthy_str (f_gender filters)) || str_eqb (gender p) (f_gender filters)).

Definition filtered (personas : list Persona) (filters : Filters) : list Persona :=
  List.filter (matches filters) personas.

(** [{ profession: '', location: '', gender: '' }]. *)
Definition noFilters : Filters :=
  {| f_profession := []; f_location := []; f_gender := [] |}.

(** [arr.slice(start, end)], negative indices counting from the end. *)
Definition slice {A} (l : list A) (start final : Z) : list A :=
  let len := Z.of_nat (List.length l) in
  let k := if (start <? 0)%Z then Z.max (len + start) 0 else Z.min start len in
  let e := if (final <? 0)%Z then Z.max (len + final) 0 else Z.min final len in
  List.firstn (Z.to_nat (Z.max (e - k) 0)) (List.skipn (Z.to_nat k) l).

(** [Math.max(1, Math.ceil(n / PAGE_SIZE))] for an array length [n]: the
    quotient of two integers below 2^32 is rounded to a double that is an
    integer only when the quotient is, so the ceiling is the integer one. *)
Definition totalPages (n : nat) : Z :=
  Z.max 1 ((Z.of_nat n + PAGE_SIZE - 1) / PAGE_SIZE).

(** [Math.min(page, totalPages)]. *)
Definition pageSafe (page : Z) (n : nat) : Z := Z.min page (totalPages n).

(** [filtered.slice(sliceStart, sliceStart + PAGE_SIZE)] (lines 37-40). *)
Definition current {A} (items : list A) (page : Z) : list A :=
  let sliceStart := ((pageSafe page (List.length items) - 1) * PAGE_SIZE)%Z in
  slice items sliceStart (sliceStart + PAGE_SIZE).

(** The pages [1 .. k], one after the other. *)
Fixpoint pagesUpTo {A} (items : list A) (k : nat) : list A :=
  match k with
  | 0 => []
  | S k' => pagesUpTo items k' ++ current items (Z.of_nat (S k'))
  end.

(** [a <= b] for strings, as the default comparison of [sort] orders
    them: by code units, a proper prefix first. *)
Fixpoint str_leb (a b : jsstring) : bool :=
  match a, b with
  | [], _ => true
  | _ :: _, [] => false
  | x :: a', y :: b' =>
      if N.ltb x y then true
      else if N.eqb x y then str_leb a' b' else false
  end.

(** [Array.from(new Set(l))]: the first occurrence of each value, in
    order; [seen] holds the values met so far. *)
Fixpoint dedupe (seen l : list jsstring) : list jsstring :=
  match l with
  | [] => []
  | x :: rest =>
      if List.existsb (str_eqb x) seen then dedupe seen rest
      else x :: dedupe (x :: seen) rest
  end.

Fixpoint insertSorted (x : jsstring) (l : list jsstring) : list jsstring :=
  match l with
  | [] => [x]
  | h :: t => if str_leb x h then x :: h :: t else h :: insertSorted x t
  end.

(** [l.sort()] on distinct strings.  The language leaves the algorithm
    open; distinct strings have one ascending arrangement only, which
    insertion computes. *)
Fixpoint sortStrings (l : list jsstring) : list jsstring :=
  match l with
  | [] => []
  | x :: rest => insertSorted x (sortStrings rest)
  end.

(** [Array.from(new Set(personas.map(proj).filter(Boolean))).sort()]
    (lines 12-23), for [proj] one of [role], [location], [gender]. *)
Definition uniqueOptions (proj : Persona -> jsstring) (personas : list Persona)
  : list jsstring :=
  sortStrings (dedupe [] (List.filter truthy_str (List.map proj personas))).

Definition uniqueProfessions := uniqueOptions role.
Definition uniqueLocations := uniqueOptions location.
Definition uniqueGenders := uniqueOptions gender.

(** Each element is followed by one that is not smaller. *)
Fixpoint ascending (l : list jsstring) : bool :=
  match l with
  | [] => true
  | a :: t =>
      match t with
      | [] => true
      | b :: _ => str_leb a b && ascending t
      end
  end.

(** A small roster for examples: two nurses and a teacher. *)
Definition roster : list Persona :=
  [ {| pid := lit "p1"; pname := lit "Asha"; role := lit "Nurse";
       location := lit "Chennai"; gender := lit "Female" |};
    {| pid := lit "p2"; pname := lit "Ravi"; role := lit "Teacher";
       location := lit "Madurai"; gender := lit "Male" |};
    {| pid := lit "p3"; pname := lit "Meena"; role := lit "Nurse";
       location := lit "Madurai"; gender := lit "Female" |} ].

End PersonaSelection.
(* ================================================================== *)
(** * Properties                                                        *)
(* ================================================================== *)

Unset Implicit Arguments.

(** ** Strings *)

Module JSFacts.

Lemma str_eqb_refl (a : jsstring) : str_eqb a a = true.
Proof.
  induction a as [|x a IH]; simpl; [reflexivity|].
  now rewrite N.eqb_refl, IH.
Qed.

Lemma str_eqb_eq (a b : jsstring) : str_eqb a b = true <-> a = b.
Proof.
  split.
  - revert b; induction a as [|x a IH]; intros [|y b]; simpl; try discriminate; auto.
    intros H. apply andb_true_iff in H as [Hx Hab].
    apply N.eqb_eq in Hx. f_equal; auto.
  - intros ->. apply str_eqb_refl.
Qed.

Lemma str_eqb_neq (a b : jsstring) : str_eqb a b = false <-> a <> b.
Proof.
  rewrite <- str_eqb_eq. destruct (str_eqb a b); split; congruence.
Qed.

Lemma trimStart_nil_iff (s : jsstring) :
  trimStart s = [] <-> whitespace_only s = true.
Proof.
  induction s as [|c s IH]; simpl.
  - tauto.
  - destruct (isWhiteSpace c); simpl; [exact IH|].
    split; discriminate.
Qed.

(** [trim] gives the empty string exactly on the strings made of white
    space only. *)
Lemma trim_nil_iff (s : jsstring) :
  trim s = [] <-> whitespace_only s = true.
Proof.
  unfold trim, trimEnd. rewrite <- trimStart_nil_iff. split.
  - intros H. apply (f_equal (@rev N)) in H. rewrite rev_involutive in H. simpl in H.
    destruct (trimStart s) as [|c t] eqn:E; [reflexivity|].
    exfalso.
    assert (Hlast : forall l, trimStart (l ++ [c]) = [] -> isWhiteSpace c = true).
    { induction l as [|d l IHl]; simpl.
      - destruct (isWhiteSpace c); [reflexivity | discriminate].
      - destruct (isWhiteSpace d); [exact IHl | discriminate]. }
    assert (Hhead : forall u, trimStart u = c :: t -> isWhiteSpace c = false).
    { induction u as [|d u IHu]; simpl; [discriminate|].
      destruct (isWhiteSpace d) eqn:Ed; [exact IHu|].
      intros Hd. injection Hd as -> _. exact Ed. }
    specialize (Hhead s E).
    assert (Hc : isWhiteSpace c = true) by (apply (Hlast (rev t)); exact H).
    congruence.
  - intros ->. reflexivity.
Qed.

End JSFacts.

(** ** Push-to-talk *)

Module PushToTalkFacts.
Import PushToTalk.

Lemma run_cons (i : Input) (ins : list Input) (r : Refs) :
  run (i :: ins) r =
  (fst (run ins (fst (step i r))), snd (step i r) :: snd (run ins (fst (step i r)))).
Proof.
  simpl. destruct (step i r) as [r1 o]. simpl.
  destruct (run ins r1) as [r2 os]. reflexivity.
Qed.

Lemma output_at_0 i ins r : output_at (i :: ins) r 0 = snd (step i r).
Proof. unfold output_at. rewrite run_cons. reflexivity. Qed.

Lemma output_at_S i ins r n :
  output_at (i :: ins) r (S n) = output_at ins (fst (step i r)) n.
Proof. unfold output_at. rewrite run_cons. reflexivity. Qed.

(** A handler that emits a transition was a key-down of the push-to-talk
    key that found the key up, and it leaves the key marked down. *)
Lemma step_emits (i : Input) (r : Refs) :
  snd (step i r) <> None ->
  isSpaceKeyDown i = true /\ spaceIsDownRef r = false
  /\ spaceIsDownRef (fst (step i r)) = true.
Proof.
  destruct i as [e|e|a b c]; simpl.
  - unfold onKeyDown.
    destruct (isSpace e); simpl; [|congruence].
    destruct (targetIsEditable (target e)); simpl; [congruence|].
    destruct (spaceIsDownRef r) eqn:Hd; simpl; [congruence|].
    destruct (processingRef r || negb (sessionActiveRef r)); simpl; auto.
  - unfold onKeyUp. destruct (negb (isSpace e)); simpl; congruence.
  - congruence.
Qed.

(** While the key is marked down, nothing is emitted, and only a key-up
    of the push-to-talk key clears the mark. *)
Lemma step_while_down (i : Input) (r : Refs) :
  spaceIsDownRef r = true ->
  snd (step i r) = None
  /\ (isSpaceKeyUp i = false -> spaceIsDownRef (fst (step i r)) = true).
Proof.
  intros Hd. destruct i as [e|e|a b c]; simpl.
  - unfold onKeyDown. rewrite Hd.
    destruct (negb (isSpace e) || targetIsEditable (target e)); simpl; auto.
  - unfold onKeyUp. destruct (isSpace e); simpl; split; auto; discriminate.
  - auto.
Qed.

Lemma emission_is_keydown (ins : list Input) :
  forall r n, output_at ins r n <> None ->
  exists d, nth_error ins n = Some d /\ isSpaceKeyDown d = true.
Proof.
  induction ins as [|i ins IH]; intros r n H.
  - unfold output_at in H. simpl in H. destruct n; congruence.
  - destruct n as [|n].
    + rewrite output_at_0 in H. exists i. split; [reflexivity|].
      now apply step_emits in H.
    + rewrite output_at_S in H. simpl. eauto.
Qed.

Lemma emission_after_down (ins : list Input) :
  forall r n, spaceIsDownRef r = true -> output_at ins r n <> None ->
  exists k u, k < n /\ nth_error ins k = Some u /\ isSpaceKeyUp u = true.
Proof.
  induction ins as [|i ins IH]; intros r n Hd H.
  - unfold output_at in H. simpl in H. destruct n; congruence.
  - destruct (step_while_down i r Hd) as [Hnone Hkeep].
    destruct n as [|n].
    + rewrite output_at_0 in H. congruence.
    + rewrite output_at_S in H.
      destruct (isSpaceKeyUp i) eqn:Hu.
      * exists 0, i. repeat split; [lia | assumption].
      * destruct (IH _ n (Hkeep eq_refl) H) as (k & u & Hk & Hn & Hup).
        exists (S k), u. repeat split; [lia | assumption | assumption].
Qed.

(** C8. Whatever the inputs and the initial refs, between two inputs that
    each emit a start-recording or stop-recording transition there is a
    key-up of the push-to-talk key, and the second emission is itself a
    key-down of that key: while the key stays held after an emission, key
    repeats emit nothing. *)
Theorem ptt_no_retrigger_while_held :
  forall (ins : list Input) (r : Refs) (a b : nat),
    a < b ->
    output_at ins r a <> None ->
    output_at ins r b <> None ->
    (exists k u, a < k < b /\ nth_error ins k = Some u /\ isSpaceKeyUp u = true)
    /\ (exists d, nth_error ins b = Some d /\ isSpaceKeyDown d = true).
Proof.
  intros ins r a b Hab Ha Hb. split; [|eapply emission_is_keydown; eauto].
  revert r a b Hab Ha Hb.
  induction ins as [|i ins IH]; intros r a b Hab Ha Hb.
  - unfold output_at in Ha. simpl in Ha. destruct a; congruence.
  - destruct b as [|b]; [lia|].
    rewrite output_at_S in Hb.
    destruct a as [|a].
    + rewrite output_at_0 in Ha.
      apply step_emits in Ha as (_ & _ & Hdown).
      destruct (emission_after_down _ _ b Hdown Hb) as (k & u & Hk & Hn & Hu).
      exists (S k), u. repeat split; [lia | lia | assumption | assumption].
    + rewrite output_at_S in Ha.
      destruct (IH _ a b ltac:(lia) Ha Hb) as (k & u & Hk & Hn & Hu).
      exists (S k), u. repeat split; [lia | lia | assumption | assumption].
Qed.

Example holdReleasePress_outputs :
  snd (run holdReleasePress readyRefs)
  = [Some StartRecording; None; None; None; None; Some StopRecording].
Proof. reflexivity. Qed.

Lemma ptt_no_retrigger_while_held_witness :
  (exists k u, 0 < k < 5 /\ nth_error holdReleasePress k = Some u
               /\ isSpaceKeyUp u = true)
  /\ (exists d, nth_error holdReleasePress 5 = Some d /\ isSpaceKeyDown d = true).
Proof.
  apply (@ptt_no_retrigger_while_held holdReleasePress readyRefs 0 5).
  - lia.
  - vm_compute. discriminate.
  - vm_compute. discriminate.
Defined.

End PushToTalkFacts.

(** ** Session helpers *)

Module SessionFacts.
Import Interview.

Ltac unfold_m :=
  unfold bind, try_catch, try_finally, upd, ret, read, throw, await, console_log in *.

Section WithWorld.

Variable W : Type.
Variable env : Env W.
Variable personaId : jsstring.

(** [initializeSession] never throws; it touches the session fields, the
    error and the world only, and logs one start-session call. *)
Lemma initializeSession_spec (s : St W) :
  exists r s1 o,
    initializeSession env personaId s = (Normal r, s1)
    /\ interviewTurns s1 = interviewTurns s
    /\ apiLog s1 = apiLog s ++ [EvStartSession personaId o]
    /\ audioLog s1 = audioLog s.
Proof.
  unfold initializeSession, call_startSession. unfold_m.
  destruct (startSession env personaId (world s)) as [o w] eqn:E.
  destruct o as [r|e]; simpl.
  - eexists _, _, _. repeat split; reflexivity.
  - eexists _, _, _. repeat split; reflexivity.
Qed.

(** [ensureSession] never throws and makes session calls only. *)
Lemma ensureSession_spec (s : St W) :
  exists r s1 delta,
    ensureSession env personaId s = (Normal r, s1)
    /\ interviewTurns s1 = interviewTurns s
    /\ apiLog s1 = apiLog s ++ delta
    /\ forallb isSessionEvent delta = true
    /\ audioLog s1 = audioLog s.
Proof.
  unfold ensureSession. unfold_m. simpl.
  destruct (negb (truthy_ostr (sessionIdRef s))).
  - destruct (initializeSession_spec s) as (r & s1 & o & E & Ht & Hl & Ha).
    exists r, s1, [EvStartSession personaId o]. auto.
  - unfold call_checkSessionStatus. unfold_m.
    destruct (checkSessionStatus env (or_empty (sessionIdRef s)) (world s)) as [o w].
    destruct o as [[|]|e]; simpl.
    + eexists _, _, [_]. simpl. repeat split; try reflexivity.
    + match goal with |- context [initializeSession env personaId ?x] =>
        destruct (initializeSession_spec x) as (r & s1 & o & E & Ht & Hl & Ha) end.
      rewrite E. simpl.
      exists r, s1, [EvCheckSessionStatus (or_empty (sessionIdRef s)) (Resolved false);
                     EvStartSession personaId o].
      split; [reflexivity|]. split; [rewrite Ht; reflexivity|].
      split; [rewrite Hl; simpl; rewrite <- app_assoc; reflexivity|].
      split; [reflexivity|]. rewrite Ha. reflexivity.
    + match goal with |- context [initializeSession env personaId ?x] =>
        destruct (initializeSession_spec x) as (r & s1 & o & E & Ht & Hl & Ha) end.
      rewrite E. simpl.
      exists r, s1, [EvCheckSessionStatus (or_empty (sessionIdRef s)) (Rejected e);
                     EvStartSession personaId o].
      split; [reflexivity|]. split; [rewrite Ht; reflexivity|].
      split; [rewrite Hl; simpl; rewrite <- app_assoc; reflexivity|].
      split; [reflexivity|]. rewrite Ha. reflexivity.
Qed.

(** C4. With a session id held and the status check reporting the session
    active at both calls, two consecutive calls of [ensureSession] both
    return the held id and call [startSession] zero times: the only
    calls made are the two status checks. *)
Theorem ensureSession_twice_no_start :
  forall (s s1 s2 : St W) (sid : jsstring) (c1 c2 : Completion (option jsstring)),
    sessionIdRef s = Some sid ->
    truthy_str sid = true ->
    ensureSession env personaId s = (c1, s1) ->
    ensureSession env personaId s1 = (c2, s2) ->
    fst (checkSessionStatus env sid (world s)) = Resolved true ->
    fst (checkSessionStatus env sid (world s1)) = Resolved true ->
    c1 = Normal (Some sid) /\ c2 = Normal (Some sid)
    /\ sessionIdRef s2 = Some sid
    /\ exists delta,
        apiLog s2 = apiLog s ++ delta
        /\ delta = [EvCheckSessionStatus sid (Resolved true);
                    EvCheckSessionStatus sid (Resolved true)]
        /\ List.length (filter isStartSession delta) = 0.
Proof.
  intros s s1 s2 sid c1 c2 Hid Ht E1 E2 A1 A2.
  assert (Hor : or_empty (Some sid) = sid).
  { unfold or_empty. now rewrite Ht. }
  unfold ensureSession, call_checkSessionStatus in E1. unfold_m.
  rewrite Hid in E1. simpl in E1. rewrite Ht in E1. simpl in E1.
  destruct (checkSessionStatus env sid (world s)) as [o w] eqn:Ec.
  simpl in A1. subst o. simpl in E1.
  injection E1 as <- <-.
  unfold ensureSession, call_checkSessionStatus in E2. unfold_m.
  simpl in E2. rewrite Hid in E2. simpl in E2. rewrite Ht in E2. simpl in E2.
  simpl in A2.
  destruct (checkSessionStatus env sid w) as [o' w'] eqn:Ec'.
  simpl in A2. subst o'. simpl in E2.
  injection E2 as <- <-. simpl.
  split; [reflexivity|]. split; [reflexivity|]. split; [assumption|].
  eexists. split; [|split; [reflexivity|reflexivity]].
  rewrite <- app_assoc. reflexivity.
Qed.

(** C5. When a session id is held, [endSessionCleanup] completes
    normally and leaves the session id null (state and ref) and the
    session inactive, whatever the settlement [o] of the remote
    end-session call, resolved or rejected. *)
Theorem endSessionCleanup_clears_local_state :
  forall (s : St W) (sid : jsstring),
    sessionIdRef s = Some sid ->
    truthy_str sid = true ->
    exists (s' : St W) (o : Outcome unit),
      endSessionCleanup env s = (Normal tt, s')
      /\ fst (endSession env sid (world s)) = o
      /\ apiLog s' = apiLog s ++ [EvEndSession sid o]
      /\ sessionId s' = None
      /\ sessionIdRef s' = None
      /\ sessionActive s' = false.
Proof.
  intros s sid Hid Ht.
  unfold endSessionCleanup, call_endSession. unfold_m.
  rewrite Hid. simpl. rewrite Ht. simpl.
  destruct (endSession env sid (world s)) as [o w].
  destruct o as [[]|e]; simpl; eexists _, _; repeat split; reflexivity.
Qed.

End WithWorld.

Import Scenario.

Lemma ensureSession_twice_no_start_witness :
  let e := scripted allGood in
  let r1 := ensureSession e p42 inSession in
  let r2 := ensureSession e p42 (snd r1) in
  fst r1 = Normal (Some (lit "s1")) /\ fst r2 = Normal (Some (lit "s1"))
  /\ sessionIdRef (snd r2) = Some (lit "s1")
  /\ exists delta,
      apiLog (snd r2) = apiLog inSession ++ delta
      /\ delta = [EvCheckSessionStatus (lit "s1") (Resolved true);
                  EvCheckSessionStatus (lit "s1") (Resolved true)]
      /\ List.length (filter isStartSession delta) = 0.
Proof.
  intros e r1 r2.
  apply (ensureSession_twice_no_start nat e p42 inSession (snd r1) (snd r2)
           (lit "s1") (fst r1) (fst r2)); vm_compute; reflexivity.
Defined.

Lemma endSessionCleanup_clears_local_state_witness :
  exists (s' : St nat) (o : Outcome unit),
    endSessionCleanup (scripted endFails) inSession = (Normal tt, s')
    /\ fst (endSession (scripted endFails) (lit "s1") (world inSession)) = o
    /\ apiLog s' = apiLog inSession ++ [EvEndSession (lit "s1") o]
    /\ sessionId s' = None
    /\ sessionIdRef s' = None
    /\ sessionActive s' = false.
Proof.
  apply (endSessionCleanup_clears_local_state nat (scripted endFails) inSession (lit "s1"));
    vm_compute; reflexivity.
Defined.

(** The remote call of [endFails] is indeed rejected, and the cleanup
    still completes normally. *)
Example endSessionCleanup_on_rejection :
  fst (endSessionCleanup (scripted endFails) inSession) = Normal tt
  /\ apiLog (after (endSessionCleanup (scripted endFails)) inSession)
     = [EvEndSession (lit "s1") (Rejected failure)].
Proof. split; reflexivity. Qed.

End SessionFacts.

(** ** Playback *)

Module PlaybackFacts.
Import Interview.
Import SessionFacts.

Lemma or_empty_some (k : jsstring) : or_empty (Some k) = k.
Proof. destruct k; reflexivity. Qed.

Section WithWorld.

Variable W : Type.
Variable env : Env W.

Lemma stopCurrentAudio_spec (s s1 : St W) (c : Completion unit) :
  stopCurrentAudio s = (c, s1) ->
  c = Normal tt
  /\ playingKey s1 = [] /\ currentAudioUrlRef s1 = []
  /\ audioLog s1 = audioLog s ++ stopOps s
  /\ currentAudioRef s1
     = match currentAudioRef s with
       | Some a => Some {| src := src a; currentTime := 0%N; paused := true |}
       | None => None
       end
  /\ interviewTurns s1 = interviewTurns s /\ apiLog s1 = apiLog s
  /\ error s1 = error s /\ world s1 = world s
  /\ processing s1 = processing s /\ personaTyping s1 = personaTyping s.
Proof.
  unfold stopCurrentAudio, pause_current, seekZero_current, hasCurrentAudio, stopOps.
  unfold_m. simpl.
  destruct (currentAudioRef s) as [a|] eqn:E; simpl; intros H;
    repeat (rewrite E in H; simpl in H);
    injection H as <- <-; simpl; rewrite ?E, ?app_nil_r, <- ?app_assoc;
    repeat split; reflexivity.
Qed.

Ltac run_in H :=
  repeat (simpl in H;
          match type of H with
          | context [match ?x with _ => _ end] =>
              match goal with
              | E : x = _ |- _ => rewrite E in H
              end
          end);
  simpl in H.

(** [playAudio] never throws and touches the playback fields, the
    world and the audio log only. *)
Lemma playAudio_frame (s s1 : St W) (url key : jsstring) (c : Completion unit) :
  playAudio env url key s = (c, s1) ->
  c = Normal tt
  /\ interviewTurns s1 = interviewTurns s /\ apiLog s1 = apiLog s
  /\ error s1 = error s /\ processing s1 = processing s
  /\ personaTyping s1 = personaTyping s.
Proof.
  unfold playAudio. unfold try_catch, console_log, ret.
  destruct (truthy_str url); simpl.
  2: { intros H. injection H as <- <-. repeat split; reflexivity. }
  unfold bind at 1. unfold read at 1. unfold bind at 1. unfold read at 1.
  destruct (hasCurrentAudio s && str_eqb (currentAudioUrlRef s) url) eqn:Hc.
  - unfold seekZero_current, play_current. unfold_m. simpl.
    apply andb_true_iff in Hc as [Hh _]. unfold hasCurrentAudio in Hh.
    destruct (currentAudioRef s) as [a|] eqn:E; [|discriminate]. simpl.
    destruct (audio_play env _ (world s)) as [o w] eqn:Ep.
    destruct o as [[]|e]; simpl; intros H; injection H as <- <-;
      repeat split; reflexivity.
  - unfold bind at 1.
    destruct (stopCurrentAudio s) as [c0 s0] eqn:Es.
    apply stopCurrentAudio_spec in Es
      as (-> & _ & _ & _ & Hcur & Ht & Hl & He & Hw & Hp & Hpt).
    unfold play_current. unfold_m. simpl.
    destruct (audio_play env (newAudio url) (world s0)) as [o w] eqn:Ep.
    destruct o as [[]|e]; simpl; intros H; injection H as <- <-; simpl;
      repeat split; try assumption; try reflexivity.
Qed.

(** What [playAudio] does with a non-empty reference, by the branch
    taken. *)
Lemma playAudio_nonempty_spec :
  forall (s s' : St W) (url key : jsstring) (c : Completion unit),
    truthy_str url = true ->
    playAudio env url key s = (c, s') ->
    c = Normal tt
    /\ (hasCurrentAudio s && str_eqb (currentAudioUrlRef s) url = true ->
        exists a ok,
          currentAudioRef s = Some a
          /\ ok = isResolved (fst (audio_play env
                     {| src := src a; currentTime := 0%N; paused := paused a |}
                     (world s)))
          /\ audioLog s' = audioLog s ++ [OpSeekZero (src a); OpPlay (src a) ok]
          /\ currentAudioRef s'
             = Some {| src := src a; currentTime := 0%N;
                       paused := if ok then false else paused a |}
          /\ currentAudioUrlRef s' = url
          /\ playingKey s' = if ok then key else playingKey s)
    /\ (hasCurrentAudio s && str_eqb (currentAudioUrlRef s) url = false ->
        exists ok,
          ok = isResolved (fst (audio_play env (newAudio url) (world s)))
          /\ audioLog s' = audioLog s ++ stopOps s ++ [OpNew url; OpPlay url ok]
          /\ currentAudioRef s'
             = Some {| src := url; currentTime := 0%N; paused := negb ok |}
          /\ currentAudioUrlRef s' = url
          /\ playingKey s' = key).
Proof.
  intros s s' url key c Hu.
  unfold playAudio. unfold try_catch, console_log, ret.
  rewrite Hu. cbn [negb]. cbv iota.
  unfold bind at 1. unfold read at 1. unfold bind at 1. unfold read at 1.
  rewrite !or_empty_some.
  destruct (hasCurrentAudio s && str_eqb (currentAudioUrlRef s) url) eqn:Hc.
  - unfold seekZero_current, play_current. unfold_m. simpl.
    apply andb_true_iff in Hc as [Hh Heq]. unfold hasCurrentAudio in Hh.
    apply JSFacts.str_eqb_eq in Heq.
    destruct (currentAudioRef s) as [a|] eqn:E; [|discriminate]. simpl.
    destruct (audio_play env _ (world s)) as [o w] eqn:Ep.
    destruct o as [[]|e]; simpl; intros H; injection H as <- <-;
      (split; [reflexivity|]); (split; [|discriminate]); intros _;
      eexists a, _; simpl; repeat split; try reflexivity; try assumption.
    all: rewrite Ep; simpl; rewrite <- ?app_assoc; reflexivity.
  - unfold bind at 1.
    destruct (stopCurrentAudio s) as [c0 s0] eqn:Es.
    apply stopCurrentAudio_spec in Es
      as (-> & _ & _ & Hlog & Hcur & Ht & Hl & He & Hw & Hp & Hpt).
    unfold play_current. unfold_m. simpl.
    rewrite <- Hw.
    destruct (audio_play env (newAudio url) (world s0)) as [o w] eqn:Ep.
    destruct o as [[]|e]; simpl; intros H; injection H as <- <-; simpl;
      (split; [reflexivity|]); (split; [discriminate|]); intros _;
      eexists; repeat split; try reflexivity.
    all: rewrite ?Ep; simpl; rewrite ?Hlog, <- ?app_assoc; try reflexivity.
Qed.

(** C6 (amended). Every call of [playAudio] completes normally.  With
    an empty reference it changes nothing.  With a non-empty one: if an
    element is held and the reference is the loaded one, the element's
    position is set to zero and it is asked to play, no element being
    created, and the now-playing key becomes [key] when the play request
    is granted and stays as it was when it is refused; otherwise the
    element held, if any, is first paused and rewound, then a new element
    is created for the reference and asked to play, and the now-playing
    key becomes [key]. *)
Theorem playAudio_restart_or_load :
  forall (s s' : St W) (url key : jsstring) (c : Completion unit),
    playAudio env url key s = (c, s') ->
    c = Normal tt
    /\ (truthy_str url = false -> s' = s)
    /\ (truthy_str url = true ->
        hasCurrentAudio s && str_eqb (currentAudioUrlRef s) url = true ->
        exists a ok,
          currentAudioRef s = Some a
          /\ ok = isResolved (fst (audio_play env
                     {| src := src a; currentTime := 0%N; paused := paused a |}
                     (world s)))
          /\ audioLog s' = audioLog s ++ [OpSeekZero (src a); OpPlay (src a) ok]
          /\ List.filter isOpNew [OpSeekZero (src a); OpPlay (src a) ok] = []
          /\ currentAudioRef s'
             = Some {| src := src a; currentTime := 0%N;
                       paused := if ok then false else paused a |}
          /\ currentAudioUrlRef s' = url
          /\ playingKey s' = if ok then key else playingKey s)
    /\ (truthy_str url = true ->
        hasCurrentAudio s && str_eqb (currentAudioUrlRef s) url = false ->
        exists ok,
          ok = isResolved (fst (audio_play env (newAudio url) (world s)))
          /\ audioLog s' = audioLog s ++ stopOps s ++ [OpNew url; OpPlay url ok]
          /\ currentAudioRef s'
             = Some {| src := url; currentTime := 0%N; paused := negb ok |}
          /\ currentAudioUrlRef s' = url
          /\ playingKey s' = key).
Proof.
  intros s s' url key c Hrun.
  destruct (truthy_str url) eqn:Hu.
  - destruct (playAudio_nonempty_spec s s' url key c Hu Hrun) as (Hc & Hre & Hload).
    split; [assumption|]. split; [discriminate|]. split; intros _ Hb.
    + destruct (Hre Hb) as (a & ok & Ha & Hok & Hlog & Hcur & Hurl & Hkey).
      exists a, ok. repeat split; assumption.
    + exact (Hload Hb).
  - unfold playAudio in Hrun. unfold try_catch, ret in Hrun.
    rewrite Hu in Hrun. simpl in Hrun. injection Hrun as <- <-.
    split; [reflexivity|]. split; [reflexivity|]. split; discriminate.
Qed.

(** C7 (amended). The [onended] handler clears the now-playing key and
    the loaded reference, leaving the element itself in
    [currentAudioRef]; a later [playAudio] of the same, non-empty
    reference therefore does not restart that element but pauses and
    rewinds it, creates a new element and asks it to play. *)
Theorem onended_then_play_reloads :
  forall (s s1 s2 : St W) (url key : jsstring) (c1 c2 : Completion unit),
    truthy_str url = true ->
    onended s = (c1, s1) ->
    playAudio env url key s1 = (c2, s2) ->
    c1 = Normal tt /\ c2 = Normal tt
    /\ playingKey s1 = [] /\ currentAudioUrlRef s1 = []
    /\ currentAudioRef s1 = currentAudioRef s
    /\ exists ok,
         audioLog s2 = audioLog s ++ stopOps s ++ [OpNew url; OpPlay url ok]
         /\ playingKey s2 = key /\ currentAudioUrlRef s2 = url.
Proof.
  intros s s1 s2 url key c1 c2 Hu H1 H2.
  unfold onended in H1. unfold_m. simpl in H1. injection H1 as <- <-.
  apply (playAudio_nonempty_spec _ _ _ _ _ Hu) in H2 as (-> & _ & Hload).
  simpl in Hload.
  assert (Hne : hasCurrentAudio
                  (set_currentAudioUrlRef [] (setPlayingKey [] s))
                && str_eqb [] url = false).
  { destruct url; [discriminate|]. simpl. apply andb_false_r. }
  destruct (Hload Hne) as (ok & _ & Hlog & _ & Hurl & Hkey).
  repeat split; try reflexivity.
  exists ok. repeat split; assumption.
Qed.

End WithWorld.

Import Scenario.

Lemma playAudio_restart_or_load_witness :
  let r := playAudio (scripted allGood) (lit "a.mp3") (lit "p-7") playingP7 in
  fst r = Normal tt
  /\ audioLog (snd r) = [OpSeekZero (lit "a.mp3"); OpPlay (lit "a.mp3") true]
  /\ currentAudioRef (snd r)
     = Some {| src := lit "a.mp3"; currentTime := 0%N; paused := false |}
  /\ playingKey (snd r) = lit "p-7".
Proof.
  intros r.
  destruct (playAudio_restart_or_load nat (scripted allGood) playingP7 (snd r)
              (lit "a.mp3") (lit "p-7") (fst r) eq_refl)
    as (Hc & _ & Hrestart & _).
  destruct (Hrestart eq_refl eq_refl) as (a & ok & Ha & Hok & Hlog & _ & Hcur & _ & Hkey).
  injection Ha as <-. subst ok.
  split; [exact Hc|]. split; [exact Hlog|]. split; [exact Hcur | exact Hkey].
Defined.

(** Playing another bubble while ["p-7"] plays stops ["p-7"] first. *)
Example play_p8_while_p7_plays :
  audioLog (after (playAudio (scripted allGood) (lit "b.mp3") (lit "p-8")) playingP7)
  = [OpPause (lit "a.mp3"); OpSeekZero (lit "a.mp3");
     OpNew (lit "b.mp3"); OpPlay (lit "b.mp3") true].
Proof. reflexivity. Qed.

(** C6 as stated fails on two calls.  With an empty reference, which
    differs from the loaded ["a.mp3"], nothing is stopped, loaded or played
    and the now-playing key stays ["p-7"] instead of becoming ["p-8"].  With
    the loaded reference and a play request that the browser refuses, the
    now-playing key stays ["p-7"] instead of becoming ["p-9"]. *)
Lemma playAudio_every_call_counterexample :
  (let s' := after (playAudio (scripted allGood) [] (lit "p-8")) playingP7 in
   str_eqb (currentAudioUrlRef playingP7) [] = false
   /\ audioLog s' = audioLog playingP7
   /\ playingKey s' <> lit "p-8")
  /\ (let s' := after (playAudio (scripted playBlocked) (lit "a.mp3") (lit "p-9"))
                  playingP7 in
      str_eqb (currentAudioUrlRef playingP7) (lit "a.mp3") = true
      /\ playingKey s' <> lit "p-9").
Proof.
  split; cbv zeta; repeat split; try reflexivity; vm_compute; discriminate.
Qed.

Lemma onended_then_play_reloads_witness :
  fst (@onended nat playedP7) = Normal tt
  /\ fst (playAudio (scripted allGood) (lit "a.mp3") (lit "p-7") endedP7) = Normal tt
  /\ playingKey endedP7 = [] /\ currentAudioUrlRef endedP7 = []
  /\ currentAudioRef endedP7 = currentAudioRef playedP7
  /\ exists ok,
       audioLog replayedP7
       = audioLog playedP7 ++ stopOps playedP7
         ++ [OpNew (lit "a.mp3"); OpPlay (lit "a.mp3") ok]
       /\ playingKey replayedP7 = lit "p-7"
       /\ currentAudioUrlRef replayedP7 = lit "a.mp3".
Proof.
  apply (onended_then_play_reloads nat (scripted allGood) playedP7 endedP7 replayedP7
           (lit "a.mp3") (lit "p-7")
           (fst (@onended nat playedP7))
           (fst (playAudio (scripted allGood) (lit "a.mp3") (lit "p-7") endedP7)));
    vm_compute; reflexivity.
Defined.

(** C7 as stated fails: after bubble ["p-7"] has played to its end, the
    loaded reference is no longer ["a.mp3"], and playing ["a.mp3"] again
    creates a second element instead of restarting the first. *)
Lemma replay_after_end_counterexample :
  currentAudioUrlRef endedP7 <> lit "a.mp3"
  /\ audioLog replayedP7
     = [OpNew (lit "a.mp3"); OpPlay (lit "a.mp3") true;
        OpPause (lit "a.mp3"); OpSeekZero (lit "a.mp3");
        OpNew (lit "a.mp3"); OpPlay (lit "a.mp3") true]
  /\ List.length (filter isOpNew (audioLog replayedP7)) = 2.
Proof.
  split; [vm_compute; discriminate|]. split; reflexivity.
Qed.

End PlaybackFacts.

(** ** The turn pipeline *)

Module PipelineFacts.
Import Interview.
Import SessionFacts.
Import PlaybackFacts.

#[local] Arguments ensureSession : simpl never.
#[local] Arguments synthesize : simpl never.
#[local] Arguments playAudio : simpl never.
#[local] Arguments call_uploadAudio : simpl never.
#[local] Arguments call_getPersonaReply : simpl never.
#[local] Arguments call_generateTTS : simpl never.
#[local] Arguments patchTurn : simpl never.
#[local] Arguments baseTurn : simpl never.
#[local] Arguments trim : simpl never.
#[local] Arguments or_empty : simpl never.
#[local] Arguments lit : simpl never.

(** *** Arrays of turns *)

Lemma assign_length (i : nat) (v : Turn) (l : list Turn) :
  List.length (assign i v l) = List.length l.
Proof.
  revert i; induction l as [|t l IH]; intros [|i]; simpl; auto.
Qed.

Lemma assign_same (i : nat) (v : Turn) (l : list Turn) :
  i < List.length l -> nth_error (assign i v l) i = Some v.
Proof.
  revert i; induction l as [|t l IH]; intros [|i]; simpl; intros H; try lia; auto.
  apply IH. lia.
Qed.

Lemma assign_other (i j : nat) (v : Turn) (l : list Turn) :
  j <> i -> nth_error (assign i v l) j = nth_error l j.
Proof.
  revert i j; induction l as [|t l IH]; intros [|i] [|j]; simpl; intros H;
    try reflexivity; try congruence.
  apply IH. congruence.
Qed.

(** [findIndex] returns the first position whose id is the one sought. *)
Lemma findIndex_Some (tid : jsstring) (l : list Turn) (i : nat) :
  findIndex tid l = Some i ->
  (exists t, nth_error l i = Some t /\ id t = tid)
  /\ forall j u, j < i -> nth_error l j = Some u -> id u <> tid.
Proof.
  revert i; induction l as [|t l IH]; simpl; intros i H; [discriminate|].
  destruct (str_eqb (id t) tid) eqn:E.
  - injection H as <-. split.
    + exists t. split; [reflexivity|]. now apply JSFacts.str_eqb_eq.
    + intros j u Hj. lia.
  - destruct (findIndex tid l) as [k|] eqn:Ek; [|discriminate].
    injection H as <-. destruct (IH k eq_refl) as [Hex Hmin]. split.
    + exact Hex.
    + intros [|j] u Hj Hn; simpl in Hn.
      * injection Hn as <-. now apply JSFacts.str_eqb_neq.
      * apply (Hmin j u); [lia | assumption].
Qed.

Lemma findIndex_None (tid : jsstring) (l : list Turn) :
  findIndex tid l = None -> ~ In tid (List.map id l).
Proof.
  induction l as [|t l IH]; simpl; intros H; [tauto|].
  destruct (str_eqb (id t) tid) eqn:E; [discriminate|].
  destruct (findIndex tid l); [discriminate|].
  apply JSFacts.str_eqb_neq in E. intros [Hh|Ht]; [congruence|]. now apply IH.
Qed.

(** Looking up the id of a turn just appended always succeeds; it finds
    the appended turn itself when no earlier turn has that id. *)
Lemma findIndex_appended (b : Turn) (prev : list Turn) :
  exists idx,
    findIndex (id b) (prev ++ [b]) = Some idx
    /\ idx <= List.length prev
    /\ (~ In (id b) (List.map id prev) -> idx = List.length prev).
Proof.
  induction prev as [|t prev IH]; simpl.
  - rewrite JSFacts.str_eqb_refl. exists 0. auto.
  - destruct (str_eqb (id t) (id b)) eqn:E.
    + exists 0. repeat split; [lia|].
      apply JSFacts.str_eqb_eq in E. intros Hn. exfalso. apply Hn. now left.
    + destruct IH as (k & -> & Hk & Hfresh). exists (S k).
      repeat split; [lia|]. intros Hn. f_equal. apply Hfresh. tauto.
Qed.

Lemma nth_error_last (prev : list Turn) (b : Turn) :
  nth_error (prev ++ [b]) (List.length prev) = Some b.
Proof. induction prev; simpl; auto. Qed.

(** The updater of step 6, applied to any array: the length and every
    id stay as they were, and the only element that changes is the first
    one whose id is [tid]; it keeps its id, student fields and timestamp. *)
Lemma patchTurn_spec (tid reply : jsstring) (audio : option jsstring) (tn : option Z)
      (l : list Turn) :
  List.length (patchTurn tid reply audio tn l) = List.length l
  /\ forall i t,
      nth_error l i = Some t ->
      (findIndex tid l <> Some i ->
       nth_error (patchTurn tid reply audio tn l) i = Some t)
      /\ (findIndex tid l = Some i ->
          id t = tid
          /\ exists t',
              nth_error (patchTurn tid reply audio tn l) i = Some t'
              /\ id t' = id t
              /\ student_question t' = student_question t
              /\ student_audio_url t' = student_audio_url t
              /\ timestamp t' = timestamp t
              /\ persona_response t' = reply
              /\ persona_audio_url t' = audio
              /\ turn_number t' = Some (or_num tn (Z.of_nat i + 1))).
Proof.
  unfold patchTurn.
  destruct (findIndex tid l) as [idx|] eqn:Ef.
  - destruct (findIndex_Some _ _ _ Ef) as [(t0 & Hn0 & Hid0) _].
    rewrite Hn0. split; [apply assign_length|].
    intros i t Hn. split.
    + intros Hne. rewrite assign_other; [assumption | congruence].
    + intros Hi. injection Hi as <-. rewrite Hn0 in Hn. injection Hn as <-.
      split; [assumption|].
      eexists. split.
      * apply assign_same. apply nth_error_Some. congruence.
      * simpl. repeat split; reflexivity.
  - split; [reflexivity|]. intros i t Hn. split; [auto | discriminate].
Qed.

Section WithWorld.

Variable W : Type.
Variable env : Env W.
Variable personaId : jsstring.

Lemma synthesize_spec (s s1 : St W) (reply : jsstring) (c : Completion (option jsstring)) :
  synthesize env personaId reply s = (c, s1) ->
  interviewTurns s1 = interviewTurns s
  /\ ((truthy_str reply = false /\ c = Normal None /\ apiLog s1 = apiLog s)
      \/ (truthy_str reply = true
          /\ exists o, apiLog s1 = apiLog s ++ [EvGenerateTTS reply personaId o]
             /\ ((exists e, o = Rejected e /\ c = Throw e)
                 \/ (exists t, o = Resolved t
                     /\ ((exists e, c = Throw e
                             /\ truthy_ostr (audio_base64 t) = true
                             /\ atob env (or_empty (audio_base64 t)) = None)
                         \/ (exists audio, c = Normal audio
                             /\ (audio = None ->
                                 truthy_ostr (audio_base64 t) = false
                                 /\ truthy_ostr (audio_url t) = false))))))).
Proof.
  unfold synthesize.
  destruct (truthy_str reply) eqn:Hr.
  2: { unfold ret. intros H. injection H as <- <-. split; [reflexivity|]. left. auto. }
  unfold call_generateTTS, base64ToBlob, call_createObjectURL. unfold_m.
  destruct (generateTTS env reply personaId (world s)) as [o w] eqn:Eg.
  destruct o as [t|e]; simpl.
  - destruct (truthy_ostr (audio_base64 t)) eqn:Hb.
    + destruct (atob env (or_empty (audio_base64 t))) as [chars|] eqn:Ea; simpl.
      * destruct (createObjectURL env _ w) as [u w2] eqn:Ec. simpl.
        intros H. injection H as <- <-. simpl. split; [reflexivity|].
        right. split; [reflexivity|]. eexists. split; [reflexivity|].
        right. eexists. split; [reflexivity|]. right. eexists. split; [reflexivity|].
        discriminate.
      * intros H. injection H as <- <-. simpl. split; [reflexivity|].
        right. split; [reflexivity|]. eexists. split; [reflexivity|].
        right. eexists. split; [reflexivity|]. left. eexists. auto.
    + destruct (truthy_ostr (audio_url t)) eqn:Hu; simpl;
        intros H; injection H as <- <-; simpl; (split; [reflexivity|]);
        right; (split; [reflexivity|]); eexists; (split; [reflexivity|]);
        right; eexists; (split; [reflexivity|]); right; eexists;
        (split; [reflexivity|]).
      * intros Hn. rewrite Hn in Hu. discriminate.
      * auto.
  - intros H. injection H as <- <-. simpl. split; [reflexivity|].
    right. split; [reflexivity|]. eexists. split; [reflexivity|].
    left. eauto.
Qed.

Lemma ensureSession_run (s s1 : St W) (c : Completion (option jsstring)) :
  ensureSession env personaId s = (c, s1) ->
  exists r delta,
    c = Normal r
    /\ interviewTurns s1 = interviewTurns s
    /\ apiLog s1 = apiLog s ++ delta
    /\ forallb isSessionEvent delta = true.
Proof.
  intros H.
  destruct (ensureSession_spec W env personaId s) as (r & s1' & delta & E & Ht & Hl & Hs & _).
  rewrite E in H. injection H as <- <-. eauto 10.
Qed.

(** Every run of the pipeline, by the stage at which it ends. *)
Lemma processAudio_cases (s s' : St W) (blob : Blob) (url : jsstring)
      (c : Completion unit) :
  processAudio env personaId blob url s = (c, s') ->
  c = Normal tt /\ processing s' = false /\ personaTyping s' = false
  /\ exists dsess,
      forallb isSessionEvent dsess = true
      /\ ((apiLog s' = apiLog s ++ dsess
           /\ interviewTurns s' = interviewTurns s)
          \/ (exists o,
               apiLog s' = apiLog s ++ dsess ++ [EvUploadAudio blob o]
               /\ interviewTurns s' = interviewTurns s
               /\ match o with
                  | Rejected _ => True
                  | Resolved tr => truthy_str (trim (or_empty tr)) = false
                  end)
          \/ (exists tr sid tid ts,
               truthy_str (trim (or_empty tr)) = true
               /\ ((exists e,
                      apiLog s' = apiLog s ++ dsess
                                  ++ [EvUploadAudio blob (Resolved tr);
                                      EvGetPersonaReply personaId (trim (or_empty tr)) sid
                                        (Rejected e)]
                      /\ interviewTurns s'
                         = interviewTurns s ++ [baseTurn tid (trim (or_empty tr)) url ts]
                      /\ error s' = lit "Failed to process audio")
                   \/ (exists rr o,
                        apiLog s' = apiLog s ++ dsess
                                    ++ [EvUploadAudio blob (Resolved tr);
                                        EvGetPersonaReply personaId (trim (or_empty tr)) sid
                                          (Resolved rr);
                                        EvGenerateTTS (trim (or_empty (reply rr)))
                                          personaId o]
                        /\ truthy_str (trim (or_empty (reply rr))) = true
                        /\ ((exists e, o = Rejected e)
                            \/ (exists t, o = Resolved t
                                /\ atob env (or_empty (audio_base64 t)) = None))
                        /\ interviewTurns s'
                           = interviewTurns s ++ [baseTurn tid (trim (or_empty tr)) url ts]
                        /\ error s' = lit "Failed to process audio")
                   \/ (exists rr dtts audio,
                        apiLog s' = apiLog s ++ dsess
                                    ++ [EvUploadAudio blob (Resolved tr);
                                        EvGetPersonaReply personaId (trim (or_empty tr)) sid
                                          (Resolved rr)]
                                    ++ dtts
                        /\ ((dtts = [] /\ audio = None
                             /\ truthy_str (trim (or_empty (reply rr))) = false)
                            \/ (exists t,
                                 dtts = [EvGenerateTTS (trim (or_empty (reply rr)))
                                           personaId (Resolved t)]
                                 /\ truthy_str (trim (or_empty (reply rr))) = true))
                        /\ interviewTurns s'
                           = patchTurn tid (trim (or_empty (reply rr))) audio
                               (reply_turn_number rr)
                               (interviewTurns s
                                  ++ [baseTurn tid (trim (or_empty tr)) url ts]))))).
Proof.
  unfold processAudio. unfold_m. simpl.
  destruct (ensureSession env personaId (setProcessing true s)) as [c1 s1] eqn:E1.
  apply ensureSession_run in E1 as (sid & dsess & -> & Ht1 & Hl1 & Hs).
  simpl in Ht1, Hl1.
  destruct (truthy_ostr sid) eqn:Hsid; simpl.
  2: { intros H. injection H as <- <-. simpl.
       repeat (split; [reflexivity|]). exists dsess. split; [assumption|].
       left. auto. }
  unfold call_uploadAudio. unfold_m.
  destruct (uploadAudio env blob (world s1)) as [ou w2] eqn:Eu.
  destruct ou as [tr|e]; simpl.
  2: { intros H. injection H as <- <-. simpl.
       repeat (split; [reflexivity|]). exists dsess. split; [assumption|].
       right. left. exists (Rejected e). rewrite Hl1, Ht1, <- app_assoc. auto. }
  destruct (truthy_str (trim (or_empty tr))) eqn:Htext; simpl.
  2: { intros H. injection H as <- <-. simpl.
       repeat (split; [reflexivity|]). exists dsess. split; [assumption|].
       right. left. exists (Resolved tr). rewrite Hl1, Ht1, <- app_assoc. auto. }
  unfold makeTurnId, newDateISO, call_getPersonaReply. unfold_m. simpl.
  match goal with |- context [makeTurnId_raw env ?w] =>
    destruct (makeTurnId_raw env w) as [tid w3] eqn:Em end. simpl.
  match goal with |- context [nowISOString env ?w] =>
    destruct (nowISOString env w) as [ts w4] eqn:En end. simpl.
  match goal with |- context [getPersonaReply env ?p ?t ?i ?w] =>
    destruct (getPersonaReply env p t i w) as [orr w5] eqn:Er end.
  destruct orr as [rr|e]; simpl.
  2: { intros H. injection H as <- <-. simpl.
       repeat (split; [reflexivity|]). exists dsess. split; [assumption|].
       right. right. exists tr, (or_empty sid), tid, ts. split; [assumption|].
       left. exists e. rewrite Hl1, Ht1, <- !app_assoc. auto. }
  match goal with |- context [synthesize env personaId ?r ?x] =>
    destruct (synthesize env personaId r x) as [ca s6] eqn:Esy end.
  apply synthesize_spec in Esy as [Ht6 Hsy]. simpl in Ht6, Hsy.
  destruct Hsy as [(Hr & -> & Hl6) | (Hr & o & Hl6 & Ho)].
  - (* empty reply: nothing to synthesize, nothing to play *)
    simpl. intros H. injection H as <- <-. simpl.
    repeat (split; [reflexivity|]). exists dsess. split; [assumption|].
    right. right. exists tr, (or_empty sid), tid, ts. split; [assumption|].
    right. right. exists rr, [], None.
    rewrite Hl6, Ht6, Hl1, Ht1, <- !app_assoc. simpl.
    split; [reflexivity|]. split; [left; auto | reflexivity].
  - destruct Ho as [(e & -> & ->) | (t & -> & [(e & -> & Hb & Ha) | (audio & -> & Hnone)])].
    + (* the synthesis request is rejected *)
      simpl. intros H. injection H as <- <-. simpl.
      repeat (split; [reflexivity|]). exists dsess. split; [assumption|].
      right. right. exists tr, (or_empty sid), tid, ts. split; [assumption|].
      right. left. exists rr, (Rejected e).
      rewrite Hl6, Ht6, Hl1, Ht1, <- !app_assoc. simpl. eauto 10.
    + (* inline audio that atob rejects *)
      simpl. intros H. injection H as <- <-. simpl.
      repeat (split; [reflexivity|]). exists dsess. split; [assumption|].
      right. right. exists tr, (or_empty sid), tid, ts. split; [assumption|].
      right. left. exists rr, (Resolved t).
      rewrite Hl6, Ht6, Hl1, Ht1, <- !app_assoc. simpl. eauto 10.
    + (* the turn is patched, then the audio, if any, is played *)
      assert (Hfin : forall s7 c7 s8,
                 apiLog s7 = apiLog s6 ->
                 interviewTurns s7
                 = patchTurn tid (trim (or_empty (reply rr))) audio
                     (reply_turn_number rr) (interviewTurns s6) ->
                 (if truthy_ostr audio
                  then playAudio env (or_empty audio) (112%N :: 45%N :: tid)
                  else fun s9 : St W => (Normal tt, s9)) s7 = (c7, s8) ->
                 c7 = Normal tt /\ apiLog s8 = apiLog s6
                 /\ interviewTurns s8
                    = patchTurn tid (trim (or_empty (reply rr))) audio
                        (reply_turn_number rr) (interviewTurns s6)).
      { intros s7 c7 s8 Hl7 Ht7 Hrun. destruct (truthy_ostr audio).
        - apply playAudio_frame in Hrun as (-> & Ht8 & Hl8 & _).
          rewrite Ht8, Hl8. auto.
        - injection Hrun as <- <-. auto. }
      match goal with |- context [(if truthy_ostr audio then _ else _) ?x] =>
        destruct ((if truthy_ostr audio
                   then playAudio env (or_empty audio) (112%N :: 45%N :: tid)
                   else fun s9 : St W => (Normal tt, s9)) x) as [c7 s8] eqn:Ep;
        apply Hfin in Ep as (-> & Hl8 & Ht8); [|reflexivity|reflexivity] end.
      simpl. intros H. injection H as <- <-. simpl.
      repeat (split; [reflexivity|]). exists dsess. split; [assumption|].
      right. right. exists tr, (or_empty sid), tid, ts. split; [assumption|].
      right. right. exists rr, [EvGenerateTTS (trim (or_empty (reply rr))) personaId (Resolved t)], audio.
      rewrite Hl8, Ht8, Hl6, Ht6, Hl1, Ht1, <- !app_assoc. simpl.
      split; [reflexivity|]. split; [|reflexivity].
      right. exists t. auto.
Qed.

Lemma session_event_in (d : list ApiEvent) (e : ApiEvent) :
  forallb isSessionEvent d = true -> In e d -> isSessionEvent e = true.
Proof. intros H Hin. rewrite forallb_forall in H. auto. Qed.

(** Splits a membership in the calls of a run into its cases, the
    session calls being set aside. *)
Ltac in_run Hin Hs :=
  repeat rewrite in_app_iff in Hin; simpl in Hin;
  repeat match type of Hin with
         | _ \/ _ => destruct Hin as [Hin|Hin]
         end;
  try (apply (session_event_in _ _ Hs) in Hin; discriminate Hin);
  try discriminate Hin; try contradiction.

(** C2. In every run of the pipeline in which the transcription call
    resolves with an empty or white-space-only transcript (or none), the
    run completes normally, the turn sequence is what it was before the
    run, and the processing flag is false at the end. *)
Theorem blank_transcription_creates_no_turn :
  forall (s s' : St W) (blob b : Blob) (url : jsstring) (c : Completion unit)
         (delta : list ApiEvent) (tr : option jsstring),
    processAudio env personaId blob url s = (c, s') ->
    apiLog s' = apiLog s ++ delta ->
    In (EvUploadAudio b (Resolved tr)) delta ->
    whitespace_only (or_empty tr) = true ->
    c = Normal tt
    /\ interviewTurns s' = interviewTurns s
    /\ processing s' = false.
Proof.
  intros s s' blob b url c delta tr Hrun Hlog Hin Hws.
  apply JSFacts.trim_nil_iff in Hws.
  apply processAudio_cases in Hrun as (-> & Hp & _ & dsess & Hs & Hcase).
  split; [reflexivity|]. split; [|assumption].
  destruct Hcase as [(Hl & Ht) | [(o & Hl & Ht & Ho) | Hturn]].
  - assumption.
  - assumption.
  - exfalso.
    destruct Hturn as (tr' & sid & tid & ts & Htext & Hrest).
    assert (Htr : In (EvUploadAudio b (Resolved tr))
                     [EvUploadAudio blob (Resolved tr')] -> False).
    { intros [E|[]]. injection E as _ <-. rewrite Hws in Htext. discriminate. }
    destruct Hrest as [(e & Hl & _) | [(rr & o & Hl & _) | (rr & dtts & audio & Hl & Hd & _)]];
      rewrite Hlog in Hl; apply app_inv_head in Hl; subst delta.
    + in_run Hin Hs. apply Htr. now left.
    + in_run Hin Hs. apply Htr. now left.
    + destruct Hd as [(-> & _) | (t & -> & _)]; in_run Hin Hs; apply Htr; now left.
Qed.

(** C3. In every run of the pipeline that starts from an empty turn
    sequence, in which transcription resolves with ["Hello"] and the
    persona-reply request is rejected, the run completes normally (the
    rejection is caught) and the turn sequence ends with exactly one turn,
    whose student text is ["Hello"] and whose persona text is empty. *)
Theorem reply_failure_keeps_student_turn :
  forall (s s' : St W) (blob b : Blob) (url p q sid : jsstring)
         (c : Completion unit) (delta : list ApiEvent) (e : Exn),
    interviewTurns s = [] ->
    processAudio env personaId blob url s = (c, s') ->
    apiLog s' = apiLog s ++ delta ->
    In (EvUploadAudio b (Resolved (Some (lit "Hello")))) delta ->
    In (EvGetPersonaReply p q sid (Rejected e)) delta ->
    c = Normal tt
    /\ exists t,
        interviewTurns s' = [t]
        /\ student_question t = lit "Hello"
        /\ persona_response t = [].
Proof.
  intros s s' blob b url p q sid c delta e Hempty Hrun Hlog Hup Hrep.
  apply processAudio_cases in Hrun as (-> & _ & _ & dsess & Hs & Hcase).
  split; [reflexivity|].
  destruct Hcase as [(Hl & Ht) | [(o & Hl & Ht & Ho) | Hturn]].
  - rewrite Hlog in Hl. apply app_inv_head in Hl. subst delta. in_run Hrep Hs.
  - rewrite Hlog in Hl. apply app_inv_head in Hl. subst delta. in_run Hrep Hs.
  - destruct Hturn as (tr & sid' & tid & ts & Htext & Hrest).
    destruct Hrest as [(e' & Hl & Ht & _) | [(rr & o & Hl & _) | (rr & dtts & audio & Hl & Hd & _)]];
      rewrite Hlog in Hl; apply app_inv_head in Hl; subst delta.
    + in_run Hup Hs. injection Hup as _ ->.
      rewrite Ht, Hempty. eexists. split; [reflexivity|].
      split; reflexivity.
    + exfalso. in_run Hrep Hs.
    + exfalso. destruct Hd as [(-> & _) | (t & -> & _)]; in_run Hrep Hs.
Qed.

(** C1 (amended). In every run of the pipeline in which the
    speech-synthesis request is rejected, a non-empty persona reply had
    been obtained, the run completes normally with the processing flag
    false and the error ['Failed to process audio'], and the turn created
    by the run is left as created: it is the last of the sequence, its
    persona text is empty and its persona audio reference is null. *)
Theorem tts_rejection_aborts_turn :
  forall (s s' : St W) (blob : Blob) (url text p : jsstring)
         (c : Completion unit) (delta : list ApiEvent) (e : Exn),
    processAudio env personaId blob url s = (c, s') ->
    apiLog s' = apiLog s ++ delta ->
    In (EvGenerateTTS text p (Rejected e)) delta ->
    c = Normal tt
    /\ processing s' = false
    /\ error s' = lit "Failed to process audio"
    /\ (exists q sid rr,
          In (EvGetPersonaReply personaId q sid (Resolved rr)) delta
          /\ text = trim (or_empty (reply rr))
          /\ truthy_str text = true)
    /\ exists t,
        interviewTurns s' = interviewTurns s ++ [t]
        /\ persona_response t = []
        /\ persona_audio_url t = None.
Proof.
  intros s s' blob url text p c delta e Hrun Hlog Hin.
  apply processAudio_cases in Hrun as (-> & Hp & _ & dsess & Hs & Hcase).
  split; [reflexivity|]. split; [assumption|].
  destruct Hcase as [(Hl & Ht) | [(o & Hl & Ht & Ho) | Hturn]].
  - exfalso. rewrite Hlog in Hl. apply app_inv_head in Hl. subst delta. in_run Hin Hs.
  - exfalso. rewrite Hlog in Hl. apply app_inv_head in Hl. subst delta. in_run Hin Hs.
  - destruct Hturn as (tr & sid' & tid & ts & Htext & Hrest).
    destruct Hrest as [(e' & Hl & Ht & _) | [(rr & o & Hl & Hr & Ho & Ht & He) | (rr & dtts & audio & Hl & Hd & _)]];
      rewrite Hlog in Hl; apply app_inv_head in Hl; subst delta.
    + exfalso. in_run Hin Hs.
    + in_run Hin Hs. injection Hin as E1 E2 E3. subst text p o.
      split; [assumption|]. split.
      * exists (trim (or_empty tr)), sid', rr. repeat split; [|assumption].
        rewrite in_app_iff. right. simpl. auto.
      * eexists. split; [exact Ht|]. split; reflexivity.
    + exfalso. destruct Hd as [(-> & _) | (t & -> & _)]; in_run Hin Hs.
Qed.

End WithWorld.

Import Scenario.

Lemma blank_transcription_creates_no_turn_witness :
  fst (pipelineRun noSpeech) = Normal tt
  /\ interviewTurns (snd (pipelineRun noSpeech)) = interviewTurns inSession
  /\ processing (snd (pipelineRun noSpeech)) = false.
Proof.
  apply (blank_transcription_creates_no_turn nat (scripted noSpeech) p42
           inSession (snd (pipelineRun noSpeech)) recording recording
           (lit "blob:user-1") (fst (pipelineRun noSpeech))
           [EvCheckSessionStatus (lit "s1") (Resolved true);
            EvUploadAudio recording (Resolved (Some (lit "   ")))]
           (Some (lit "   "))).
  - vm_compute. reflexivity.
  - vm_compute. reflexivity.
  - simpl. right. left. reflexivity.
  - vm_compute. reflexivity.
Defined.

Lemma reply_failure_keeps_student_turn_witness :
  fst (pipelineRun replyFails) = Normal tt
  /\ exists t,
      interviewTurns (snd (pipelineRun replyFails)) = [t]
      /\ student_question t = lit "Hello"
      /\ persona_response t = [].
Proof.
  apply (reply_failure_keeps_student_turn nat (scripted replyFails) p42
           inSession (snd (pipelineRun replyFails)) recording recording
           (lit "blob:user-1") p42 (lit "Hello") (lit "s1")
           (fst (pipelineRun replyFails))
           [EvCheckSessionStatus (lit "s1") (Resolved true);
            EvUploadAudio recording (Resolved (Some (lit "Hello")));
            EvGetPersonaReply p42 (lit "Hello") (lit "s1") (Rejected failure)]
           failure).
  - vm_compute. reflexivity.
  - vm_compute. reflexivity.
  - vm_compute. reflexivity.
  - simpl. right. left. reflexivity.
  - simpl. right. right. left. reflexivity.
Defined.

Lemma tts_rejection_aborts_turn_witness :
  let delta := [EvCheckSessionStatus (lit "s1") (Resolved true);
                EvUploadAudio recording (Resolved (Some (lit "Hello")));
                EvGetPersonaReply p42 (lit "Hello") (lit "s1") (on_reply allGood);
                EvGenerateTTS (lit "Good question") p42 (Rejected failure)] in
  let s' := snd (pipelineRun ttsFails) in
  fst (pipelineRun ttsFails) = Normal tt
  /\ processing s' = false
  /\ error s' = lit "Failed to process audio"
  /\ (exists q sid rr,
        In (EvGetPersonaReply p42 q sid (Resolved rr)) delta
        /\ lit "Good question" = trim (or_empty (reply rr))
        /\ truthy_str (lit "Good question") = true)
  /\ exists t,
      interviewTurns s' = interviewTurns inSession ++ [t]
      /\ persona_response t = []
      /\ persona_audio_url t = None.
Proof.
  intros delta s'.
  apply (tts_rejection_aborts_turn nat (scripted ttsFails) p42
           inSession s' recording (lit "blob:user-1") (lit "Good question") p42
           (fst (pipelineRun ttsFails)) delta failure).
  - vm_compute. reflexivity.
  - vm_compute. reflexivity.
  - simpl. right. right. right. left. reflexivity.
Defined.

(** C1 as stated fails: the reply ["Good question"] is obtained, the
    synthesis request is rejected, and no turn of the final sequence carries
    the reply text. *)
Lemma tts_failure_is_soft_counterexample :
  let s' := snd (pipelineRun ttsFails) in
  In (EvGetPersonaReply p42 (lit "Hello") (lit "s1")
        (Resolved {| reply := Some (lit "Good question");
                     reply_turn_number := Some 1%Z |}))
     (apiLog s')
  /\ In (EvGenerateTTS (lit "Good question") p42 (Rejected failure)) (apiLog s')
  /\ ~ (exists t, In t (interviewTurns s')
                  /\ persona_response t = lit "Good question").
Proof.
  cbv zeta. split; [|split].
  - vm_compute. right. right. left. reflexivity.
  - vm_compute. right. right. right. left. reflexivity.
  - intros (t & Hin & Hp). vm_compute in Hin.
    destruct Hin as [<-|[]]. vm_compute in Hp. discriminate Hp.
Qed.

(** The end-to-end run of [allGood]: one turn, patched. *)
Example pipeline_allGood_turns :
  interviewTurns (snd (pipelineRun allGood))
  = [ {| id := lit "lq1z8k-4f9a2c";
         student_question := lit "Hello";
         student_audio_url := Some (lit "blob:user-1");
         persona_response := lit "Good question";
         persona_audio_url := Some (lit "https://cdn/a.mp3");
         timestamp := lit "2024-05-01T10:00:00.000Z";
         turn_number := Some 1%Z |} ]
  /\ playingKey (snd (pipelineRun allGood)) = lit "p-lq1z8k-4f9a2c".
Proof. split; reflexivity. Qed.

End PipelineFacts.

(** ** The feedback adapter *)

Module FeedbackFacts.
Import Feedback.

Example titleCase_active_listening :
  titleCase (VStr (lit "active_listening")) = Val (lit "Active Listening").
Proof. reflexivity. Qed.

Example normalizeReport_sample_categories :
  field "categories" (match normalizeReport noParse noPrint sampleReport with
                      | Val r => r | Raise _ => VNull end)
  = VArr [ VObj [ (lit "id", VStr (lit "active_listening"));
                  (lit "name", VStr (lit "Active Listening"));
                  (lit "score", VNum 3.5%float);
                  (lit "level", VStr (lit "Proficient"));
                  (lit "weight", VUndefined);
                  (lit "description", VUndefined);
                  (lit "evidence", VArr []);
                  (lit "suggestions", VArr []) ];
           VObj [ (lit "id", VStr (lit "rapport"));
                  (lit "name", VStr (lit "Rapport"));
                  (lit "score", VNum 0%float);
                  (lit "level", VUndefined);
                  (lit "weight", VUndefined);
                  (lit "description", VUndefined);
                  (lit "evidence", VArr []);
                  (lit "suggestions", VArr []) ] ].
Proof. vm_compute. reflexivity. Qed.

Section WithNumbers.

Variable stringToNumber : jsstring -> float.
Variable numberToString : float -> jsstring.

(** A property read on a truthy value does not throw. *)
Lemma getprop_truthy (v : jsval) (k : string) :
  truthy v = true -> getprop v k = Val (field k v).
Proof.
  unfold field. destruct v; simpl; try discriminate; intros _; try reflexivity.
  destruct (lookup (lit k) props); reflexivity.
Qed.

Lemma getprop_obj (props : list (jsstring * jsval)) (k : string) :
  getprop (VObj props) k = Val (field k (VObj props)).
Proof. now apply getprop_truthy. Qed.

Lemma category_ok (e : jsval) :
  hasStringCategoryId e = true ->
  convertible stringToNumber numberToString (scoreOf e) = true ->
  exists c, category stringToNumber numberToString e = Val c /\ scoreOk e c.
Proof.
  intros Hid Hconv.
  assert (Hobj : exists props, e = VObj props).
  { destruct e; try discriminate Hid. eauto. }
  destruct Hobj as [props ->].
  assert (Hc : exists cid, field "category_id" (VObj props) = VStr cid).
  { unfold hasStringCategoryId in Hid. unfold field.
    destruct (getprop (VObj props) "category_id") as [[| | | |cid| |]|];
      try discriminate Hid. eauto. }
  destruct Hc as [cid Hc].
  unfold scoreOk.
  change (scoreOf (VObj props)) with (field "score" (VObj props)) in *.
  unfold category. rewrite !getprop_obj. cbn [rbind]. rewrite Hc. cbn [titleCase rbind].
  unfold or_else at 1.
  destruct (truthy (field "score" (VObj props))) eqn:Ht.
  - unfold convertible in Hconv.
    destruct (toNumber stringToNumber numberToString (field "score" (VObj props)))
      as [f|]; [|discriminate].
    cbn [rbind]. eexists. split; [reflexivity|].
    exists f. split; [reflexivity | discriminate].
  - cbn [toNumber rbind]. eexists. split; [reflexivity|].
    exists 0%float. split; reflexivity.
Qed.

Lemma categories_ok (entries : list jsval) :
  Forall (fun e => hasStringCategoryId e = true
                   /\ convertible stringToNumber numberToString (scoreOf e) = true)
         entries ->
  exists cats,
    mapM (category stringToNumber numberToString) entries = Val cats
    /\ Forall2 scoreOk entries cats.
Proof.
  induction 1 as [|e entries [Hid Hconv] _ IH]; simpl.
  - exists []. split; [reflexivity | constructor].
  - destruct (category_ok e Hid Hconv) as (c & -> & Hc).
    destruct IH as (cats & -> & Hcats). simpl.
    exists (c :: cats). split; [reflexivity | now constructor].
Qed.

(** For a truthy report the entries are obtained without throwing. *)
Lemma scoreEntries_truthy (report : jsval) :
  truthy report = true -> scoreEntries report = Val (entriesOf report).
Proof.
  intros Ht. unfold entriesOf. rewrite Ht.
  unfold scoreEntries. rewrite (getprop_truthy _ _ Ht). cbn [rbind].
  unfold or_else.
  destruct (truthy (field "scores" report)) eqn:Hs.
  - destruct (field "scores" report); try discriminate Hs; reflexivity.
  - reflexivity.
Qed.

(** C10 (amended). For every report whose scores entries each carry a
    string [category_id] and a score that [Number] converts without
    throwing, [normalizeReport] returns a value.  A falsy report ([null]
    and [undefined] among them) gives exactly the empty report.  In every
    case [strengths], [improvements] and [quotes] are the input's
    [strengths], [improvements] and [quote_highlights] when these are
    arrays and the empty array otherwise, and [categories] is an array
    with one category per entry, whose [score] is a number, zero when the
    entry's score is missing or falsy. *)
Theorem normalizeReport_total_on_convertible_scores :
  forall report : jsval,
    Forall (fun e => hasStringCategoryId e = true
                     /\ convertible stringToNumber numberToString (scoreOf e) = true)
           (entriesOf report) ->
    exists result,
      normalizeReport stringToNumber numberToString report = Val result
      /\ (truthy report = false -> result = emptyReport)
      /\ field "strengths" result = arrayOrEmpty (field "strengths" report)
      /\ field "improvements" result = arrayOrEmpty (field "improvements" report)
      /\ field "quotes" result = arrayOrEmpty (field "quote_highlights" report)
      /\ exists cats,
          field "categories" result = VArr cats
          /\ Forall2 scoreOk (entriesOf report) cats.
Proof.
  intros report Hall. unfold normalizeReport.
  destruct (truthy report) eqn:Ht; cbn [negb].
  - rewrite (scoreEntries_truthy _ Ht). cbn [rbind].
    destruct (categories_ok _ Hall) as (cats & -> & Hcats). cbn [rbind].
    rewrite !(getprop_truthy _ _ Ht). cbn [rbind].
    eexists. split; [reflexivity|].
    split; [discriminate|].
    repeat (split; [reflexivity|]).
    exists cats. split; [reflexivity | assumption].
  - exists emptyReport. split; [reflexivity|]. split; [reflexivity|].
    assert (Hf : forall k, arrayOrEmpty (field k report) = VArr []).
    { intros k. unfold field.
      destruct report as [| |b|f|s|l|p]; try discriminate Ht; try reflexivity. }
    rewrite !Hf.
    repeat (split; [reflexivity|]).
    exists []. split; [reflexivity|].
    unfold entriesOf. rewrite Ht. constructor.
Qed.

End WithNumbers.

Lemma normalizeReport_total_on_convertible_scores_witness :
  exists result,
    normalizeReport noParse noPrint sampleReport = Val result
    /\ (truthy sampleReport = false -> result = emptyReport)
    /\ field "strengths" result = arrayOrEmpty (field "strengths" sampleReport)
    /\ field "improvements" result = arrayOrEmpty (field "improvements" sampleReport)
    /\ field "quotes" result = arrayOrEmpty (field "quote_highlights" sampleReport)
    /\ exists cats,
        field "categories" result = VArr cats
        /\ Forall2 scoreOk (entriesOf sampleReport) cats.
Proof.
  apply (normalizeReport_total_on_convertible_scores noParse noPrint sampleReport).
  repeat constructor.
Defined.

(** C10 as stated fails: every scores entry of the report carries a
    string [category_id], and [normalizeReport] throws, whatever the two
    number conversions are. *)
Lemma normalizeReport_never_throws_counterexample :
  Forall (fun e => hasStringCategoryId e = true) (entriesOf shadowedToStringReport)
  /\ (forall (stringToNumber : jsstring -> float) (numberToString : float -> jsstring),
        normalizeReport stringToNumber numberToString shadowedToStringReport
        = Raise (TypeError (lit "Cannot convert object to primitive value"))).
Proof.
  split.
  - repeat constructor.
  - intros stringToNumber numberToString. reflexivity.
Qed.

End FeedbackFacts.

(** ** More on strings *)

Module TrimFacts.

Lemma trimStart_head (s : jsstring) (c : N) (t : jsstring) :
  trimStart s = c :: t -> isWhiteSpace c = false.
Proof.
  induction s as [|d s IH]; simpl; [discriminate|].
  destruct (isWhiteSpace d) eqn:Ed; [exact IH|].
  intros H. injection H as <- _. exact Ed.
Qed.

Lemma trimStart_fixed (c : N) (t : jsstring) :
  isWhiteSpace c = false -> trimStart (c :: t) = c :: t.
Proof. intros H. simpl. now rewrite H. Qed.

Lemma trimStart_idem (s : jsstring) : trimStart (trimStart s) = trimStart s.
Proof.
  destruct (trimStart s) as [|c t] eqn:E; [reflexivity|].
  apply trimStart_fixed. exact (trimStart_head _ _ _ E).
Qed.

Lemma trimStart_snoc (l : jsstring) (c : N) :
  trimStart (l ++ [c])
  = match trimStart l with
    | [] => if isWhiteSpace c then [] else [c]
    | _ :: _ => trimStart l ++ [c]
    end.
Proof.
  induction l as [|d l IH]; simpl; [reflexivity|].
  destruct (isWhiteSpace d); [exact IH | reflexivity].
Qed.

(** [trimEnd] never removes a leading character that is not white
    space. *)
Lemma trimEnd_cons (c : N) (v : jsstring) :
  isWhiteSpace c = false -> exists t, trimEnd (c :: v) = c :: t.
Proof.
  intros Hc. unfold trimEnd. simpl.
  revert c Hc. induction v as [|d v IH]; intros c Hc; simpl.
  - rewrite Hc. exists []. reflexivity.
  - rewrite trimStart_snoc.
    destruct (trimStart (rev v ++ [d])) as [|x u] eqn:E.
    + rewrite Hc. exists []. reflexivity.
    + rewrite rev_app_distr. simpl. eexists. reflexivity.
Qed.

(** Trimming twice is trimming once. *)
Lemma trim_idem (s : jsstring) : trim (trim s) = trim s.
Proof.
  unfold trim.
  assert (Hfix : trimStart (trimEnd (trimStart s)) = trimEnd (trimStart s)).
  { destruct (trimStart s) as [|c t] eqn:E; [reflexivity|].
    destruct (trimEnd_cons c t (trimStart_head _ _ _ E)) as [u ->].
    apply trimStart_fixed. exact (trimStart_head _ _ _ E). }
  rewrite Hfix. unfold trimEnd at 1 2. rewrite rev_involutive, trimStart_idem.
  reflexivity.
Qed.

End TrimFacts.

(** ** The transcript bubbles *)

Module TranscriptFacts.
Import Interview Transcript.

Lemma messagesFrom_length (personaName : jsstring) (turns : list Turn) :
  forall idx,
    List.length (messagesFrom personaName idx turns)
    = List.length turns + List.length (answered turns).
Proof.
  induction turns as [|t rest IH]; intros idx; simpl; [reflexivity|].
  rewrite length_app, IH. unfold answered. simpl.
  destruct (truthy_str (persona_response t)); simpl; lia.
Qed.

(** X1. The transcript shows one bubble per turn for the student and one
    more for each turn that has a persona reply: never fewer bubbles than
    turns, never more than twice as many. *)
Theorem messages_count :
  forall (personaName : jsstring) (turns : list Turn),
    List.length (messages personaName turns)
    = List.length turns + List.length (answered turns)
    /\ List.length turns <= List.length (messages personaName turns)
       <= 2 * List.length turns.
Proof.
  intros personaName turns. unfold messages.
  rewrite messagesFrom_length. split; [reflexivity|].
  assert (H : List.length (answered turns) <= List.length turns)
    by apply filter_length_le.
  lia.
Qed.

Lemma student_texts_from (personaName : jsstring) (turns : list Turn) :
  forall idx,
    List.map text (List.filter isStudent (messagesFrom personaName idx turns))
    = List.map student_question turns.
Proof.
  induction turns as [|t rest IH]; intros idx; simpl; [reflexivity|].
  change (isStudent (studentMessage t idx)) with true. simpl.
  rewrite filter_app, map_app, IH.
  destruct (truthy_str (persona_response t)); reflexivity.
Qed.

(** X2. The student bubbles of the transcript carry the student texts of
    the turns, all of them and in the order of the turns; likewise the
    persona bubbles carry the replies of the answered turns. *)
Theorem messages_keep_order :
  forall (personaName : jsstring) (turns : list Turn),
    List.map text (List.filter isStudent (messages personaName turns))
    = List.map student_question turns
    /\ List.map text
         (List.filter (fun m => negb (isStudent m)) (messages personaName turns))
       = List.map persona_response (answered turns).
Proof.
  intros personaName turns. split; [apply student_texts_from|].
  unfold messages. generalize 0.
  induction turns as [|t rest IH]; intros idx; simpl; [reflexivity|].
  change (isStudent (studentMessage t idx)) with true. simpl.
  rewrite filter_app, map_app, IH. unfold answered. simpl.
  destruct (truthy_str (persona_response t)); reflexivity.
Qed.

Lemma keys_from (personaName : jsstring) (turns : list Turn) :
  (forall t, In t turns -> truthy_str (id t) = true) ->
  forall idx k,
    In k (List.map key (messagesFrom personaName idx turns)) ->
    exists t, In t turns /\ (k = lit "u-" ++ id t \/ k = lit "p-" ++ id t).
Proof.
  induction turns as [|t rest IH]; intros Hid idx k; simpl; [tauto|].
  assert (Hk : idKey t idx = id t).
  { unfold idKey. rewrite (Hid t); [reflexivity | now left]. }
  rewrite map_app, in_app_iff.
  intros [H|[H|H]].
  - exists t. split; [now left|]. left. rewrite <- H. simpl. now rewrite Hk.
  - destruct (truthy_str (persona_response t)); simpl in H; [|tauto].
    destruct H as [H|[]]. exists t. split; [now left|]. right.
    rewrite <- H. simpl. now rewrite Hk.
  - destruct (IH (fun u Hu => Hid u (or_intror Hu)) (S idx) k H) as (u & Hu & Hc).
    exists u. split; [now right | exact Hc].
Qed.

(** X3. When the turns have non-empty, pairwise distinct ids, the keys
    of the bubbles are pairwise distinct. *)
Theorem message_keys_distinct :
  forall (personaName : jsstring) (turns : list Turn),
    (forall t, In t turns -> truthy_str (id t) = true) ->
    NoDup (List.map id turns) ->
    NoDup (List.map key (messages personaName turns)).
Proof.
  intros personaName turns. unfold messages. generalize 0.
  induction turns as [|t rest IH]; intros idx Hid Hnd; simpl; [constructor|].
  inversion Hnd as [|x l Hnotin Hnd' E]; subst.
  assert (Hk : idKey t idx = id t).
  { unfold idKey. rewrite (Hid t); [reflexivity | now left]. }
  assert (Hrest : forall k,
             In k (List.map key (messagesFrom personaName (S idx) rest)) ->
             k <> lit "u-" ++ id t /\ k <> lit "p-" ++ id t).
  { intros k Hin.
    destruct (keys_from personaName rest (fun u Hu => Hid u (or_intror Hu)) _ _ Hin)
      as (u & Hu & Hc).
    assert (Hne : id u <> id t).
    { intros E. apply Hnotin. rewrite <- E. now apply in_map. }
    destruct Hc as [-> | ->]; split; simpl; congruence. }
  rewrite map_app. simpl. rewrite Hk.
  specialize (IH (S idx) (fun u Hu => Hid u (or_intror Hu)) Hnd').
  constructor.
  - rewrite in_app_iff. intros [H|H].
    + destruct (truthy_str (persona_response t)); simpl in H; [|tauto].
      destruct H as [H|[]]. rewrite Hk in H. simpl in H. discriminate H.
    + destruct (Hrest _ H) as [Hu _]. now apply Hu.
  - destruct (truthy_str (persona_response t)); simpl; [|exact IH].
    rewrite Hk. constructor; [|exact IH].
    intros H. destruct (Hrest _ H) as [_ Hp]. now apply Hp.
Qed.

Lemma message_keys_distinct_witness :
  NoDup (List.map key (messages (lit "Maya") Scenario.twoTurns)).
Proof.
  apply (message_keys_distinct (lit "Maya") Scenario.twoTurns).
  - intros t [<-|[<-|[]]]; vm_compute; reflexivity.
  - vm_compute. repeat constructor; simpl; intuition discriminate.
Defined.

Example messages_twoTurns_keys :
  List.map key (messages (lit "Maya") Scenario.twoTurns)
  = [lit "u-lq1z8k-4f9a2c"; lit "p-lq1z8k-4f9a2c"; lit "u-lq1z9m-77c0de"].
Proof. vm_compute. reflexivity. Qed.

End TranscriptFacts.

(** ** The turns sent for scoring *)

Module AppShellFacts.
Import Interview AppShell.

Lemma seq_shift_map (n : nat) (tn : Z) :
  forall start,
    List.map (fun k => (tn + 1 + Z.of_nat k)%Z) (List.seq start n)
    = List.map (fun k => (tn + Z.of_nat k)%Z) (List.seq (S start) n).
Proof.
  induction n as [|n IH]; intros start; simpl; [reflexivity|].
  rewrite IH. f_equal. lia.
Qed.

Lemma turn_numbers_from (pairs : list Turn) :
  forall tn,
    List.map turn_number (normalizeTurnsFrom tn pairs)
    = List.map (fun k => (tn + Z.of_nat k)%Z)
        (List.seq 0 (List.length (normalizeTurnsFrom tn pairs))).
Proof.
  induction pairs as [|p rest IH]; intros tn; simpl; [reflexivity|].
  destruct (truthy_str (trim (student_question p)));
    destruct (truthy_str (trim (persona_response p))); simpl;
    rewrite IH; rewrite <- ?seq_shift_map; repeat f_equal; try lia.
Qed.

(** X4. The turn numbers given to the scoring service count from one
    without a gap, in the order of the array, whichever texts were left
    out as blank. *)
Theorem normalizeTurns_numbers_consecutive :
  forall pairs : list Turn,
    List.map turn_number (normalizeTurns pairs)
    = countingFromOne (List.length (normalizeTurns pairs)).
Proof.
  intros pairs. unfold normalizeTurns, countingFromOne.
  rewrite turn_numbers_from.
  rewrite <- seq_shift, map_map.
  apply map_ext. intros k. lia.
Qed.


End AppShellFacts.

(** ** The turn pipeline, path by path *)

Module PipelinePaths.
Import Interview.
Import SessionFacts.

#[local] Arguments trim : simpl never.
#[local] Arguments or_empty : simpl never.
#[local] Arguments lit : simpl never.

Section WithWorld.

Variable W : Type.
Variable env : Env W.
Variable personaId : jsstring.

(** What one call of [ensureSession] does to the rest of the state. *)
Lemma ensureSession_detail (s s1 : St W) (c : Completion (option jsstring)) :
  ensureSession env personaId s = (c, s1) ->
  exists r delta,
    c = Normal r
    /\ apiLog s1 = apiLog s ++ delta
    /\ forallb isSessionEvent delta = true
    /\ List.length (List.filter isStartSession delta) <= 1
    /\ List.length delta <= 2
    /\ interviewTurns s1 = interviewTurns s
    /\ userBlobUrlsRef s1 = userBlobUrlsRef s
    /\ processing s1 = processing s
    /\ (truthy_ostr r = true -> sessionIdRef s1 = r /\ error s1 = error s).
Proof.
  unfold ensureSession, initializeSession, call_checkSessionStatus, call_startSession.
  unfold_m. simpl.
  destruct (truthy_ostr (sessionIdRef s)) eqn:Hheld; simpl.
  - destruct (checkSessionStatus env (or_empty (sessionIdRef s)) (world s))
      as [o w] eqn:Ec.
    destruct o as [[|]|e]; simpl.
    + intros H. injection H as <- <-. simpl.
      eexists _, [_]. repeat (split; [reflexivity || (simpl; lia)|]). auto.
    + destruct (startSession env personaId w) as [o2 w2] eqn:Es.
      destruct o2 as [r|e2]; simpl; intros H; injection H as <- <-; simpl;
        eexists _, [_; _]; rewrite <- ?app_assoc; simpl;
        repeat (split; [reflexivity || (simpl; lia)|]); auto; discriminate.
    + destruct (startSession env personaId w) as [o2 w2] eqn:Es.
      destruct o2 as [r|e2]; simpl; intros H; injection H as <- <-; simpl;
        eexists _, [_; _]; rewrite <- ?app_assoc; simpl;
        repeat (split; [reflexivity || (simpl; lia)|]); auto; discriminate.
  - destruct (startSession env personaId (world s)) as [o2 w2] eqn:Es.
    destruct o2 as [r|e2]; simpl; intros H; injection H as <- <-; simpl;
      eexists _, [_]; simpl;
      repeat (split; [reflexivity || (simpl; lia)|]); auto; discriminate.
Qed.

(** The outcomes of step 5. *)
Lemma synthesize_detail (s s1 : St W) (reply : jsstring)
      (c : Completion (option jsstring)) :
  synthesize env personaId reply s = (c, s1) ->
  interviewTurns s1 = interviewTurns s
  /\ error s1 = error s
  /\ ((truthy_str reply = false /\ c = Normal None /\ apiLog s1 = apiLog s
       /\ userBlobUrlsRef s1 = userBlobUrlsRef s)
      \/ (truthy_str reply = true
          /\ exists o,
              apiLog s1 = apiLog s ++ [EvGenerateTTS reply personaId o]
              /\ ((exists e, o = Rejected e /\ c = Throw e
                             /\ userBlobUrlsRef s1 = userBlobUrlsRef s)
                  \/ (exists t,
                       o = Resolved t
                       /\ ((truthy_ostr (audio_base64 t) = true
                            /\ atob env (or_empty (audio_base64 t)) = None
                            /\ (exists e, c = Throw e)
                            /\ userBlobUrlsRef s1 = userBlobUrlsRef s)
                           \/ (truthy_ostr (audio_base64 t) = true
                               /\ atob env (or_empty (audio_base64 t)) <> None
                               /\ exists u, c = Normal (Some u)
                                    /\ userBlobUrlsRef s1 = userBlobUrlsRef s ++ [u])
                           \/ (truthy_ostr (audio_base64 t) = false
                               /\ c = Normal (if truthy_ostr (audio_url t)
                                              then audio_url t else None)
                               /\ userBlobUrlsRef s1 = userBlobUrlsRef s)))))).
Proof.
  unfold synthesize.
  destruct (truthy_str reply) eqn:Hr.
  2: { unfold ret. intros H. injection H as <- <-.
       repeat (split; [reflexivity|]). left. auto. }
  unfold call_generateTTS, base64ToBlob, call_createObjectURL. unfold_m.
  destruct (generateTTS env reply personaId (world s)) as [o w] eqn:Eg.
  destruct o as [t|e]; simpl.
  - destruct (truthy_ostr (audio_base64 t)) eqn:Hb.
    + destruct (atob env (or_empty (audio_base64 t))) as [chars|] eqn:Ea; simpl.
      * destruct (createObjectURL env _ w) as [u w2] eqn:Ec. simpl.
        intros H. injection H as <- <-. simpl.
        repeat (split; [reflexivity|]).
        right. split; [reflexivity|]. eexists. split; [reflexivity|].
        right. eexists. split; [reflexivity|]. right. left.
        split; [assumption|]. split; [rewrite Ea; discriminate|].
        exists u. split; reflexivity.
      * intros H. injection H as <- <-. simpl.
        repeat (split; [reflexivity|]).
        right. split; [reflexivity|]. eexists. split; [reflexivity|].
        right. eexists. split; [reflexivity|]. left. eauto.
    + destruct (truthy_ostr (audio_url t)) eqn:Hu; simpl;
        intros H; injection H as <- <-; simpl;
        repeat (split; [reflexivity|]);
        right; (split; [reflexivity|]); eexists; (split; [reflexivity|]);
        right; eexists; (split; [reflexivity|]); right; right;
        rewrite ?Hu; auto.
  - intros H. injection H as <- <-. simpl.
    repeat (split; [reflexivity|]).
    right. split; [reflexivity|]. eexists. split; [reflexivity|].
    left. eauto.
Qed.

(** [playAudio] leaves the turns, the API log, the error and the
    recorded object URLs alone. *)
Lemma playAudio_keeps (s s1 : St W) (url key : jsstring) (c : Completion unit) :
  playAudio env url key s = (c, s1) ->
  c = Normal tt
  /\ interviewTurns s1 = interviewTurns s /\ apiLog s1 = apiLog s
  /\ error s1 = error s /\ userBlobUrlsRef s1 = userBlobUrlsRef s
  /\ sessionIdRef s1 = sessionIdRef s.
Proof.
  unfold playAudio, stopCurrentAudio, pause_current, seekZero_current, play_current,
    hasCurrentAudio.
  unfold_m.
  destruct (truthy_str url); simpl.
  2: { intros H. injection H as <- <-. repeat split; reflexivity. }
  unfold ret.
  destruct (currentAudioRef s) as [a|] eqn:E;
    destruct (str_eqb (currentAudioUrlRef s) url); simpl;
    repeat first
      [ rewrite E
      | progress simpl
      | match goal with
        | |- context [audio_play env ?x ?y] =>
            destruct (audio_play env x y) as [[[]|?] ?]
        end ];
    intros H; injection H as <- <-; repeat split; reflexivity.
Qed.

#[local] Arguments ensureSession : simpl never.
#[local] Arguments synthesize : simpl never.
#[local] Arguments playAudio : simpl never.
#[local] Arguments patchTurn : simpl never.
#[local] Arguments baseTurn : simpl never.

(** Every run of the pipeline, stage by stage: the calls made, the
    turn sequence, the error and the object URLs recorded. *)
Lemma processAudio_paths (s s' : St W) (blob : Blob) (url : jsstring)
      (c : Completion unit) :
  processAudio env personaId blob url s = (c, s') ->
  exists dsess,
    forallb isSessionEvent dsess = true
    /\ List.length dsess <= 2
    /\ ((* no session *)
        (apiLog s' = apiLog s ++ dsess
         /\ interviewTurns s' = interviewTurns s
         /\ userBlobUrlsRef s' = userBlobUrlsRef s
         /\ error s' = lit "Could not start interview session.")
        \/ (* transcription rejected *)
        (exists e,
           apiLog s' = apiLog s ++ dsess ++ [EvUploadAudio blob (Rejected e)]
           /\ interviewTurns s' = interviewTurns s
           /\ userBlobUrlsRef s' = userBlobUrlsRef s
           /\ error s' = lit "Failed to process audio")
        \/ (* nothing said *)
        (exists tr,
           apiLog s' = apiLog s ++ dsess ++ [EvUploadAudio blob (Resolved tr)]
           /\ truthy_str (trim (or_empty tr)) = false
           /\ interviewTurns s' = interviewTurns s
           /\ userBlobUrlsRef s' = userBlobUrlsRef s
           /\ error s' = lit "No speech detected. Please try again.")
        \/ (* a turn is created *)
        (exists tr sid tid ts,
           truthy_str (trim (or_empty tr)) = true
           /\ truthy_str sid = true
           /\ ((exists e,
                  apiLog s' = apiLog s ++ dsess
                              ++ [EvUploadAudio blob (Resolved tr);
                                  EvGetPersonaReply personaId (trim (or_empty tr)) sid
                                    (Rejected e)]
                  /\ interviewTurns s'
                     = interviewTurns s ++ [baseTurn tid (trim (or_empty tr)) url ts]
                  /\ userBlobUrlsRef s' = userBlobUrlsRef s
                  /\ error s' = lit "Failed to process audio")
               \/ (exists rr o,
                    apiLog s' = apiLog s ++ dsess
                                ++ [EvUploadAudio blob (Resolved tr);
                                    EvGetPersonaReply personaId (trim (or_empty tr)) sid
                                      (Resolved rr);
                                    EvGenerateTTS (trim (or_empty (reply rr)))
                                      personaId o]
                    /\ ((exists e, o = Rejected e)
                        \/ (exists t, o = Resolved t
                            /\ truthy_ostr (audio_base64 t) = true
                            /\ atob env (or_empty (audio_base64 t)) = None))
                    /\ interviewTurns s'
                       = interviewTurns s ++ [baseTurn tid (trim (or_empty tr)) url ts]
                    /\ userBlobUrlsRef s' = userBlobUrlsRef s
                    /\ error s' = lit "Failed to process audio")
               \/ (exists rr dtts audio created,
                    apiLog s' = apiLog s ++ dsess
                                ++ [EvUploadAudio blob (Resolved tr);
                                    EvGetPersonaReply personaId (trim (or_empty tr)) sid
                                      (Resolved rr)]
                                ++ dtts
                    /\ interviewTurns s'
                       = patchTurn tid (trim (or_empty (reply rr))) audio
                           (reply_turn_number rr)
                           (interviewTurns s
                              ++ [baseTurn tid (trim (or_empty tr)) url ts])
                    /\ userBlobUrlsRef s' = userBlobUrlsRef s ++ created
                    /\ error s' = error s
                    /\ ((dtts = [] /\ audio = None /\ created = []
                         /\ truthy_str (trim (or_empty (reply rr))) = false)
                        \/ (exists t,
                             dtts = [EvGenerateTTS (trim (or_empty (reply rr)))
                                       personaId (Resolved t)]
                             /\ truthy_str (trim (or_empty (reply rr))) = true
                             /\ ((truthy_ostr (audio_base64 t) = true
                                  /\ atob env (or_empty (audio_base64 t)) <> None
                                  /\ exists u, audio = Some u /\ created = [u])
                                 \/ (truthy_ostr (audio_base64 t) = false
                                     /\ created = []
                                     /\ audio = if truthy_ostr (audio_url t)
                                                then audio_url t else None)))))))).
Proof.
  unfold processAudio. unfold_m. simpl.
  destruct (ensureSession env personaId (setProcessing true s)) as [c1 s1] eqn:E1.
  apply ensureSession_detail in E1
    as (sid & dsess & -> & Hl1 & Hs & _ & Hlen1 & Ht1 & Hb1 & _ & Hheld).
  simpl in Ht1, Hl1, Hb1.
  intros Hrun. exists dsess. split; [assumption|]. split; [assumption|].
  revert Hrun.
  destruct (truthy_ostr sid) eqn:Hsid; simpl.
  2: { intros H. injection H as <- <-. simpl. left. auto. }
  destruct (Hheld eq_refl) as [_ He1]. simpl in He1.
  assert (Hsidv : truthy_str (or_empty sid) = true).
  { destruct sid as [i|]; [|discriminate]. simpl in Hsid.
    unfold or_empty. now rewrite Hsid. }
  unfold call_uploadAudio. unfold_m.
  destruct (uploadAudio env blob (world s1)) as [ou w2] eqn:Eu.
  destruct ou as [tr|e]; simpl.
  2: { intros H. injection H as <- <-. simpl.
       right. left. exists e. rewrite Hl1, Ht1, Hb1, <- app_assoc. auto. }
  destruct (truthy_str (trim (or_empty tr))) eqn:Htext; simpl.
  2: { intros H. injection H as <- <-. simpl.
       right. right. left. exists tr. rewrite Hl1, Ht1, Hb1, <- app_assoc. auto. }
  unfold makeTurnId, newDateISO, call_getPersonaReply. unfold_m. simpl.
  match goal with |- context [makeTurnId_raw env ?w] =>
    destruct (makeTurnId_raw env w) as [tid w3] eqn:Em end. simpl.
  match goal with |- context [nowISOString env ?w] =>
    destruct (nowISOString env w) as [ts w4] eqn:En end. simpl.
  match goal with |- context [getPersonaReply env ?p ?t ?i ?w] =>
    destruct (getPersonaReply env p t i w) as [orr w5] eqn:Er end.
  intros H. right. right. right.
  exists tr, (or_empty sid), tid, ts. split; [assumption|]. split; [assumption|].
  revert H.
  destruct orr as [rr|e]; simpl.
  2: { intros H. injection H as <- <-. simpl.
       left. exists e. rewrite Hl1, Ht1, Hb1, <- !app_assoc. auto. }
  match goal with |- context [synthesize env personaId ?r ?x] =>
    destruct (synthesize env personaId r x) as [ca s6] eqn:Esy end.
  apply synthesize_detail in Esy as (Ht6 & He6 & Hsy). simpl in Ht6, He6, Hsy.
  destruct Hsy as [(Hr & -> & Hl6 & Hb6) | (Hr & o & Hl6 & Ho)].
  - simpl. intros H. injection H as <- <-. simpl.
    right. right. exists rr, [], None, [].
    rewrite Hl6, Ht6, He6, Hb6, Hl1, Ht1, Hb1, He1, app_nil_r, <- !app_assoc. simpl.
    repeat (split; [reflexivity|]). left. auto.
  - destruct Ho as [(e & -> & -> & Hb6)
                   | (t & -> & [(Hb & Ha & (e & ->) & Hb6)
                               | [(Hb & Ha & u & -> & Hb6) | (Hb & -> & Hb6)]])].
    + simpl. intros H. injection H as <- <-. simpl.
      right. left. exists rr, (Rejected e).
      rewrite Hl6, Ht6, Hb6, Hl1, Ht1, Hb1, <- !app_assoc. simpl. eauto 10.
    + simpl. intros H. injection H as <- <-. simpl.
      right. left. exists rr, (Resolved t).
      rewrite Hl6, Ht6, Hb6, Hl1, Ht1, Hb1, <- !app_assoc. simpl. eauto 12.
    + (* inline audio, decoded *)
      change (truthy_ostr (Some u)) with (truthy_str u).
      match goal with |- context [(if truthy_str u then _ else _) ?x] =>
        destruct ((if truthy_str u
                   then playAudio env (or_empty (Some u)) (112%N :: 45%N :: tid)
                   else fun s9 : St W => (Normal tt, s9)) x) as [c7 s8] eqn:Ep end.
      assert (Hp : c7 = Normal tt /\ interviewTurns s8
                   = patchTurn tid (trim (or_empty (reply rr))) (Some u)
                       (reply_turn_number rr) (interviewTurns s6)
                   /\ apiLog s8 = apiLog s6 /\ error s8 = error s6
                   /\ userBlobUrlsRef s8 = userBlobUrlsRef s6).
      { destruct (truthy_str u).
        - apply playAudio_keeps in Ep as (-> & Ht8 & Hl8 & He8 & Hb8 & _).
          rewrite Ht8, Hl8, He8, Hb8. auto.
        - injection Ep as <- <-. auto. }
      destruct Hp as (-> & Ht8 & Hl8 & He8 & Hb8).
      simpl. intros H. injection H as <- <-. simpl.
      right. right.
      exists rr, [EvGenerateTTS (trim (or_empty (reply rr))) personaId (Resolved t)],
             (Some u), [u].
      rewrite Hl8, Ht8, He8, Hb8, Hl6, Ht6, He6, Hb6, Hl1, Ht1, Hb1, He1,
        <- !app_assoc. simpl.
      repeat (split; [reflexivity|]). right. exists t.
      split; [reflexivity|]. split; [assumption|]. left. eauto.
    + (* a URL, or no audio at all *)
      set (audio := if truthy_ostr (audio_url t) then audio_url t else None) in *.
      match goal with |- context [(if truthy_ostr audio then _ else _) ?x] =>
        destruct ((if truthy_ostr audio
                   then playAudio env (or_empty audio) (112%N :: 45%N :: tid)
                   else fun s9 : St W => (Normal tt, s9)) x) as [c7 s8] eqn:Ep end.
      assert (Hp : c7 = Normal tt /\ interviewTurns s8
                   = patchTurn tid (trim (or_empty (reply rr))) audio
                       (reply_turn_number rr) (interviewTurns s6)
                   /\ apiLog s8 = apiLog s6 /\ error s8 = error s6
                   /\ userBlobUrlsRef s8 = userBlobUrlsRef s6).
      { destruct (truthy_ostr audio).
        - apply playAudio_keeps in Ep as (-> & Ht8 & Hl8 & He8 & Hb8 & _).
          rewrite Ht8, Hl8, He8, Hb8. auto.
        - injection Ep as <- <-. auto. }
      destruct Hp as (-> & Ht8 & Hl8 & He8 & Hb8).
      simpl. intros H. injection H as <- <-. simpl.
      right. right.
      exists rr, [EvGenerateTTS (trim (or_empty (reply rr))) personaId (Resolved t)],
             audio, [].
      rewrite Hl8, Ht8, He8, Hb8, Hl6, Ht6, He6, Hb6, Hl1, Ht1, Hb1, He1,
        app_nil_r, <- !app_assoc. simpl.
      repeat (split; [reflexivity|]). right. exists t.
      split; [reflexivity|]. split; [assumption|]. right. auto.
Qed.

End WithWorld.

End PipelinePaths.

(** ** The turn sequence over a run *)

Module TurnSequenceFacts.
Import Interview.
Import SessionFacts PipelineFacts PipelinePaths.

#[local] Arguments trim : simpl never.
#[local] Arguments or_empty : simpl never.
#[local] Arguments lit : simpl never.
#[local] Arguments patchTurn : simpl never.
#[local] Arguments findIndex : simpl never.

(** Splits a membership in the requests of a run into its cases, the
    session requests [Hsess] being set aside. *)
Ltac in_requests H Hsess :=
  rewrite ?in_app_iff in H; simpl in H;
  repeat match type of H with
         | _ \/ _ => destruct H as [H|H]
         end;
  try (apply Hsess in H; discriminate H);
  try discriminate H; try contradiction.

Section WithWorld.

Variable W : Type.
Variable env : Env W.
Variable personaId : jsstring.

(** C9. The requests of a run decide what happens to the turn sequence.
    A run that asks for no persona reply leaves the sequence as it was.
    A run that asks for one has appended exactly one turn [b] at the end,
    holding the text sent with the request and the recording's URL, with
    an empty reply and no audio.  When the reply request or the speech
    synthesis fails, [b] stays as it is and the run changes nothing
    else.  When both succeed, the update of step 6 changes one element
    only, the first one whose id is the id generated for [b]: the length
    is that of the old sequence plus one, every other position holds
    what it held, the element keeps its id, student fields and
    timestamp, and receives the trimmed reply of this run, the audio
    reference of this run and the turn number (the server's, or the
    element's position counted from one).  That element is [b] itself
    when the generated id is not the id of an earlier turn. *)
Theorem turns_append_only :
  forall (s s' : St W) (blob : Blob) (url : jsstring) (c : Completion unit)
         (delta : list ApiEvent),
    processAudio env personaId blob url s = (c, s') ->
    apiLog s' = apiLog s ++ delta ->
    ((forall p q sid o, ~ In (EvGetPersonaReply p q sid o) delta) ->
     interviewTurns s' = interviewTurns s)
    /\ (forall p q sid o,
          In (EvGetPersonaReply p q sid o) delta ->
          exists b,
            student_question b = q
            /\ student_audio_url b = or_null url
            /\ persona_response b = []
            /\ persona_audio_url b = None
            /\ turn_number b = None
            /\ ((exists e, o = Rejected e)
                \/ (exists x p' e, In (EvGenerateTTS x p' (Rejected e)) delta)
                \/ (exists x p' t,
                      In (EvGenerateTTS x p' (Resolved t)) delta
                      /\ truthy_ostr (audio_base64 t) = true
                      /\ atob env (or_empty (audio_base64 t)) = None) ->
                interviewTurns s' = interviewTurns s ++ [b])
            /\ (forall rr,
                  o = Resolved rr ->
                  (forall x p' o',
                     In (EvGenerateTTS x p' o') delta ->
                     exists t,
                       o' = Resolved t
                       /\ (truthy_ostr (audio_base64 t) = true ->
                           atob env (or_empty (audio_base64 t)) <> None)) ->
                  exists idx t t',
                    let l := interviewTurns s ++ [b] in
                    findIndex (id b) l = Some idx
                    /\ nth_error l idx = Some t
                    /\ id t = id b
                    /\ List.length (interviewTurns s')
                       = S (List.length (interviewTurns s))
                    /\ (forall i, i <> idx ->
                          nth_error (interviewTurns s') i = nth_error l i)
                    /\ nth_error (interviewTurns s') idx = Some t'
                    /\ id t' = id t
                    /\ student_question t' = student_question t
                    /\ student_audio_url t' = student_audio_url t
                    /\ timestamp t' = timestamp t
                    /\ persona_response t' = trim (or_empty (reply rr))
                    /\ turn_number t'
                       = Some (or_num (reply_turn_number rr) (Z.of_nat idx + 1))
                    /\ ((forall x p' o', ~ In (EvGenerateTTS x p' o') delta) ->
                        persona_audio_url t' = None)
                    /\ (forall x p' ttsResult,
                          In (EvGenerateTTS x p' (Resolved ttsResult)) delta ->
                          if truthy_ostr (audio_base64 ttsResult)
                          then exists u,
                                 persona_audio_url t' = Some u
                                 /\ In u (userBlobUrlsRef s')
                          else persona_audio_url t'
                               = if truthy_ostr (audio_url ttsResult)
                                 then audio_url ttsResult else None)
                    /\ (~ In (id b) (List.map id (interviewTurns s)) ->
                        idx = List.length (interviewTurns s) /\ t = b))).
Proof.
  intros s s' blob url c delta Hrun Hlog.
  apply processAudio_paths in Hrun as (dsess & Hs & Hlen2 & Hcase).
  assert (Hsess : forall e, In e dsess -> isSessionEvent e = true).
  { intros e. apply session_event_in. exact Hs. }
  destruct Hcase as [(Hl & Ht & _)
                    | [(e & Hl & Ht & _)
                      | [(tr & Hl & _ & Ht & _)
                        | (tr & sid0 & tid & ts & Htext & _ & Hrest)]]].
  - (* no session *)
    rewrite Hlog in Hl. apply app_inv_head in Hl. subst delta.
    split; [intros _; exact Ht|].
    intros p q sid o Hin. exfalso. in_requests Hin Hsess.
  - (* transcription rejected *)
    rewrite Hlog in Hl. apply app_inv_head in Hl. subst delta.
    split; [intros _; exact Ht|].
    intros p q sid o Hin. exfalso. in_requests Hin Hsess.
  - (* nothing said *)
    rewrite Hlog in Hl. apply app_inv_head in Hl. subst delta.
    split; [intros _; exact Ht|].
    intros p q sid o Hin. exfalso. in_requests Hin Hsess.
  - (* a turn was created *)
    set (b := baseTurn tid (trim (or_empty tr)) url ts) in *.
    destruct Hrest as [(e & Hl & Ht & _)
                      | [(rr & o1 & Hl & Ho1 & Ht & _)
                        | (rr & dtts & audio & created & Hl & Ht & Hb & _ & Hd)]];
      rewrite Hlog in Hl; apply app_inv_head in Hl; subst delta.
    + (* the reply request was rejected *)
      split.
      { intros Hno. exfalso.
        apply (Hno personaId (trim (or_empty tr)) sid0 (Rejected e)).
        rewrite in_app_iff. right. simpl. auto. }
      intros p q sid o Hin. in_requests Hin Hsess.
      injection Hin as <- <- <- <-.
      exists b. repeat (split; [reflexivity|]).
      split; [intros _; exact Ht|].
      intros rr Ho. discriminate Ho.
    + (* the synthesis failed *)
      split.
      { intros Hno. exfalso.
        apply (Hno personaId (trim (or_empty tr)) sid0 (Resolved rr)).
        rewrite in_app_iff. right. simpl. auto. }
      intros p q sid o Hin. in_requests Hin Hsess.
      injection Hin as <- <- <- <-.
      exists b. repeat (split; [reflexivity|]).
      split; [intros _; exact Ht|].
      intros rr' Ho Hall. exfalso.
      destruct (Hall (trim (or_empty (reply rr))) personaId o1) as (t & Eo & Hdec).
      { rewrite in_app_iff. right. simpl. auto. }
      destruct Ho1 as [(e & ->) | (t1 & -> & Hb64 & Hatob)].
      * discriminate Eo.
      * injection Eo as <-. exact (Hdec Hb64 Hatob).
    + (* reply and synthesis succeeded: the patch *)
      split.
      { intros Hno. exfalso.
        apply (Hno personaId (trim (or_empty tr)) sid0 (Resolved rr)).
        rewrite !in_app_iff. right. left. simpl. auto. }
      intros p q sid o Hin.
      assert (Eev : EvGetPersonaReply personaId (trim (or_empty tr)) sid0 (Resolved rr)
                    = EvGetPersonaReply p q sid o).
      { destruct Hd as [(-> & _) | (t & -> & _)]; in_requests Hin Hsess;
          exact Hin. }
      clear Hin. injection Eev as <- <- <- <-.
      exists b. repeat (split; [reflexivity|]).
      split.
      { (* no stage failed *)
        intros Hfail. exfalso.
        destruct Hfail as [(e & He) | [(x & p' & e & Hin) | (x & p' & t & Hin & Hb64 & Hatob)]].
        - discriminate He.
        - destruct Hd as [(-> & _) | (t & -> & _)]; in_requests Hin Hsess.
        - destruct Hd as [(-> & _) | (t0 & -> & _ & Hkind)]; in_requests Hin Hsess.
          injection Hin as _ _ <-.
          destruct Hkind as [(_ & Hok & _) | (Hno64 & _)].
          + exact (Hok Hatob).
          + rewrite Hno64 in Hb64. discriminate Hb64. }
      intros rr' Ho _. injection Ho as <-.
      set (l := interviewTurns s ++ [b]) in *.
      assert (Hidb : id b = tid) by reflexivity.
      destruct (findIndex_appended b (interviewTurns s)) as (idx & Hf & Hle & Hfresh).
      fold l in Hf. rewrite Hidb in Hf, Hfresh.
      destruct (findIndex_Some _ _ _ Hf) as [(t & Hn & Hid) _].
      destruct (patchTurn_spec tid (trim (or_empty (reply rr))) audio
                  (reply_turn_number rr) l) as [Hlen Hnth].
      destruct (Hnth idx t Hn) as [_ Hpatched].
      destruct (Hpatched Hf) as (_ & t' & Hn' & H1 & H2 & H3 & H4 & H5 & H6 & H7).
      exists idx, t, t'. cbv zeta. fold l. rewrite Ht, Hidb.
      split; [exact Hf|]. split; [exact Hn|]. split; [exact Hid|].
      split. { rewrite Hlen. unfold l. rewrite length_app. simpl. lia. }
      split.
      { intros i Hi. destruct (nth_error l i) as [u|] eqn:Hu.
        - destruct (Hnth i u Hu) as [Hkeep _].
          apply Hkeep. congruence.
        - apply nth_error_None. rewrite Hlen. now apply nth_error_None. }
      split; [exact Hn'|]. split; [exact H1|]. split; [exact H2|].
      split; [exact H3|]. split; [exact H4|]. split; [exact H5|].
      split; [exact H7|].
      split.
      { (* no synthesis request *)
        intros Hno. rewrite H6.
        destruct Hd as [(_ & -> & _) | (t0 & -> & _)]; [reflexivity|].
        exfalso.
        apply (Hno (trim (or_empty (reply rr))) personaId (Resolved t0)).
        rewrite !in_app_iff. right. right. simpl. auto. }
      split.
      { (* the audio reference *)
        intros x p' ttsResult Hin. rewrite H6.
        destruct Hd as [(-> & _) | (t0 & -> & _ & Hkind)]; in_requests Hin Hsess.
        injection Hin as _ _ <-.
        destruct Hkind as [(Hb64 & _ & u & -> & ->) | (Hno64 & _ & ->)].
        - rewrite Hb64. exists u. split; [reflexivity|].
          rewrite Hb, in_app_iff. right. simpl. auto.
        - rewrite Hno64. reflexivity. }
      intros Hn0. specialize (Hfresh Hn0).
      split; [exact Hfresh|]. subst idx. unfold l in Hn.
      rewrite nth_error_last in Hn. congruence.
Qed.

End WithWorld.

Import Scenario.

(** On the run of [allGood]: the turn appended for ["Hello"] is the one
    patched, with the reply and the audio reference of that run. *)
Lemma turns_append_only_witness :
  let s := inSession in
  let s' := snd (pipelineRun allGood) in
  exists b idx t t',
    student_question b = lit "Hello"
    /\ findIndex (id b) (interviewTurns s ++ [b]) = Some idx
    /\ nth_error (interviewTurns s ++ [b]) idx = Some t
    /\ List.length (interviewTurns s') = S (List.length (interviewTurns s))
    /\ nth_error (interviewTurns s') idx = Some t'
    /\ id t' = id t
    /\ student_question t' = student_question t
    /\ persona_response t' = trim (or_empty (Some (lit "Good question")))
    /\ persona_audio_url t' = Some (lit "https://cdn/a.mp3")
    /\ turn_number t' = Some (or_num (Some 1%Z) (Z.of_nat idx + 1)).
Proof.
  intros s s'.
  pose (rr := {| reply := Some (lit "Good question");
                 reply_turn_number := Some 1%Z |}).
  pose (tts := {| audio_base64 := None;
                  audio_url := Some (lit "https://cdn/a.mp3") |}).
  pose (delta := [EvCheckSessionStatus (lit "s1") (Resolved true);
                  EvUploadAudio recording (Resolved (Some (lit "Hello")));
                  EvGetPersonaReply p42 (lit "Hello") (lit "s1") (Resolved rr);
                  EvGenerateTTS (lit "Good question") p42 (Resolved tts)]).
  assert (Hrun : processAudio (scripted allGood) p42 recording (lit "blob:user-1") s
                 = (fst (pipelineRun allGood), s'))
    by (vm_compute; reflexivity).
  assert (Hlog : apiLog s' = apiLog s ++ delta) by (vm_compute; reflexivity).
  destruct (turns_append_only nat (scripted allGood) p42 s s' recording
              (lit "blob:user-1") (fst (pipelineRun allGood)) delta Hrun Hlog)
    as [_ Hreq].
  destruct (Hreq p42 (lit "Hello") (lit "s1") (Resolved rr))
    as (b & Hq & _ & _ & _ & _ & _ & Hpatch).
  { simpl. right. right. left. reflexivity. }
  destruct (Hpatch rr eq_refl)
    as (idx & t & t' & Hf & Hn & _ & Hlen & _ & Hn' & Hid & Hsq & _ & _ & Hr
        & Htn & _ & Haudio & _).
  { intros x p' o' Hin. simpl in Hin.
    destruct Hin as [Hin|[Hin|[Hin|[Hin|[]]]]]; try discriminate Hin.
    injection Hin as _ _ <-. exists tts. split; [reflexivity|].
    intros Hb64. discriminate Hb64. }
  specialize (Haudio (lit "Good question") p42 tts).
  exists b, idx, t, t'.
  split; [exact Hq|]. split; [exact Hf|]. split; [exact Hn|].
  split; [exact Hlen|]. split; [exact Hn'|]. split; [exact Hid|].
  split; [exact Hsq|]. split; [exact Hr|].
  split; [|exact Htn].
  apply Haudio. simpl. right. right. right. left. reflexivity.
Defined.

End TurnSequenceFacts.

(** ** The turn pipeline: what every run guarantees *)

Module PipelineMore.
Import Interview.
Import SessionFacts PipelineFacts PipelinePaths.

Lemma assign_map {B} (f : Turn -> B) (l : list Turn) :
  forall i v t,
    nth_error l i = Some t -> f v = f t ->
    List.map f (assign i v l) = List.map f l.
Proof.
  induction l as [|x l IH]; intros [|i] v t Hn Hf; simpl in *; try discriminate.
  - injection Hn as ->. now rewrite Hf.
  - f_equal. eapply IH; eauto.
Qed.

(** The updater of step 6 changes neither an id nor a student text. *)
Lemma patchTurn_keeps (tid reply : jsstring) (audio : option jsstring) (tn : option Z)
      (l : list Turn) :
  List.map id (patchTurn tid reply audio tn l) = List.map id l
  /\ List.map student_question (patchTurn tid reply audio tn l)
     = List.map student_question l.
Proof.
  unfold patchTurn.
  destruct (findIndex tid l) as [idx|]; [|split; reflexivity].
  destruct (nth_error l idx) as [t|] eqn:Hn; [|split; reflexivity].
  split; eapply assign_map; eauto.
Qed.

Lemma hasQuestion_by_text (l l' : list Turn) :
  List.map student_question l' = List.map student_question l ->
  Forall AppShell.hasQuestion l -> Forall AppShell.hasQuestion l'.
Proof.
  revert l'. induction l as [|t l IH]; intros [|t' l'] Hm H; simpl in Hm;
    try discriminate; [constructor|].
  injection Hm as Ht Hl. inversion H as [|? ? Hq Hrest]; subst.
  constructor; [|now apply IH].
  unfold AppShell.hasQuestion in *. now rewrite Ht.
Qed.

Lemma assign_last (prev : list Turn) (b v : Turn) :
  assign (List.length prev) v (prev ++ [b]) = prev ++ [v].
Proof. induction prev as [|t prev IH]; simpl; [reflexivity | now rewrite IH]. Qed.

(** Patching right after appending a turn whose id is new rewrites the
    appended turn and nothing else. *)
Lemma patchTurn_fresh (prev : list Turn) (b : Turn) (reply : jsstring)
      (audio : option jsstring) (tn : option Z) :
  ~ In (id b) (List.map id prev) ->
  patchTurn (id b) reply audio tn (prev ++ [b])
  = prev ++ [ {| id := id b;
                 student_question := student_question b;
                 student_audio_url := student_audio_url b;
                 persona_response := reply;
                 persona_audio_url := audio;
                 timestamp := timestamp b;
                 turn_number :=
                   Some (or_num tn (Z.of_nat (List.length prev) + 1)) |} ].
Proof.
  intros Hfresh. unfold patchTurn.
  destruct (findIndex_appended b prev) as (idx & -> & _ & Hidx).
  rewrite (Hidx Hfresh), nth_error_last. apply assign_last.
Qed.

(** After the patch of an appended turn, some turn carries the reply
    and the audio reference given. *)
Lemma patchTurn_lands (prev : list Turn) (b : Turn) (reply : jsstring)
      (audio : option jsstring) (tn : option Z) :
  exists t',
    In t' (patchTurn (id b) reply audio tn (prev ++ [b]))
    /\ persona_response t' = reply /\ persona_audio_url t' = audio.
Proof.
  destruct (findIndex_appended b prev) as (idx & Hf & _ & _).
  destruct (findIndex_Some _ _ _ Hf) as [(t & Hn & _) _].
  destruct (patchTurn_spec (id b) reply audio tn (prev ++ [b])) as [_ Hnth].
  destruct (Hnth idx t Hn) as [_ Hp].
  destruct (Hp Hf) as (_ & t' & Hn' & _ & _ & _ & _ & Hr & Ha & _).
  exists t'. split; [eapply nth_error_In; eauto | auto].
Qed.

Section WithWorld.

Variable W : Type.
Variable env : Env W.
Variable personaId : jsstring.


(** X7. When no session id is held and the start-session request is
    rejected, or resolves without a usable id, the pipeline stops before
    transcription: the only call made is the start-session one, the turn
    sequence is unchanged, and the error left for the user is ['Could not
    start interview session.'], which replaces the one set by
    [initializeSession]. *)
Theorem no_session_no_transcription :
  forall (s : St W) (blob : Blob) (url : jsstring) (o : Outcome (option jsstring)),
    truthy_ostr (sessionIdRef s) = false ->
    fst (startSession env personaId (world s)) = o ->
    match o with
    | Resolved r => truthy_ostr r = false
    | Rejected _ => True
    end ->
    let s' := snd (processAudio env personaId blob url s) in
    apiLog s' = apiLog s ++ [EvStartSession personaId o]
    /\ interviewTurns s' = interviewTurns s
    /\ error s' = lit "Could not start interview session."
    /\ processing s' = false.
Proof.
  intros s blob url o Hheld Ho Hbad.
  unfold processAudio, ensureSession, initializeSession, call_startSession.
  unfold_m. simpl. rewrite Hheld. simpl.
  destruct (startSession env personaId (world s)) as [o' w] eqn:Es.
  simpl in Ho. subst o'.
  destruct o as [r|e]; simpl.
  - rewrite Hbad. simpl. repeat split; reflexivity.
  - repeat split; reflexivity.
Qed.

(** X8. A run in which the transcription, the persona reply or the
    speech synthesis is rejected ends with the error ['Failed to process
    audio']; a run whose transcript is blank ends with ['No speech
    detected. Please try again.'] and asks for no persona reply. *)
Theorem pipeline_error_by_stage :
  forall (s s' : St W) (blob : Blob) (url : jsstring) (c : Completion unit)
         (delta : list ApiEvent),
    processAudio env personaId blob url s = (c, s') ->
    apiLog s' = apiLog s ++ delta ->
    ((exists b e, In (EvUploadAudio b (Rejected e)) delta)
     \/ (exists p q sid e, In (EvGetPersonaReply p q sid (Rejected e)) delta)
     \/ (exists x p e, In (EvGenerateTTS x p (Rejected e)) delta) ->
     error s' = lit "Failed to process audio")
    /\ (forall b tr,
          In (EvUploadAudio b (Resolved tr)) delta ->
          whitespace_only (or_empty tr) = true ->
          error s' = lit "No speech detected. Please try again."
          /\ forall p q sid r, ~ In (EvGetPersonaReply p q sid r) delta).
Proof.
  intros s s' blob url c delta Hrun Hlog.
  apply processAudio_paths in Hrun as (dsess & Hs & Hlen2 & Hcase).
  assert (Hsess : forall e, In e dsess -> isSessionEvent e = true).
  { intros e. apply session_event_in. exact Hs. }
  destruct Hcase as [(Hl & _ & _ & He)
                    | [(e & Hl & _ & _ & He)
                      | [(tr & Hl & Hblank & _ & _ & He)
                        | (tr & sid & tid & ts & Htext & _ & Hrest)]]].
  - (* no session *)
    rewrite Hlog in Hl. apply app_inv_head in Hl. subst delta. split.
    + intros [(b & e & H) | [(p & q & i & e & H) | (x & p & e & H)]];
        apply Hsess in H; discriminate H.
    + intros b tr H. apply Hsess in H. discriminate H.
  - rewrite Hlog in Hl. apply app_inv_head in Hl. subst delta. split.
    + intros _. exact He.
    + intros b tr H. apply in_app_iff in H as [H|[H|[]]].
      * apply Hsess in H. discriminate H.
      * discriminate H.
  - rewrite Hlog in Hl. apply app_inv_head in Hl. subst delta. split.
    + intros [(b & e & H) | [(p & q & i & e & H) | (x & p & e & H)]];
        apply in_app_iff in H as [H|[H|[]]];
        try (apply Hsess in H; discriminate H); discriminate H.
    + intros b tr' H Hws. split; [exact He|].
      intros p q i r Hr. apply in_app_iff in Hr as [Hr|[Hr|[]]];
        [apply Hsess in Hr|]; discriminate Hr.
  - assert (Hnb : forall b tr', In (EvUploadAudio b (Resolved tr'))
                                   [EvUploadAudio blob (Resolved tr)] ->
                                whitespace_only (or_empty tr') = true -> False).
    { intros b tr' [E|[]] Hws. injection E as _ <-.
      apply JSFacts.trim_nil_iff in Hws. rewrite Hws in Htext. discriminate. }
    destruct Hrest as [(e & Hl & _ & _ & He)
                      | [(rr & o & Hl & Ho & _ & _ & He)
                        | (rr & dtts & audio & created & Hl & _ & _ & _ & Hd)]];
      rewrite Hlog in Hl; apply app_inv_head in Hl; subst delta.
    + split; [intros _; exact He|].
      intros b tr' H Hws. exfalso.
      apply in_app_iff in H as [H|[H|[H|[]]]];
        [apply Hsess in H; discriminate H | | discriminate H].
      apply (Hnb b tr'); [now left | exact Hws].
    + split; [intros _; exact He|].
      intros b tr' H Hws. exfalso.
      apply in_app_iff in H as [H|[H|[H|[H|[]]]]];
        [apply Hsess in H; discriminate H | | discriminate H | discriminate H].
      apply (Hnb b tr'); [now left | exact Hws].
    + split.
      * intros Hrej. exfalso.
        destruct Hd as [(-> & _) | (t & -> & _)];
          destruct Hrej as [(b & e & H) | [(p & q & i & e & H) | (x & p & e & H)]];
          simpl in H; rewrite ?in_app_iff in H; simpl in H;
          repeat match type of H with _ \/ _ => destruct H as [H|H] end;
          try (apply Hsess in H; discriminate H); try discriminate H;
          try contradiction.
      * intros b tr' H Hws. exfalso.
        apply in_app_iff in H as [H|H]; [apply Hsess in H; discriminate H|].
        destruct H as [H|H]; [apply (Hnb b tr'); [now left | exact Hws]|].
        destruct Hd as [(-> & _) | (t & -> & _)]; simpl in H;
          repeat match type of H with _ \/ _ => destruct H as [H|H] end;
          try discriminate H; try contradiction.
Qed.

(** X9. In a run in which transcription, persona reply and speech
    synthesis all resolve, the synthesis result carrying no inline audio,
    and after which the ids of the turns are pairwise distinct, the final
    sequence is the old one followed by one complete turn: the trimmed
    transcript, the recording's URL, the trimmed reply, the URL returned
    by the synthesis (null when it returned none), and as turn number the
    server's when it is non-zero and otherwise the turn's position in the
    sequence, counted from one.  Such a run sets no error. *)
Theorem completed_turn_content :
  forall (s s' : St W) (blob b : Blob) (url p q sid x p' : jsstring)
         (c : Completion unit) (delta : list ApiEvent)
         (tr : option jsstring) (rr : ReplyResult) (t : TTSResult),
    processAudio env personaId blob url s = (c, s') ->
    apiLog s' = apiLog s ++ delta ->
    In (EvUploadAudio b (Resolved tr)) delta ->
    In (EvGetPersonaReply p q sid (Resolved rr)) delta ->
    In (EvGenerateTTS x p' (Resolved t)) delta ->
    truthy_ostr (audio_base64 t) = false ->
    NoDup (List.map id (interviewTurns s')) ->
    exists tid ts,
      interviewTurns s'
      = interviewTurns s
        ++ [ {| id := tid;
                student_question := trim (or_empty tr);
                student_audio_url := or_null url;
                persona_response := trim (or_empty (reply rr));
                persona_audio_url :=
                  if truthy_ostr (audio_url t) then audio_url t else None;
                timestamp := ts;
                turn_number :=
                  Some (or_num (reply_turn_number rr)
                          (Z.of_nat (List.length (interviewTurns s)) + 1)) |} ]
      /\ error s' = error s.
Proof.
  intros s s' blob b url p q sid x p' c delta tr rr t
         Hrun Hlog Hup Hrep Htts Hb64 Hnd.
  apply processAudio_paths in Hrun as (dsess & Hs & Hlen2 & Hcase).
  assert (Hsess : forall e, In e dsess -> isSessionEvent e = true).
  { intros e. apply session_event_in. exact Hs. }
  destruct Hcase as [(Hl & _)
                    | [(e & Hl & _)
                      | [(tr0 & Hl & _)
                        | (tr0 & sid0 & tid & ts & Htext & _ & Hrest)]]];
    try (exfalso; rewrite Hlog in Hl; apply app_inv_head in Hl; subst delta;
         rewrite ?in_app_iff in Hrep; simpl in Hrep;
         repeat match type of Hrep with _ \/ _ => destruct Hrep as [Hrep|Hrep] end;
         try (apply Hsess in Hrep; discriminate Hrep);
         try discriminate Hrep; contradiction).
  destruct Hrest as [(e & Hl & _)
                    | [(rr0 & o & Hl & Ho & _)
                      | (rr0 & dtts & audio & created & Hl & Ht & _ & He & Hd)]];
    rewrite Hlog in Hl; apply app_inv_head in Hl; subst delta.
  - exfalso. rewrite ?in_app_iff in Hrep; simpl in Hrep.
    repeat match type of Hrep with _ \/ _ => destruct Hrep as [Hrep|Hrep] end;
      try (apply Hsess in Hrep; discriminate Hrep); try discriminate Hrep;
      contradiction.
  - exfalso. rewrite ?in_app_iff in Htts; simpl in Htts.
    repeat match type of Htts with _ \/ _ => destruct Htts as [Htts|Htts] end;
      try (apply Hsess in Htts; discriminate Htts); try discriminate Htts;
      try contradiction.
    destruct Ho as [(e & ->) | (t0 & -> & Hb0 & _)]; [discriminate Htts|].
    injection Htts as _ _ ->. rewrite Hb0 in Hb64. discriminate.
  - assert (Hdtts : forall ev, In ev dtts ->
               exists t0, ev = EvGenerateTTS (trim (or_empty (reply rr0)))
                                 personaId (Resolved t0)
                          /\ dtts = [ev]).
    { intros ev Hev. destruct Hd as [(-> & _) | (t0 & -> & _)]; [contradiction|].
      destruct Hev as [<-|[]]. eauto. }
    assert (Htr : tr0 = tr).
    { rewrite ?in_app_iff in Hup; simpl in Hup.
      repeat match type of Hup with _ \/ _ => destruct Hup as [Hup|Hup] end;
        try (apply Hsess in Hup; discriminate Hup); try discriminate Hup;
        try contradiction; try (now injection Hup).
      apply Hdtts in Hup as (t0 & Hup & _). discriminate Hup. }
    assert (Hrr : rr0 = rr).
    { rewrite ?in_app_iff in Hrep; simpl in Hrep.
      repeat match type of Hrep with _ \/ _ => destruct Hrep as [Hrep|Hrep] end;
        try (apply Hsess in Hrep; discriminate Hrep); try discriminate Hrep;
        try contradiction; try (now injection Hrep).
      apply Hdtts in Hrep as (t0 & Hrep & _). discriminate Hrep. }
    subst tr0 rr0.
    assert (Haudio : audio = if truthy_ostr (audio_url t)
                             then audio_url t else None).
    { rewrite ?in_app_iff in Htts; simpl in Htts.
      repeat match type of Htts with _ \/ _ => destruct Htts as [Htts|Htts] end;
        try (apply Hsess in Htts; discriminate Htts); try discriminate Htts;
        try contradiction.
      destruct Hd as [(-> & _) | (t0 & -> & _ & Hkind)]; simpl in Htts;
        [contradiction|].
      destruct Htts as [Htts|[]]. injection Htts as _ _ ->.
      destruct Hkind as [(Hb0 & _) | (_ & _ & ->)]; [|reflexivity].
      rewrite Hb0 in Hb64. discriminate. }
    subst audio.
    set (base := baseTurn tid (trim (or_empty tr)) url ts) in *.
    assert (Hfresh : ~ In (id base) (List.map id (interviewTurns s))).
    { rewrite Ht in Hnd.
      destruct (patchTurn_keeps tid (trim (or_empty (reply rr)))
                  (if truthy_ostr (audio_url t) then audio_url t else None)
                  (reply_turn_number rr) (interviewTurns s ++ [base])) as [Hids _].
      rewrite Hids, map_app in Hnd. simpl in Hnd.
      apply NoDup_remove_2 in Hnd. rewrite app_nil_r in Hnd. exact Hnd. }
    change tid with (id base) in Ht.
    rewrite (patchTurn_fresh _ _ _ _ _ Hfresh) in Ht.
    exists tid, ts. split; [exact Ht | exact He].
Qed.

(** X10. A run of the pipeline never drops an object URL recorded for
    release at unmount and records at most one more; a URL it records is
    the persona audio reference of a turn of the final sequence. *)
Theorem object_urls_recorded :
  forall (s : St W) (blob : Blob) (url : jsstring),
    let s' := snd (processAudio env personaId blob url s) in
    exists created,
      userBlobUrlsRef s' = userBlobUrlsRef s ++ created
      /\ List.length created <= 1
      /\ forall u, In u created ->
           exists t', In t' (interviewTurns s') /\ persona_audio_url t' = Some u.
Proof.
  intros s blob url s'.
  destruct (processAudio env personaId blob url s) as [c s0] eqn:E.
  subst s'. simpl.
  apply processAudio_paths in E as (dsess & Hs & _ & Hcase).
  assert (Hnone : userBlobUrlsRef s0 = userBlobUrlsRef s ->
                  exists created,
                    userBlobUrlsRef s0 = userBlobUrlsRef s ++ created
                    /\ List.length created <= 1
                    /\ forall u, In u created ->
                         exists t', In t' (interviewTurns s0)
                                    /\ persona_audio_url t' = Some u).
  { intros H. exists []. rewrite app_nil_r. split; [exact H|].
    split; [simpl; lia | intros u []]. }
  destruct Hcase as [(_ & _ & Hb & _)
                    | [(e & _ & _ & Hb & _)
                      | [(tr0 & _ & _ & _ & Hb & _)
                        | (tr0 & sid0 & tid & ts & _ & _ & Hrest)]]]; auto.
  destruct Hrest as [(e & _ & _ & Hb & _)
                    | [(rr0 & o & _ & _ & _ & Hb & _)
                      | (rr0 & dtts & audio & created & _ & Ht & Hb & _ & Hd)]]; auto.
  exists created. split; [exact Hb|].
  destruct Hd as [(_ & _ & -> & _) | (t0 & _ & _ & [(_ & _ & u & -> & ->) | (_ & -> & _)])].
  - split; [simpl; lia | intros u []].
  - split; [simpl; lia|]. intros u' [<-|[]].
    set (base := baseTurn tid (trim (or_empty tr0)) url ts) in *.
    change tid with (id base) in Ht.
    destruct (patchTurn_lands (interviewTurns s) base
                (trim (or_empty (reply rr0))) (Some u) (reply_turn_number rr0))
      as (t' & Hin & _ & Ha).
    exists t'. rewrite Ht. auto.
  - split; [simpl; lia | intros u []].
Qed.

(** X11. If every turn has a non-empty, trimmed student text before a run
    of the pipeline, every turn has one after it: the run only appends
    turns with such a text and never rewrites a student text. *)
Theorem pipeline_keeps_questions :
  forall (s : St W) (blob : Blob) (url : jsstring),
    Forall AppShell.hasQuestion (interviewTurns s) ->
    Forall AppShell.hasQuestion (interviewTurns (snd (processAudio env personaId blob url s))).
Proof.
  intros s blob url Hinv.
  destruct (processAudio env personaId blob url s) as [c s'] eqn:E. simpl.
  apply processAudio_cases in E as (_ & _ & _ & dsess & _ & Hcase).
  assert (Hbase : forall tr tid ts,
             truthy_str (trim (or_empty tr)) = true ->
             Forall AppShell.hasQuestion
               (interviewTurns s ++ [baseTurn tid (trim (or_empty tr)) url ts])).
  { intros tr tid ts Htext. apply Forall_app. split; [exact Hinv|].
    constructor; [|constructor]. split; [exact Htext|].
    simpl. apply TrimFacts.trim_idem. }
  destruct Hcase as [(_ & ->) | [(o & _ & -> & _) | Hturn]]; auto.
  destruct Hturn as (tr & sid & tid & ts & Htext & Hrest).
  destruct Hrest as [(e & _ & -> & _)
                    | [(rr & o & _ & _ & _ & -> & _)
                      | (rr & dtts & audio & _ & _ & ->)]]; auto.
  eapply hasQuestion_by_text; [|apply (Hbase tr tid ts Htext)].
  apply patchTurn_keeps.
Qed.

End WithWorld.

Import Scenario.


Lemma no_session_no_transcription_witness :
  let s' := snd (processAudio (scripted startFails) p42 recording
                   (lit "blob:user-1") mounted) in
  apiLog s' = apiLog mounted ++ [EvStartSession p42 (Rejected failure)]
  /\ interviewTurns s' = interviewTurns mounted
  /\ error s' = lit "Could not start interview session."
  /\ processing s' = false.
Proof.
  apply (no_session_no_transcription nat (scripted startFails) p42 mounted
           recording (lit "blob:user-1") (Rejected failure)).
  - vm_compute. reflexivity.
  - vm_compute. reflexivity.
  - exact I.
Defined.

Lemma pipeline_error_by_stage_witness :
  let delta := [EvCheckSessionStatus (lit "s1") (Resolved true);
                EvUploadAudio recording (Resolved (Some (lit "Hello")));
                EvGetPersonaReply p42 (lit "Hello") (lit "s1") (Rejected failure)] in
  let s' := snd (pipelineRun replyFails) in
  ((exists b e, In (EvUploadAudio b (Rejected e)) delta)
   \/ (exists p q sid e, In (EvGetPersonaReply p q sid (Rejected e)) delta)
   \/ (exists x p e, In (EvGenerateTTS x p (Rejected e)) delta) ->
   error s' = lit "Failed to process audio")
  /\ (forall b tr,
        In (EvUploadAudio b (Resolved tr)) delta ->
        whitespace_only (or_empty tr) = true ->
        error s' = lit "No speech detected. Please try again."
        /\ forall p q sid r, ~ In (EvGetPersonaReply p q sid r) delta).
Proof.
  intros delta s'.
  apply (pipeline_error_by_stage nat (scripted replyFails) p42 inSession s'
           recording (lit "blob:user-1") (fst (pipelineRun replyFails)) delta).
  - vm_compute. reflexivity.
  - vm_compute. reflexivity.
Defined.

Example replyFails_error :
  error (snd (pipelineRun replyFails)) = lit "Failed to process audio"
  /\ error (snd (pipelineRun noSpeech)) = lit "No speech detected. Please try again.".
Proof. split; vm_compute; reflexivity. Qed.

Lemma completed_turn_content_witness :
  exists tid ts,
    interviewTurns (snd (pipelineRun allGood))
    = interviewTurns inSession
      ++ [ {| id := tid;
              student_question := trim (or_empty (Some (lit "Hello")));
              student_audio_url := or_null (lit "blob:user-1");
              persona_response := trim (or_empty (Some (lit "Good question")));
              persona_audio_url := Some (lit "https://cdn/a.mp3");
              timestamp := ts;
              turn_number :=
                Some (or_num (Some 1%Z)
                        (Z.of_nat (List.length (interviewTurns inSession)) + 1)) |} ]
    /\ error (snd (pipelineRun allGood)) = error inSession.
Proof.
  apply (completed_turn_content nat (scripted allGood) p42 inSession
           (snd (pipelineRun allGood)) recording recording (lit "blob:user-1")
           p42 (lit "Hello") (lit "s1") (lit "Good question") p42
           (fst (pipelineRun allGood))
           [EvCheckSessionStatus (lit "s1") (Resolved true);
            EvUploadAudio recording (Resolved (Some (lit "Hello")));
            EvGetPersonaReply p42 (lit "Hello") (lit "s1") (on_reply allGood);
            EvGenerateTTS (lit "Good question") p42 (on_tts allGood)]
           (Some (lit "Hello"))
           {| reply := Some (lit "Good question"); reply_turn_number := Some 1%Z |}
           {| audio_base64 := None; audio_url := Some (lit "https://cdn/a.mp3") |}).
  - vm_compute. reflexivity.
  - vm_compute. reflexivity.
  - simpl. right. left. reflexivity.
  - simpl. right. right. left. reflexivity.
  - simpl. right. right. right. left. reflexivity.
  - reflexivity.
  - vm_compute. repeat constructor. simpl. tauto.
Defined.

Lemma pipeline_keeps_questions_witness :
  Forall AppShell.hasQuestion
    (interviewTurns
       (snd (processAudio (scripted allGood) p42 recording (lit "blob:user-2")
               (snd (pipelineRun allGood))))).
Proof.
  apply (pipeline_keeps_questions nat (scripted allGood) p42
           (snd (pipelineRun allGood)) recording (lit "blob:user-2")).
  vm_compute. repeat constructor.
Defined.

End PipelineMore.

(** ** Scoring after the pipeline *)

Module ScoringFacts.
Import Interview AppShell.




Example normalizeTurns_twoTurns :
  normalizeTurns Scenario.twoTurns
  = [ {| speaker := lit "STUDENT"; text := lit "Hello"; turn_number := 1 |};
      {| speaker := lit "PERSONA"; text := lit "Good question"; turn_number := 2 |};
      {| speaker := lit "STUDENT"; text := lit "What motivates you?";
         turn_number := 3 |} ].
Proof. vm_compute. reflexivity. Qed.

End ScoringFacts.

(** ** Session helpers: recovery and teardown *)

Module SessionMore.
Import Interview.
Import SessionFacts PipelinePaths.

Section WithWorld.

Variable W : Type.
Variable env : Env W.
Variable personaId : jsstring.

(** X13. A call of [ensureSession] never throws, makes at most two
    requests of which at most one starts a session, leaves the turns
    alone, and an id it returns is the id then held in [sessionIdRef]. *)
Theorem ensureSession_calls_bounded :
  forall s : St W,
    exists r delta,
      fst (ensureSession env personaId s) = Normal r
      /\ apiLog (snd (ensureSession env personaId s)) = apiLog s ++ delta
      /\ List.length delta <= 2
      /\ List.length (List.filter isStartSession delta) <= 1
      /\ interviewTurns (snd (ensureSession env personaId s)) = interviewTurns s
      /\ (truthy_ostr r = true ->
          sessionIdRef (snd (ensureSession env personaId s)) = r).
Proof.
  intros s.
  destruct (ensureSession env personaId s) as [c s1] eqn:E.
  apply ensureSession_detail in E
    as (r & delta & -> & Hl & _ & Hstart & Hlen & Ht & _ & _ & Hheld).
  exists r, delta. simpl. repeat (split; [assumption || reflexivity|]).
  intros Hr. now destruct (Hheld Hr).
Qed.

(** X14. When the id held turns out stale, the status check being
    rejected or reporting the session inactive, and the start-session
    request then resolves, [ensureSession] returns the new id, which
    replaces the old one in the state and in the ref; the session is
    marked active and no error is set. *)
Theorem ensureSession_recovers :
  forall (s : St W) (sid : jsstring) (o : Outcome bool) (fresh : option jsstring),
    sessionIdRef s = Some sid ->
    truthy_str sid = true ->
    fst (checkSessionStatus env sid (world s)) = o ->
    o <> Resolved true ->
    fst (startSession env personaId (snd (checkSessionStatus env sid (world s))))
    = Resolved fresh ->
    let r := ensureSession env personaId s in
    fst r = Normal fresh
    /\ sessionIdRef (snd r) = fresh
    /\ sessionId (snd r) = fresh
    /\ sessionActive (snd r) = true
    /\ error (snd r) = error s
    /\ apiLog (snd r)
       = apiLog s ++ [EvCheckSessionStatus sid o;
                      EvStartSession personaId (Resolved fresh)].
Proof.
  intros s sid o fresh Hid Ht Hc Hne Hstart.
  assert (Hor : or_empty (Some sid) = sid).
  { unfold or_empty. now rewrite Ht. }
  unfold ensureSession, initializeSession, call_checkSessionStatus, call_startSession.
  unfold_m. simpl. rewrite Hid. simpl. rewrite Ht. simpl.
  destruct (checkSessionStatus env sid (world s)) as [o' w] eqn:Ec.
  simpl in Hc, Hstart. subst o'.
  destruct (startSession env personaId w) as [o2 w2] eqn:Es.
  simpl in Hstart. subst o2.
  destruct o as [[|]|e]; [congruence| |]; simpl;
    rewrite ?Es; unfold ret, throw; simpl;
    repeat split; try reflexivity; rewrite <- app_assoc; reflexivity.
Qed.

(** X15. When no id is held and the start-session request is rejected,
    [ensureSession] returns null without throwing, sets the error
    ['Failed to initialize interview session'] and leaves the session id
    and the active flag as they were. *)
Theorem ensureSession_start_rejected :
  forall (s : St W) (e : Exn),
    truthy_ostr (sessionIdRef s) = false ->
    fst (startSession env personaId (world s)) = Rejected e ->
    let r := ensureSession env personaId s in
    fst r = Normal None
    /\ error (snd r) = lit "Failed to initialize interview session"
    /\ sessionIdRef (snd r) = sessionIdRef s
    /\ sessionId (snd r) = sessionId s
    /\ sessionActive (snd r) = sessionActive s
    /\ apiLog (snd r) = apiLog s ++ [EvStartSession personaId (Rejected e)].
Proof.
  intros s e Hheld Hstart.
  unfold ensureSession, initializeSession, call_startSession.
  unfold_m. simpl. rewrite Hheld. simpl.
  destruct (startSession env personaId (world s)) as [o w] eqn:Es.
  simpl in Hstart. subst o. simpl. repeat split; reflexivity.
Qed.

(** X16. Running [endSessionCleanup] a second time does nothing: no
    request, no change of state; and it does nothing at all when no id is
    held. *)
Theorem endSessionCleanup_idempotent :
  forall s : St W,
    let s1 := snd (endSessionCleanup env s) in
    endSessionCleanup env s1 = (Normal tt, s1)
    /\ (truthy_ostr (sessionIdRef s) = false ->
        endSessionCleanup env s = (Normal tt, s)).
Proof.
  intros s. unfold endSessionCleanup, call_endSession. unfold_m. simpl.
  destruct (truthy_ostr (sessionIdRef s)) eqn:Hheld; simpl.
  - destruct (endSession env (or_empty (sessionIdRef s)) (world s)) as [o w].
    destruct o as [[]|e]; simpl; split; try reflexivity; discriminate.
  - rewrite Hheld. simpl. split; reflexivity.
Qed.

(** X17. With no turn, [handleEndInterview] only sets the error ['No
    interview data to analyze']: it makes no request and does not call
    the parent's [onEndInterview].  With at least one turn, once the
    awaited [endSessionCleanup] is over, its end-session request (made
    only when an id is held) having resolved or been rejected, the
    callback is called, no session id is held any more and no error is
    set.  The turns are never changed.  A call that has finished has
    finished normally. *)
Theorem handleEndInterview_gate :
  forall (s s' : St W) (c : Completion bool),
    handleEndInterview env s = (c, s') ->
    interviewTurns s' = interviewTurns s
    /\ (interviewTurns s = [] ->
        c = Normal false
        /\ s' = setError (lit "No interview data to analyze") s)
    /\ (interviewTurns s <> [] ->
        c = Normal true
        /\ truthy_ostr (sessionIdRef s') = false
        /\ error s' = error s
        /\ if truthy_ostr (sessionIdRef s)
           then exists o,
                  apiLog s'
                  = apiLog s ++ [EvEndSession (or_empty (sessionIdRef s)) o]
           else apiLog s' = apiLog s).
Proof.
  intros s s' c. unfold handleEndInterview, endSessionCleanup, call_endSession.
  unfold_m. simpl.
  destruct (interviewTurns s) as [|t l] eqn:Et; simpl.
  - intros H. injection H as <- <-. simpl.
    split; [exact Et|]. split; [intros _; split; reflexivity | congruence].
  - destruct (truthy_ostr (sessionIdRef s)) eqn:Hheld; simpl.
    + destruct (endSession env (or_empty (sessionIdRef s)) (world s)) as [o w].
      destruct o as [[]|e]; simpl; intros H; injection H as <- <-; simpl;
        (split; [exact Et|]); (split; [discriminate|]);
        intros _; repeat (split; [reflexivity|]); eexists; reflexivity.
    + intros H. injection H as <- <-. simpl.
      split; [exact Et|]. split; [discriminate|]. intros _.
      rewrite Hheld. repeat split; reflexivity.
Qed.

End WithWorld.

Import Scenario.

Lemma ensureSession_recovers_witness :
  let r := ensureSession (scripted sessionExpired) p42 inSession in
  fst r = Normal (Some (lit "s2"))
  /\ sessionIdRef (snd r) = Some (lit "s2")
  /\ sessionId (snd r) = Some (lit "s2")
  /\ sessionActive (snd r) = true
  /\ error (snd r) = error inSession
  /\ apiLog (snd r)
     = apiLog inSession ++ [EvCheckSessionStatus (lit "s1") (Resolved false);
                            EvStartSession p42 (Resolved (Some (lit "s2")))].
Proof.
  apply (ensureSession_recovers nat (scripted sessionExpired) p42 inSession
           (lit "s1") (Resolved false) (Some (lit "s2"))).
  - vm_compute. reflexivity.
  - vm_compute. reflexivity.
  - vm_compute. reflexivity.
  - discriminate.
  - vm_compute. reflexivity.
Defined.

Lemma ensureSession_start_rejected_witness :
  let r := ensureSession (scripted startFails) p42 mounted in
  fst r = Normal None
  /\ error (snd r) = lit "Failed to initialize interview session"
  /\ sessionIdRef (snd r) = sessionIdRef mounted
  /\ sessionId (snd r) = sessionId mounted
  /\ sessionActive (snd r) = sessionActive mounted
  /\ apiLog (snd r) = apiLog mounted ++ [EvStartSession p42 (Rejected failure)].
Proof.
  apply (ensureSession_start_rejected nat (scripted startFails) p42 mounted failure).
  - vm_compute. reflexivity.
  - vm_compute. reflexivity.
Defined.

Lemma ensureSession_calls_bounded_witness :
  exists r,
    fst (ensureSession (scripted allGood) p42 mounted) = Normal r
    /\ truthy_ostr r = true
    /\ sessionIdRef (snd (ensureSession (scripted allGood) p42 mounted)) = r.
Proof.
  destruct (ensureSession_calls_bounded nat (scripted allGood) p42 mounted)
    as (r & delta & Hr & _ & _ & _ & _ & Hid).
  exists r. split; [exact Hr|].
  assert (Ht : truthy_ostr r = true).
  { vm_compute in Hr. injection Hr as <-. vm_compute. reflexivity. }
  split; [exact Ht | exact (Hid Ht)].
Defined.

Lemma endSessionCleanup_idempotent_witness :
  truthy_ostr (sessionIdRef mounted) = false
  /\ endSessionCleanup (scripted endFails) mounted = (Normal tt, mounted).
Proof.
  split; [vm_compute; reflexivity|].
  apply (proj2 (endSessionCleanup_idempotent nat (scripted endFails) mounted)).
  vm_compute. reflexivity.
Defined.

(** The interview is ended after one turn, the end-session request being
    rejected: the callback is called all the same. *)
Lemma handleEndInterview_gate_witness :
  let s := snd (pipelineRun allGood) in
  let r := handleEndInterview (scripted endFails) s in
  interviewTurns s <> []
  /\ fst r = Normal true
  /\ truthy_ostr (sessionIdRef (snd r)) = false
  /\ error (snd r) = error s
  /\ exists o, apiLog (snd r) = apiLog s ++ [EvEndSession (lit "s1") o].
Proof.
  intros s r.
  assert (Hne : interviewTurns s <> []) by (vm_compute; discriminate).
  split; [exact Hne|].
  destruct (handleEndInterview_gate nat (scripted endFails) s (snd r) (fst r))
    as (_ & _ & Hcalled).
  { vm_compute. reflexivity. }
  destruct (Hcalled Hne) as (Hc & Hid & Herr & Hlog).
  split; [exact Hc|]. split; [exact Hid|]. split; [exact Herr|].
  vm_compute in Hlog. vm_compute. exact Hlog.
Defined.

End SessionMore.

(** ** Playback: the refs agree *)

Module PlaybackMore.
Import Interview.
Import SessionFacts PlaybackFacts.

Section WithWorld.

Variable W : Type.
Variable env : Env W.

(** X18. If the loaded reference names the source of the element held,
    and a bubble is marked as playing only while a reference is loaded,
    this is still so after [stopCurrentAudio], after the [onended]
    handler, and after [playAudio] with any reference and key, whether
    the browser plays or refuses. *)
Theorem playback_refs_agree :
  forall s : St W,
    audioConsistent s ->
    audioConsistent (snd (@stopCurrentAudio W s))
    /\ audioConsistent (snd (@onended W s))
    /\ forall url key, audioConsistent (snd (playAudio env url key s)).
Proof.
  intros s [Hurl Hkey].
  split; [|split].
  - destruct (stopCurrentAudio s) as [c s1] eqn:E. simpl.
    apply stopCurrentAudio_spec in E as (_ & Hk & Hu & _).
    split; [rewrite Hu | rewrite Hk]; discriminate.
  - unfold onended. unfold_m. simpl. split; discriminate.
  - intros url key.
    destruct (playAudio env url key s) as [c s1] eqn:E. simpl.
    destruct (truthy_str url) eqn:Hne.
    + apply (playAudio_nonempty_spec W env s s1 url key c Hne) in E
        as (_ & Hre & Hload).
      destruct (hasCurrentAudio s && str_eqb (currentAudioUrlRef s) url) eqn:Hb.
      * destruct (Hre eq_refl) as (a & ok & Ha & _ & _ & Hcur & Hu & Hk).
        apply andb_true_iff in Hb as [_ Heq]. apply JSFacts.str_eqb_eq in Heq.
        assert (Hsrc : src a = url).
        { destruct (Hurl ltac:(now rewrite Heq)) as (a' & Ha' & Hs').
          rewrite Ha in Ha'. injection Ha' as <-. now rewrite Hs'. }
        split.
        -- intros _. rewrite Hcur, Hu. eexists. split; [reflexivity|]. exact Hsrc.
        -- intros _. now rewrite Hu.
      * destruct (Hload eq_refl) as (ok & _ & _ & Hcur & Hu & Hk).
        split.
        -- intros _. rewrite Hcur, Hu. eexists. split; reflexivity.
        -- intros _. now rewrite Hu.
    + unfold playAudio in E. unfold try_catch, ret in E. rewrite Hne in E.
      simpl in E. injection E as _ <-. split; assumption.
Qed.

End WithWorld.

Import Scenario.

Lemma playback_refs_agree_witness :
  audioConsistent (snd (@stopCurrentAudio nat playingP7))
  /\ audioConsistent (snd (@onended nat playingP7))
  /\ forall url key,
       audioConsistent (snd (playAudio (scripted playBlocked) url key playingP7)).
Proof.
  apply (playback_refs_agree nat (scripted playBlocked) playingP7).
  split.
  - intros _. eexists. split; vm_compute; reflexivity.
  - intros _. vm_compute. reflexivity.
Defined.

End PlaybackMore.

(** ** Push-to-talk: inert inputs and swallowed presses *)

Module PushToTalkMore.
Import PushToTalk.
Import PushToTalkFacts.

Lemma step_irrelevant (i : Input) (r : Refs) :
  relevant i = false -> step i r = (r, None).
Proof.
  destruct i as [e|e|a b c]; simpl; [| |discriminate].
  - unfold onKeyDown. destruct (isSpace e); simpl; [|reflexivity].
    destruct (targetIsEditable (target e)); simpl; [reflexivity | discriminate].
  - unfold onKeyUp. intros ->. reflexivity.
Qed.

(** X19. Key events of other keys, and key-downs of the push-to-talk key
    inside an input, a textarea or an editable element, have no effect at
    all: removing them from any sequence of inputs changes neither the
    final refs nor the transitions emitted. *)
Theorem inert_inputs_can_be_dropped :
  forall (ins : list Input) (r : Refs),
    fst (run (List.filter relevant ins) r) = fst (run ins r)
    /\ transitions (snd (run (List.filter relevant ins) r))
       = transitions (snd (run ins r)).
Proof.
  induction ins as [|i ins IH]; intros r; [split; reflexivity|].
  simpl List.filter. destruct (relevant i) eqn:Hrel.
  - rewrite !run_cons. simpl. destruct (IH (fst (step i r))) as [H1 H2].
    split; [exact H1|]. destruct (snd (step i r)); simpl; now rewrite H2.
  - rewrite (run_cons i ins r), (step_irrelevant i r Hrel). simpl. apply IH.
Qed.

Lemma nothing_while_down (ins : list Input) :
  forall r,
    spaceIsDownRef r = true ->
    forallb (fun i => negb (isSpaceKeyUp i)) ins = true ->
    emitted (snd (run ins r)) = 0.
Proof.
  induction ins as [|i ins IH]; intros r Hd Hall; [reflexivity|].
  simpl in Hall. apply andb_true_iff in Hall as [Hi Hall].
  apply negb_true_iff in Hi.
  destruct (step_while_down i r Hd) as [Hnone Hkeep].
  rewrite run_cons. simpl. rewrite Hnone. apply IH; auto.
Qed.

(** X20. Once the push-to-talk key has been pressed outside an editable
    element, nothing is emitted until it is released, whatever happens to
    the mirrored state meanwhile; and a press made while a turn is
    processing or while no session is active emits nothing itself.  So a
    press swallowed during processing is not honoured when processing ends:
    the key has to be released and pressed again. *)
Theorem swallowed_press_is_not_replayed :
  forall (e : KeyboardEvent) (r : Refs) (rest : list Input),
    isSpace e = true ->
    targetIsEditable (target e) = false ->
    forallb (fun i => negb (isSpaceKeyUp i)) rest = true ->
    emitted (snd (run rest (fst (onKeyDown e r)))) = 0
    /\ (processingRef r || negb (sessionActiveRef r) = true ->
        snd (onKeyDown e r) = None).
Proof.
  intros e r rest Hs He Hrest. split.
  - apply nothing_while_down; [|exact Hrest].
    unfold onKeyDown. rewrite Hs, He. simpl.
    destruct (spaceIsDownRef r) eqn:Hd; [exact Hd|].
    destruct (processingRef r || negb (sessionActiveRef r)); reflexivity.
  - intros Hgate. unfold onKeyDown. rewrite Hs, He. simpl.
    destruct (spaceIsDownRef r); [reflexivity|]. simpl. now rewrite Hgate.
Qed.

Lemma swallowed_press_is_not_replayed_witness :
  emitted (snd (run (List.tl Scenario.heldThroughProcessing)
                  (fst (onKeyDown spaceEvent Scenario.busyRefs)))) = 0
  /\ (processingRef Scenario.busyRefs || negb (sessionActiveRef Scenario.busyRefs)
      = true ->
      snd (onKeyDown spaceEvent Scenario.busyRefs) = None).
Proof.
  apply (swallowed_press_is_not_replayed spaceEvent Scenario.busyRefs
           (List.tl Scenario.heldThroughProcessing));
    vm_compute; reflexivity.
Defined.

Example heldThroughProcessing_outputs :
  snd (run Scenario.heldThroughProcessing Scenario.busyRefs) = [None; None; None].
Proof. vm_compute. reflexivity. Qed.

End PushToTalkMore.

(** ** The feedback adapter: names and failures *)

Module FeedbackMore.
Import Feedback.
Import FeedbackFacts.

Ltac by_ranges :=
  repeat match goal with
         | |- context [(?a <=? ?b)%N] => destruct (N.leb_spec a b)
         | |- context [(?a =? ?b)%N] => destruct (N.eqb_spec a b)
         end;
  simpl; first [reflexivity | exfalso; lia | lia].

Lemma isWordChar_upper (c : N) : isWordChar (upperWordChar c) = isWordChar c.
Proof.
  unfold upperWordChar, isWordChar, isLowerAZ, isUpperAZ, isDigit.
  destruct (N.leb_spec 97 c); destruct (N.leb_spec c 122); simpl; by_ranges.
Qed.

Lemma upperWordChar_idem (c : N) : upperWordChar (upperWordChar c) = upperWordChar c.
Proof.
  unfold upperWordChar, isLowerAZ.
  destruct (N.leb_spec 97 c); destruct (N.leb_spec c 122); simpl; by_ranges.
Qed.

Lemma upperWordChar_not_underscore (c : N) :
  c <> 95%N -> upperWordChar c <> 95%N.
Proof.
  unfold upperWordChar, isLowerAZ.
  destruct (N.leb_spec 97 c); destruct (N.leb_spec c 122); simpl; lia.
Qed.

Lemma capitalizeWords_length (s : jsstring) :
  forall b, List.length (capitalizeWords b s) = List.length s.
Proof. induction s as [|c s IH]; intros b; simpl; [reflexivity | now rewrite IH]. Qed.

Lemma capitalizeWords_no_underscore (s : jsstring) :
  ~ In 95%N s -> forall b, ~ In 95%N (capitalizeWords b s).
Proof.
  induction s as [|c s IH]; intros Hs b; simpl; [tauto|].
  simpl in Hs. intros [H|H].
  - destruct (isWordChar c && negb b); [|tauto].
    apply (upperWordChar_not_underscore c); [tauto | exact H].
  - apply (IH ltac:(tauto) _ H).
Qed.

Lemma capitalizeWords_idem (s : jsstring) :
  forall b, capitalizeWords b (capitalizeWords b s) = capitalizeWords b s.
Proof.
  induction s as [|c s IH]; intros b; simpl; [reflexivity|].
  destruct (isWordChar c && negb b) eqn:E.
  - rewrite isWordChar_upper, E, upperWordChar_idem. f_equal. apply IH.
  - rewrite E. f_equal. apply IH.
Qed.

Lemma underscores_gone (s : jsstring) :
  ~ In 95%N (List.map (fun c => if N.eqb c 95 then 32%N else c) s).
Proof.
  induction s as [|c s IH]; simpl; [tauto|].
  intros [H|H]; [|tauto].
  destruct (N.eqb_spec c 95); [discriminate | congruence].
Qed.

Lemma no_underscore_map_id (s : jsstring) :
  ~ In 95%N s -> List.map (fun c => if N.eqb c 95 then 32%N else c) s = s.
Proof.
  induction s as [|c s IH]; simpl; [reflexivity|].
  intros H. rewrite IH by tauto.
  destruct (N.eqb_spec c 95); [exfalso; tauto | reflexivity].
Qed.

(** X21. [titleCase] of a string is a string of the same length without
    any underscore, and applying [titleCase] to it again changes
    nothing. *)
Theorem titleCase_shape :
  forall s : jsstring,
    exists r,
      titleCase (VStr s) = Val r
      /\ List.length r = List.length s
      /\ ~ In 95%N r
      /\ titleCase (VStr r) = Val r.
Proof.
  intros s. eexists. split; [reflexivity|].
  split; [now rewrite capitalizeWords_length, length_map|].
  assert (Hno : ~ In 95%N
                  (capitalizeWords false
                     (List.map (fun c => if N.eqb c 95 then 32%N else c) s))).
  { apply capitalizeWords_no_underscore. apply underscores_gone. }
  split; [exact Hno|].
  simpl. now rewrite (no_underscore_map_id _ Hno), capitalizeWords_idem.
Qed.

Section WithNumbers.

Variable stringToNumber : jsstring -> float.
Variable numberToString : float -> jsstring.

(** What [category] needs of an entry in order to return. *)
Lemma category_returns (e c : jsval) :
  category stringToNumber numberToString e = Val c ->
  hasStringCategoryId e = true
  /\ convertible stringToNumber numberToString (scoreOf e) = true
  /\ field "id" c = field "category_id" e
  /\ (exists n, field "name" c = VStr n
                /\ titleCase (field "category_id" e) = Val n)
  /\ truthy (field "evidence" c) = true
  /\ truthy (field "suggestions" c) = true.
Proof.
  unfold category.
  destruct e as [| | | | | |props];
    try (simpl; discriminate).
  rewrite !getprop_obj. cbn [rbind].
  unfold hasStringCategoryId, convertible, scoreOf. rewrite !getprop_obj.
  destruct (field "category_id" (VObj props)) as [| | | |cid| |] eqn:Ec;
    try (simpl; discriminate).
  cbn [titleCase rbind].
  unfold or_else at 1.
  destruct (truthy (field "score" (VObj props))) eqn:Ht.
  - destruct (toNumber stringToNumber numberToString (field "score" (VObj props)))
      as [f|] eqn:En; [|simpl; discriminate].
    cbn [rbind]. intros H. injection H as <-.
    repeat (split; [reflexivity|]).
    split; [eexists; split; reflexivity|].
    unfold or_else. split.
    + destruct (truthy (field "evidence" (VObj props))) eqn:Hev;
        [unfold field at 1; simpl; exact Hev | reflexivity].
    + destruct (truthy (field "suggestions" (VObj props))) eqn:Hsu;
        [unfold field at 1; simpl; exact Hsu | reflexivity].
  - cbn [toNumber rbind]. intros H. injection H as <-.
    split; [reflexivity|]. split.
    { destruct (field "score" (VObj props)) as [| |[|]|f|s|l|p];
        try reflexivity; simpl in Ht; discriminate Ht. }
    split; [reflexivity|].
    split; [eexists; split; reflexivity|].
    unfold or_else. split.
    + destruct (truthy (field "evidence" (VObj props))) eqn:Hev;
        [unfold field at 1; simpl; exact Hev | reflexivity].
    + destruct (truthy (field "suggestions" (VObj props))) eqn:Hsu;
        [unfold field at 1; simpl; exact Hsu | reflexivity].
Qed.

Lemma mapM_returns (entries cats : list jsval) :
  mapM (category stringToNumber numberToString) entries = Val cats ->
  Forall2 (fun e c => category stringToNumber numberToString e = Val c) entries cats.
Proof.
  revert cats. induction entries as [|e entries IH]; intros cats; simpl.
  - intros H. injection H as <-. constructor.
  - destruct (category stringToNumber numberToString e) as [c|] eqn:Ec;
      [|discriminate]. cbn [rbind].
    destruct (mapM (category stringToNumber numberToString) entries) as [cs|] eqn:Em;
      [|discriminate]. cbn [rbind].
    intros H. injection H as <-. constructor; [exact Ec | now apply IH].
Qed.

(** What a returning [normalizeReport] did with the entries. *)
Lemma normalizeReport_returns (report r : jsval) :
  normalizeReport stringToNumber numberToString report = Val r ->
  exists cats,
    field "categories" r = VArr cats
    /\ Forall2 (fun e c => category stringToNumber numberToString e = Val c)
         (entriesOf report) cats.
Proof.
  unfold normalizeReport.
  destruct (truthy report) eqn:Ht; cbn [negb].
  - rewrite (scoreEntries_truthy _ Ht). cbn [rbind].
    destruct (mapM (category stringToNumber numberToString) (entriesOf report))
      as [cats|] eqn:Em; [|discriminate]. cbn [rbind].
    rewrite !(getprop_truthy _ _ Ht). cbn [rbind].
    intros H. injection H as <-. exists cats. split; [reflexivity|].
    now apply mapM_returns.
  - intros H. injection H as <-. exists []. split; [reflexivity|].
    unfold entriesOf. rewrite Ht. constructor.
Qed.

(** X22. [normalizeReport] returns exactly on the reports whose scores
    entries each carry a string [category_id] and a score that [Number]
    converts: one entry that is null, that has no string [category_id], or
    whose score cannot be converted makes the whole call throw. *)
Theorem normalizeReport_returns_exactly_when :
  forall report : jsval,
    (exists r, normalizeReport stringToNumber numberToString report = Val r)
    <-> Forall (fun e => hasStringCategoryId e = true
                         /\ convertible stringToNumber numberToString (scoreOf e)
                            = true)
               (entriesOf report).
Proof.
  intros report. split.
  - intros [r Hr]. apply normalizeReport_returns in Hr as (cats & _ & Hall).
    induction Hall as [|e c entries cats He _ IH]; [constructor|].
    constructor; [|exact IH].
    apply category_returns in He as (H1 & H2 & _). auto.
  - intros Hall. unfold normalizeReport.
    destruct (truthy report) eqn:Ht; cbn [negb]; [|eauto].
    rewrite (scoreEntries_truthy _ Ht). cbn [rbind].
    destruct (categories_ok stringToNumber numberToString _ Hall) as (cats & -> & _).
    cbn [rbind]. rewrite !(getprop_truthy _ _ Ht). cbn [rbind]. eauto.
Qed.


End WithNumbers.


End FeedbackMore.

(** ** Persona selection: pages *)

Module PersonaSelectionFacts.
Import PersonaSelection.

Lemma totalPages_bounds (n : nat) :
  (1 <= totalPages n)%Z
  /\ (Z.of_nat n <= 9 * totalPages n)%Z
  /\ (0 < n -> (9 * (totalPages n - 1) < Z.of_nat n)%Z).
Proof.
  unfold totalPages, PAGE_SIZE.
  pose proof (Z.div_mod (Z.of_nat n + 9 - 1) 9 ltac:(lia)) as Hdm.
  pose proof (Z.mod_pos_bound (Z.of_nat n + 9 - 1) 9 ltac:(lia)) as Hb.
  repeat split; lia.
Qed.

Lemma firstn_then_more {A} (l : list A) :
  forall a b, List.firstn a l ++ List.firstn b (List.skipn a l) = List.firstn (a + b) l.
Proof.
  induction l as [|x l IH]; intros [|a] b; simpl;
    rewrite ?firstn_nil; try reflexivity.
  now rewrite IH.
Qed.

(** A page inside the range is the nine items that follow the pages
    before it. *)
Lemma current_in_range {A} (items : list A) (k : nat) :
  (1 <= Z.of_nat k <= totalPages (List.length items))%Z ->
  current items (Z.of_nat k) = List.firstn 9 (List.skipn (9 * (k - 1)) items).
Proof.
  intros Hk.
  destruct (totalPages_bounds (List.length items)) as (H1 & H2 & H3).
  unfold current, pageSafe, slice, PAGE_SIZE.
  rewrite Z.min_l by lia.
  assert (Hstart : ((Z.of_nat k - 1) * 9 <? 0)%Z = false) by (apply Z.ltb_ge; lia).
  assert (Hfinal : ((Z.of_nat k - 1) * 9 + 9 <? 0)%Z = false) by (apply Z.ltb_ge; lia).
  rewrite Hstart, Hfinal.
  assert (Hle : ((Z.of_nat k - 1) * 9 <= Z.of_nat (List.length items))%Z).
  { destruct (Nat.eq_dec (List.length items) 0) as [Hz|Hnz].
    - rewrite Hz in Hk. change (totalPages 0) with 1%Z in Hk. lia.
    - specialize (H3 ltac:(lia)). lia. }
  set (len := List.length items) in *.
  rewrite (Z.min_l _ _ Hle).
  replace (Z.to_nat ((Z.of_nat k - 1) * 9)) with (9 * (k - 1)) by lia.
  set (a := 9 * (k - 1)) in *.
  assert (Hlen : List.length (List.skipn a items) = len - a) by apply length_skipn.
  destruct (Z.min_spec ((Z.of_nat k - 1) * 9 + 9) (Z.of_nat len)) as [[Hc ->]|[Hc ->]].
  - f_equal. lia.
  - replace (Z.to_nat (Z.max (Z.of_nat len - (Z.of_nat k - 1) * 9) 0)) with (len - a)
      by lia.
    rewrite <- Hlen, firstn_all. symmetry. apply firstn_all2. lia.
Qed.

Lemma pagesUpTo_prefix {A} (items : list A) (k : nat) :
  (Z.of_nat k <= totalPages (List.length items))%Z ->
  pagesUpTo items k = List.firstn (9 * k) items.
Proof.
  induction k as [|k IH]; intros Hk; [reflexivity|].
  cbn [pagesUpTo]. rewrite IH by lia.
  rewrite current_in_range by lia.
  replace (9 * (S k - 1)) with (9 * k) by lia.
  rewrite firstn_then_more. f_equal. lia.
Qed.

(** X24. The pages partition the list shown: laid one after the other,
    pages one to the last give back the list, every item once and in
    order. *)
Theorem pages_partition_the_list :
  forall (A : Type) (items : list A),
    pagesUpTo items (Z.to_nat (totalPages (List.length items))) = items.
Proof.
  intros A items.
  destruct (totalPages_bounds (List.length items)) as (H1 & H2 & _).
  rewrite pagesUpTo_prefix by lia.
  apply firstn_all2. lia.
Qed.

(** X25. A page never holds more than nine items; when the list is not
    empty and the page number is at least one, the page shown is not empty,
    a page number beyond the last page showing the last page. *)
Theorem current_page_bounds :
  forall (A : Type) (items : list A) (page : Z),
    List.length (current items page) <= 9
    /\ ((1 <= page)%Z -> items <> [] -> current items page <> [])
    /\ ((totalPages (List.length items) <= page)%Z ->
        current items page = current items (totalPages (List.length items))).
Proof.
  intros A items page. split; [|split].
  - unfold current, slice, PAGE_SIZE. rewrite length_firstn.
    set (st := ((pageSafe page (List.length items) - 1) * 9)%Z).
    set (len := Z.of_nat (List.length items)).
    assert (H : (Z.max
                   ((if (st + 9 <? 0)%Z then Z.max (len + (st + 9)) 0
                     else Z.min (st + 9) len)
                    - (if (st <? 0)%Z then Z.max (len + st) 0 else Z.min st len)) 0
                 <= 9)%Z).
    { destruct (Z.ltb_spec (st + 9) 0); destruct (Z.ltb_spec st 0); lia. }
    lia.
  - intros Hp Hne.
    destruct (totalPages_bounds (List.length items)) as (H1 & H2 & H3).
    assert (Hlen : 0 < List.length items).
    { destruct items; [congruence | simpl; lia]. }
    specialize (H3 Hlen).
    set (p := Z.min page (totalPages (List.length items))).
    assert (Hrange : (1 <= p <= totalPages (List.length items))%Z) by (unfold p; lia).
    assert (Hcur : current items page = current items (Z.of_nat (Z.to_nat p))).
    { unfold current, pageSafe. fold p. rewrite Z2Nat.id by lia.
      rewrite (Z.min_l p) by lia. reflexivity. }
    rewrite Hcur, current_in_range by (rewrite Z2Nat.id; lia).
    intros Hnil. apply (f_equal (@List.length A)) in Hnil.
    rewrite length_firstn, length_skipn in Hnil. cbn [List.length] in Hnil.
    clearbody p. lia.
  - intros Hbig. unfold current, pageSafe.
    rewrite (Z.min_r page) by lia. rewrite Z.min_id. reflexivity.
Qed.

(** *** Filter options *)

Lemma str_leb_total (a b : jsstring) : str_leb a b = false -> str_leb b a = true.
Proof.
  revert b; induction a as [|x a IH]; intros [|y b]; simpl; try discriminate;
    try reflexivity.
  destruct (N.ltb_spec x y); [discriminate|].
  destruct (N.eqb_spec x y) as [->|Hne].
  - rewrite N.ltb_irrefl, N.eqb_refl. apply IH.
  - intros _. destruct (N.ltb_spec y x); [reflexivity | lia].
Qed.

Lemma insertSorted_In (x y : jsstring) (l : list jsstring) :
  In y (insertSorted x l) <-> y = x \/ In y l.
Proof.
  induction l as [|h t IH]; simpl; [intuition congruence|].
  destruct (str_leb x h); simpl; [intuition congruence|].
  rewrite IH. intuition congruence.
Qed.

Lemma sortStrings_In (y : jsstring) (l : list jsstring) :
  In y (sortStrings l) <-> In y l.
Proof.
  induction l as [|x l IH]; simpl; [tauto|].
  rewrite insertSorted_In, IH. intuition congruence.
Qed.

Lemma insertSorted_NoDup (x : jsstring) (l : list jsstring) :
  ~ In x l -> NoDup l -> NoDup (insertSorted x l).
Proof.
  induction l as [|h t IH]; simpl; intros Hx Hnd.
  - constructor; [tauto | constructor].
  - destruct (str_leb x h).
    + constructor; [simpl; tauto | exact Hnd].
    + inversion Hnd as [|? ? Hh Ht]; subst. constructor.
      * rewrite insertSorted_In. intuition congruence.
      * apply IH; tauto.
Qed.

Lemma sortStrings_NoDup (l : list jsstring) : NoDup l -> NoDup (sortStrings l).
Proof.
  induction 1 as [|x l Hx Hnd IH]; simpl; [constructor|].
  apply insertSorted_NoDup; [now rewrite sortStrings_In | exact IH].
Qed.

Lemma insertSorted_ascending (x : jsstring) (l : list jsstring) :
  ascending l = true -> ascending (insertSorted x l) = true.
Proof.
  induction l as [|h t IH]; intros Hl; [reflexivity|].
  cbn [insertSorted]. destruct (str_leb x h) eqn:Hxh.
  - cbn [ascending]. cbn [ascending] in Hl. now rewrite Hxh, Hl.
  - assert (Ht : ascending t = true).
    { cbn [ascending] in Hl. destruct t as [|b t']; [reflexivity|].
      apply andb_true_iff in Hl. tauto. }
    specialize (IH Ht). cbn [ascending].
    destruct t as [|b t']; cbn [insertSorted] in *.
    + rewrite (str_leb_total _ _ Hxh). reflexivity.
    + cbn [ascending] in Hl. apply andb_true_iff in Hl as [Hhb _].
      destruct (str_leb x b).
      * now rewrite (str_leb_total _ _ Hxh), IH.
      * now rewrite Hhb, IH.
Qed.

Lemma sortStrings_ascending (l : list jsstring) : ascending (sortStrings l) = true.
Proof.
  induction l as [|x l IH]; [reflexivity|].
  simpl. now apply insertSorted_ascending.
Qed.

Lemma seen_spec (x : jsstring) (seen : list jsstring) :
  List.existsb (str_eqb x) seen = true <-> In x seen.
Proof.
  rewrite existsb_exists. split.
  - intros (y & Hy & He). apply JSFacts.str_eqb_eq in He. now subst.
  - intros H. exists x. split; [exact H | apply JSFacts.str_eqb_refl].
Qed.

Lemma dedupe_In (y : jsstring) (l : list jsstring) :
  forall seen, In y (dedupe seen l) <-> In y l /\ ~ In y seen.
Proof.
  induction l as [|x l IH]; intros seen; simpl; [tauto|].
  destruct (List.existsb (str_eqb x) seen) eqn:E.
  - apply seen_spec in E. rewrite IH. intuition congruence.
  - assert (Hx : ~ In x seen).
    { intros H. apply seen_spec in H. congruence. }
    simpl. rewrite IH. simpl.
    destruct (list_eq_dec N.eq_dec x y) as [->|Hne]; intuition congruence.
Qed.

Lemma dedupe_NoDup (l : list jsstring) : forall seen, NoDup (dedupe seen l).
Proof.
  induction l as [|x l IH]; intros seen; simpl; [constructor|].
  destruct (List.existsb (str_eqb x) seen); [apply IH|].
  constructor; [|apply IH].
  rewrite dedupe_In. simpl. tauto.
Qed.

Lemma filter_options_helper (personas : list Persona) (x : jsstring) :
  In x (uniqueProfessions personas) ->
  truthy_str x = true /\ exists p, In p personas /\ role p = x.
Proof.
  unfold uniqueProfessions, uniqueOptions.
  rewrite sortStrings_In, dedupe_In, filter_In, in_map_iff.
  intros [[(p & Hp & Hin) Ht] _]. split; [exact Ht|]. exists p. auto.
Qed.

(** X26. The options offered by a filter are pairwise distinct and in
    ascending order, none of them is empty, and a value is offered exactly
    when it is the non-empty role (or location, or gender) of some
    persona. *)
Theorem filter_options_characterised :
  forall (proj : Persona -> jsstring) (personas : list Persona),
    NoDup (uniqueOptions proj personas)
    /\ ascending (uniqueOptions proj personas) = true
    /\ forall x,
         In x (uniqueOptions proj personas)
         <-> truthy_str x = true /\ exists p, In p personas /\ proj p = x.
Proof.
  intros proj personas. unfold uniqueOptions.
  split; [apply sortStrings_NoDup, dedupe_NoDup|].
  split; [apply sortStrings_ascending|].
  intros x. rewrite sortStrings_In, dedupe_In, filter_In, in_map_iff.
  simpl. split.
  - intros [[(p & Hp & Hin) Ht] _]. split; [exact Ht|]. exists p. auto.
  - intros [Ht (p & Hin & Hp)]. split; [|tauto]. split; [|exact Ht].
    exists p. auto.
Qed.

(** X27. With no filter set every persona is listed; and choosing, as the
    only filter, a profession that the profession filter offers never gives
    an empty list: the list holds exactly the personas of that role, in
    their order. *)
Theorem offered_profession_finds_someone :
  forall (personas : list Persona) (x : jsstring),
    filtered personas noFilters = personas
    /\ (In x (uniqueProfessions personas) ->
        let chosen := {| f_profession := x; f_location := []; f_gender := [] |} in
        filtered personas chosen <> []
        /\ filtered personas chosen
           = List.filter (fun p => str_eqb (role p) x) personas).
Proof.
  intros personas x. split.
  - unfold filtered, noFilters, matches. simpl.
    induction personas as [|p l IH]; simpl; [reflexivity | now rewrite IH].
  - intros Hin. cbv zeta.
    destruct (filter_options_helper personas x Hin) as (Ht & p & Hp & Hr).
    assert (Heq : filtered personas
                    {| f_profession := x; f_location := []; f_gender := [] |}
                  = List.filter (fun p => str_eqb (role p) x) personas).
    { unfold filtered. apply filter_ext. intros q. unfold matches. simpl.
      rewrite Ht. simpl. now rewrite !andb_true_r. }
    split; [|exact Heq].
    rewrite Heq. intros Hnil.
    assert (Hq : In p (List.filter (fun p => str_eqb (role p) x) personas)).
    { apply filter_In. split; [exact Hp|]. rewrite Hr. apply JSFacts.str_eqb_refl. }
    rewrite Hnil in Hq. exact Hq.
Qed.

Lemma current_page_bounds_witness :
  (1 <= 2)%Z /\ List.seq 0 12 <> [] /\ current (List.seq 0 12) 2 <> [].
Proof.
  assert (H1 : (1 <= 2)%Z) by lia.
  assert (H2 : List.seq 0 12 <> []) by (simpl; discriminate).
  split; [exact H1|]. split; [exact H2|].
  exact (proj1 (proj2 (current_page_bounds nat (List.seq 0 12) 2)) H1 H2).
Defined.

(** The second page of twelve items holds the last three. *)
Example current_second_page :
  current (List.seq 0 12) 2 = [9; 10; 11].
Proof. vm_compute. reflexivity. Qed.

Lemma offered_profession_finds_someone_witness :
  In (lit "Nurse") (uniqueProfessions roster)
  /\ filtered roster
       {| f_profession := lit "Nurse"; f_location := []; f_gender := [] |} <> [].
Proof.
  assert (Hin : In (lit "Nurse") (uniqueProfessions roster))
    by (vm_compute; left; reflexivity).
  split; [exact Hin|].
  exact (proj1 (proj2 (offered_profession_finds_someone roster (lit "Nurse")) Hin)).
Defined.

(** The professions offered for the roster: each once, in order. *)
Example roster_professions :
  uniqueProfessions roster = [lit "Nurse"; lit "Teacher"].
Proof. vm_compute. reflexivity. Qed.

End PersonaSelectionFacts.
